(** * 1k-validators-be: the store (src/db/index.ts), the periodic jobs
      (src/jobs.ts) and their cron wrappers, embedded as Rocq functions.

    Collections are lists of documents in insertion order, queries are
    boolean predicates on documents, and every store method is a function
    from a store to a store (with its return value where the callers read
    it).  `Date.now()` is an explicit argument of each method that calls
    it. *)

From Stdlib Require Import ZArith List String Bool Lia QArith.
From Stdlib Require Import Permutation Sorted.
From Equations Require Import Equations.
Import ListNotations.

Local Open Scope Z_scope.
Local Open Scope string_scope.
Local Open Scope list_scope.

(** ** Documents *)

(** One entry of `candidate.invalidity`. *)
Record Invalidity := mkInvalidity {
  inv_valid : bool;
  inv_type : string;
  inv_updated : Z;
  inv_details : string
}.

Record RankEvent := mkRankEvent {
  re_when : Z;
  re_startEra : Z;
  re_activeEra : Z
}.

Record FaultEvent := mkFaultEvent {
  fe_when : Z;
  fe_reason : string;
  fe_prevRank : option Z
}.

(** A candidate document.  A field the document does not carry is [None]
    (JavaScript `undefined`); array fields default to the empty array. *)
Record Candidate := mkCandidate {
  c_name : string;
  c_stash : option string;
  c_kusamaStash : option string;
  c_skipSelfStake : option bool;
  c_bio : option string;
  c_telemetryId : option Z;
  c_nodeRefs : option Z;
  c_version : option string;
  c_discoveredAt : option Z;
  c_onlineSince : option Z;
  c_offlineSince : option Z;
  c_offlineAccumulated : option Z;
  c_rank : option Z;
  c_invalidity : list Invalidity;
  c_rankEvents : list RankEvent;
  c_faultEvents : list FaultEvent
}.

Record DelayedTx := mkDelayedTx {
  dt_number : Z;
  dt_controller : string;
  dt_targets : list string;
  dt_callHash : string
}.

Record ChainMetadata := mkChainMetadata {
  cm_name : string;
  cm_decimals : Z
}.

Record EraPoints := mkEraPoints {
  ep_address : string;
  ep_era : Z;
  ep_eraPoints : Z
}.

(** `{ address, eraPoints }` as the chain adapter reports a validator. *)
Record ValidatorPoints := mkValidatorPoints {
  vp_address : string;
  vp_eraPoints : Z
}.

(** A TotalEraPoints document: the fields `setTotalEraPoints` writes. *)
Record TotalEraPoints := mkTotalEraPoints {
  tep_era : Z;
  tep_totalEraPoints : Z;
  tep_validatorsEraPoints : list ValidatorPoints;
  tep_median : option Q;
  tep_average : option Q;
  tep_max : option Z;
  tep_min : option Z
}.

(** The store: one list of documents per mongoose model of class `Db`. *)
Record Db := mkDb {
  candidateModel : list Candidate;
  delayedTxModel : list DelayedTx;
  chainMetadataModel : list ChainMetadata;
  eraPointsModel : list EraPoints;
  totalEraPointsModel : list TotalEraPoints
}.

Definition emptyDb : Db := mkDb [] [] [] [] [].

(** ** The mongoose operations the store uses *)

Section Mongoose.
Context {A : Type}.

(** `Model.findOne(q)`: the first document matching [q]. *)
Definition findOne (q : A -> bool) (coll : list A) : option A :=
  List.find q coll.

(** `Model.find(q)`. *)
Definition findAll (q : A -> bool) (coll : list A) : list A :=
  List.filter q coll.

(** `Model.findOneAndUpdate(q, u)`: the first document matching [q] is
    rewritten by [u]; nothing happens when none matches (no upsert). *)
Fixpoint findOneAndUpdate (q : A -> bool) (u : A -> A) (coll : list A)
  : list A :=
  match coll with
  | [] => []
  | d :: rest =>
      if q d then u d :: rest else d :: findOneAndUpdate q u rest
  end.

(** `new Model(doc).save()`: a plain insert. *)
Definition save (d : A) (coll : list A) : list A := coll ++ [d].

(** `Model.deleteOne(q)`. *)
Fixpoint deleteOne (q : A -> bool) (coll : list A) : list A :=
  match coll with
  | [] => []
  | d :: rest => if q d then rest else d :: deleteOne q rest
  end.
End Mongoose.

(** JavaScript truthiness of the values the store tests. *)
Definition truthyNum (o : option Z) : bool :=
  match o with Some z => negb (Z.eqb z 0) | None => false end.

Definition truthyStr (o : option string) : bool :=
  match o with Some s => negb (String.eqb s "") | None => false end.

Definition truthyQ (o : option Q) : bool :=
  match o with Some q => negb (Z.eqb (Qnum q) 0) | None => false end.

(** `x || 0` on a number. *)
Definition orZero (o : option Z) : Z :=
  match o with Some z => z | None => 0 end.

(** Query filters. *)
Definition byStash (stash : string) (c : Candidate) : bool :=
  match c_stash c with Some s => String.eqb s stash | None => false end.

Definition byName (name : string) (c : Candidate) : bool :=
  String.eqb (c_name c) name.

Definition byTelemetryId (telemetryId : Z) (c : Candidate) : bool :=
  match c_telemetryId c with Some t => Z.eqb t telemetryId | None => false end.

(** `{ stash: /.*/ }`: the regular expression matches every string, and
    only strings. *)
Definition stashIsString (c : Candidate) : bool :=
  match c_stash c with Some _ => true | None => false end.

(** Field updates of a candidate document. *)
Definition set_stash (v : option string) (c : Candidate) : Candidate :=
  mkCandidate (c_name c) v (c_kusamaStash c) (c_skipSelfStake c) (c_bio c)
    (c_telemetryId c) (c_nodeRefs c) (c_version c) (c_discoveredAt c)
    (c_onlineSince c) (c_offlineSince c) (c_offlineAccumulated c) (c_rank c)
    (c_invalidity c) (c_rankEvents c) (c_faultEvents c).

Definition set_kusamaStash (v : option string) (c : Candidate) : Candidate :=
  mkCandidate (c_name c) (c_stash c) v (c_skipSelfStake c) (c_bio c)
    (c_telemetryId c) (c_nodeRefs c) (c_version c) (c_discoveredAt c)
    (c_onlineSince c) (c_offlineSince c) (c_offlineAccumulated c) (c_rank c)
    (c_invalidity c) (c_rankEvents c) (c_faultEvents c).

Definition set_skipSelfStake (v : option bool) (c : Candidate) : Candidate :=
  mkCandidate (c_name c) (c_stash c) (c_kusamaStash c) v (c_bio c)
    (c_telemetryId c) (c_nodeRefs c) (c_version c) (c_discoveredAt c)
    (c_onlineSince c) (c_offlineSince c) (c_offlineAccumulated c) (c_rank c)
    (c_invalidity c) (c_rankEvents c) (c_faultEvents c).

Definition set_bio (v : option string) (c : Candidate) : Candidate :=
  mkCandidate (c_name c) (c_stash c) (c_kusamaStash c) (c_skipSelfStake c) v
    (c_telemetryId c) (c_nodeRefs c) (c_version c) (c_discoveredAt c)
    (c_onlineSince c) (c_offlineSince c) (c_offlineAccumulated c) (c_rank c)
    (c_invalidity c) (c_rankEvents c) (c_faultEvents c).

Definition set_telemetryId (v : option Z) (c : Candidate) : Candidate :=
  mkCandidate (c_name c) (c_stash c) (c_kusamaStash c) (c_skipSelfStake c)
    (c_bio c) v (c_nodeRefs c) (c_version c) (c_discoveredAt c)
    (c_onlineSince c) (c_offlineSince c) (c_offlineAccumulated c) (c_rank c)
    (c_invalidity c) (c_rankEvents c) (c_faultEvents c).

Definition set_nodeRefs (v : option Z) (c : Candidate) : Candidate :=
  mkCandidate (c_name c) (c_stash c) (c_kusamaStash c) (c_skipSelfStake c)
    (c_bio c) (c_telemetryId c) v (c_version c) (c_discoveredAt c)
    (c_onlineSince c) (c_offlineSince c) (c_offlineAccumulated c) (c_rank c)
    (c_invalidity c) (c_rankEvents c) (c_faultEvents c).

Definition set_version (v : option string) (c : Candidate) : Candidate :=
  mkCandidate (c_name c) (c_stash c) (c_kusamaStash c) (c_skipSelfStake c)
    (c_bio c) (c_telemetryId c) (c_nodeRefs c) v (c_discoveredAt c)
    (c_onlineSince c) (c_offlineSince c) (c_offlineAccumulated c) (c_rank c)
    (c_invalidity c) (c_rankEvents c) (c_faultEvents c).

Definition set_discoveredAt (v : option Z) (c : Candidate) : Candidate :=
  mkCandidate (c_name c) (c_stash c) (c_kusamaStash c) (c_skipSelfStake c)
    (c_bio c) (c_telemetryId c) (c_nodeRefs c) (c_version c) v
    (c_onlineSince c) (c_offlineSince c) (c_offlineAccumulated c) (c_rank c)
    (c_invalidity c) (c_rankEvents c) (c_faultEvents c).

Definition set_onlineSince (v : option Z) (c : Candidate) : Candidate :=
  mkCandidate (c_name c) (c_stash c) (c_kusamaStash c) (c_skipSelfStake c)
    (c_bio c) (c_telemetryId c) (c_nodeRefs c) (c_version c)
    (c_discoveredAt c) v (c_offlineSince c) (c_offlineAccumulated c)
    (c_rank c) (c_invalidity c) (c_rankEvents c) (c_faultEvents c).

Definition set_offlineSince (v : option Z) (c : Candidate) : Candidate :=
  mkCandidate (c_name c) (c_stash c) (c_kusamaStash c) (c_skipSelfStake c)
    (c_bio c) (c_telemetryId c) (c_nodeRefs c) (c_version c)
    (c_discoveredAt c) (c_onlineSince c) v (c_offlineAccumulated c)
    (c_rank c) (c_invalidity c) (c_rankEvents c) (c_faultEvents c).

Definition set_offlineAccumulated (v : option Z) (c : Candidate) : Candidate :=
  mkCandidate (c_name c) (c_stash c) (c_kusamaStash c) (c_skipSelfStake c)
    (c_bio c) (c_telemetryId c) (c_nodeRefs c) (c_version c)
    (c_discoveredAt c) (c_onlineSince c) (c_offlineSince c) v (c_rank c)
    (c_invalidity c) (c_rankEvents c) (c_faultEvents c).

Definition set_invalidity (l : list Invalidity) (c : Candidate) : Candidate :=
  mkCandidate (c_name c) (c_stash c) (c_kusamaStash c) (c_skipSelfStake c)
    (c_bio c) (c_telemetryId c) (c_nodeRefs c) (c_version c)
    (c_discoveredAt c) (c_onlineSince c) (c_offlineSince c)
    (c_offlineAccumulated c) (c_rank c) l (c_rankEvents c) (c_faultEvents c).

Definition set_rankEvents (l : list RankEvent) (c : Candidate) : Candidate :=
  mkCandidate (c_name c) (c_stash c) (c_kusamaStash c) (c_skipSelfStake c)
    (c_bio c) (c_telemetryId c) (c_nodeRefs c) (c_version c)
    (c_discoveredAt c) (c_onlineSince c) (c_offlineSince c)
    (c_offlineAccumulated c) (c_rank c) (c_invalidity c) l (c_faultEvents c).

Definition set_faultEvents (l : list FaultEvent) (c : Candidate) : Candidate :=
  mkCandidate (c_name c) (c_stash c) (c_kusamaStash c) (c_skipSelfStake c)
    (c_bio c) (c_telemetryId c) (c_nodeRefs c) (c_version c)
    (c_discoveredAt c) (c_onlineSince c) (c_offlineSince c)
    (c_offlineAccumulated c) (c_rank c) (c_invalidity c) (c_rankEvents c) l.

Definition set_candidates (l : list Candidate) (db : Db) : Db :=
  mkDb l (delayedTxModel db) (chainMetadataModel db) (eraPointsModel db)
    (totalEraPointsModel db).

Definition set_delayedTxs (l : list DelayedTx) (db : Db) : Db :=
  mkDb (candidateModel db) l (chainMetadataModel db) (eraPointsModel db)
    (totalEraPointsModel db).

Definition set_eraPoints (l : list EraPoints) (db : Db) : Db :=
  mkDb (candidateModel db) (delayedTxModel db) (chainMetadataModel db) l
    (totalEraPointsModel db).

Definition set_totalEraPoints (l : list TotalEraPoints) (db : Db) : Db :=
  mkDb (candidateModel db) (delayedTxModel db) (chainMetadataModel db)
    (eraPointsModel db) l.

(** An update object `{ f1: v1, f2: v2, ... }` is the composition of its
    field updates. *)
Definition patch (us : list (Candidate -> Candidate)) (c : Candidate)
  : Candidate :=
  fold_left (fun acc u => u acc) us c.

(** ** The store methods of class `Db` *)

Section Store.

(** JavaScript's conversion of a number to text inside a template
    literal; the store only pastes its result into `details`. *)
Variable numberToString : Q -> string.

(** How the driver reads a bare number passed where a filter object is
    expected (`findOneAndUpdate(telemetryId, ...)` in `reportBestBlock`). *)
Variable bareIdFilter : Z -> Candidate -> bool.

(** `Keyring.encodeAddress(stash, ss58Prefix)`; [None] when it throws. *)
Variable encodeAddress : string -> Z -> option string.

Definition showNum (o : option Z) : string :=
  match o with
  | Some z => numberToString (inject_Z z)
  | None => "undefined"
  end.

(** `${data.offlineAccumulated / 1000 / 60}` *)
Definition showMinutes (o : option Z) : string :=
  match o with
  | Some z => numberToString (inject_Z z / 1000 / 60)%Q
  | None => "NaN"
  end.

(** *** Delayed transactions *)

Definition sameDelayedKey (number : Z) (controller : string)
    (d : DelayedTx) : bool :=
  Z.eqb (dt_number d) number && String.eqb (dt_controller d) controller.

(** What `save()` reports. *)
Inductive SaveResult := Saved | DuplicateKeyError.

(** `addDelayedTx`: builds the document and saves it; there is no lookup.
    `DelayedTxSchema` comes from `./models`: whether it declares a unique
    index on (number, controller) is the argument [uniqueIndex].  With
    such an index the server rejects the insert of a second row with the
    same key and the returned promise rejects. *)
Definition addDelayedTx (uniqueIndex : bool) (number : Z)
    (controller : string) (targets : list string) (callHash : string)
    (db : Db) : Db * SaveResult :=
  let delayedTx := mkDelayedTx number controller targets callHash in
  if uniqueIndex
     && existsb (sameDelayedKey number controller) (delayedTxModel db)
  then (db, DuplicateKeyError)
  else (set_delayedTxs (save delayedTx (delayedTxModel db)) db, Saved).

(** Modelled from the spec: `DelayedTxSchema` is declared in `./models`,
    which is not among the sources.  The spec's data model gives DelayedTx
    as "unique on (number, controller)": the schema declares that unique
    index. *)
Definition delayedTxUniqueIndex : bool := true.

(** `{ controller: /.*/ }` holds of every row: `controller` is a string. *)
Definition getAllDelayedTxs (db : Db) : list DelayedTx :=
  findAll (fun _ => true) (delayedTxModel db).

Definition deleteDelayedTx (number : Z) (controller : string) (db : Db)
  : Db :=
  set_delayedTxs
    (deleteOne (sameDelayedKey number controller) (delayedTxModel db)) db.

(** *** Candidates *)

Definition getChainMetadata (db : Db) : option ChainMetadata :=
  findOne (fun _ => true) (chainMetadataModel db).

(** A document built by `new candidateModel({...})` before its fields are
    filled in. *)
Definition newCandidate (name : string) : Candidate :=
  mkCandidate name None None None None None None None None None None None
    None [] [] [].

(** `addCandidate`; [None] when it throws (no chain metadata, or the
    address does not encode). *)
Definition addCandidate (name stash kusamaStash : string)
    (skipSelfStake : bool) (bio : string) (db : Db) : option Db :=
  match getChainMetadata db with
  | None => None
  | Some metadata =>
      let network := cm_name metadata in
      let ss58Prefix := if String.eqb network "Kusama" then 2 else 0 in
      match encodeAddress stash ss58Prefix with
      | None => None
      | Some stash =>
          let fields :=
            [set_stash (Some stash); set_kusamaStash (Some kusamaStash);
             set_skipSelfStake (Some skipSelfStake); set_bio (Some bio)] in
          match findOne (byName name) (candidateModel db) with
          | None =>
              let candidate := patch fields (newCandidate name) in
              Some (set_candidates (save candidate (candidateModel db)) db)
          | Some _ =>
              Some (set_candidates
                      (findOneAndUpdate (byName name) (patch fields)
                         (candidateModel db)) db)
          end
      end
  end.

Definition allCandidates (db : Db) : list Candidate :=
  findAll stashIsString (candidateModel db).

(** `{ name: /.*/ }` *)
Definition allNodes (db : Db) : list Candidate :=
  findAll (fun _ => true) (candidateModel db).

(** `data.invalidity.filter((r) => r.type !== ty)` *)
Definition otherThan (ty : string) (l : list Invalidity) : list Invalidity :=
  filter (fun invalidityReason =>
            negb (String.eqb (inv_type invalidityReason) ty)) l.

Definition onlineEntry (dateNow : Z) : Invalidity :=
  mkInvalidity true "ONLINE" dateNow "".

Definition offlineEntry (data : Candidate) (dateNow : Z) : Invalidity :=
  mkInvalidity false "ONLINE" dateNow
    (c_name data ++ " offline. Offline since "
       ++ showNum (c_offlineSince data) ++ ".").

(** `reportBestBlock(telemetryId, details, now)`.  The update is addressed
    by the bare `telemetryId`. *)
Definition reportBestBlock (telemetryId : Z) (now dateNow : Z) (db : Db)
  : Db * bool :=
  match findOne (byTelemetryId telemetryId) (candidateModel db) with
  | None => (db, false)
  | Some data =>
      if truthyNum (c_offlineSince data) then
        let invalidityReasons := otherThan "ONLINE" (c_invalidity data) in
        let timeOffline := now - orZero (c_offlineSince data) in
        let accumulated := orZero (c_offlineAccumulated data) + timeOffline in
        (set_candidates
           (findOneAndUpdate (bareIdFilter telemetryId)
              (patch [set_offlineSince (Some 0); set_onlineSince (Some now);
                      set_offlineAccumulated (Some accumulated);
                      set_invalidity
                        (invalidityReasons ++ [onlineEntry dateNow])])
              (candidateModel db)) db, true)
      else (db, true)
  end.

(** `reportOnline(telemetryId, details, now)` with `name = details[0]` and
    `version = details[2]`; `Date.now()` is read once per update. *)
Definition reportOnline (telemetryId : Z) (name version : string)
    (now dateNow1 dateNow2 : Z) (db : Db) : Db :=
  match findOne (byName name) (candidateModel db) with
  | None =>
      let candidate :=
        patch [set_telemetryId (Some telemetryId); set_nodeRefs (Some 1);
               set_version (Some version); set_discoveredAt (Some now);
               set_onlineSince (Some now); set_offlineSince (Some 0)]
          (newCandidate name) in
      set_candidates (save candidate (candidateModel db)) db
  | Some data =>
      let invalidityReasons := otherThan "ONLINE" (c_invalidity data) in
      let cs1 :=
        if negb (truthyNum (c_discoveredAt data)) then
          findOneAndUpdate (byName name)
            (patch [set_telemetryId (Some telemetryId);
                    set_discoveredAt (Some now); set_onlineSince (Some now);
                    set_offlineSince (Some 0);
                    set_invalidity
                      (invalidityReasons ++ [onlineEntry dateNow1])])
            (candidateModel db)
        else candidateModel db in
      let cs2 :=
        findOneAndUpdate (byName name)
          (fun c =>
             patch [set_telemetryId (Some telemetryId);
                    set_onlineSince (Some now); set_version (Some version);
                    set_invalidity
                      (invalidityReasons ++ [onlineEntry dateNow2]);
                    set_nodeRefs (Some (orZero (c_nodeRefs c) + 1))] c)
          cs1 in
      let cs3 :=
        if truthyNum (c_offlineSince data) then
          let timeOffline := now - orZero (c_offlineSince data) in
          let accumulated :=
            orZero (c_offlineAccumulated data) + timeOffline in
          findOneAndUpdate (byName name)
            (patch [set_offlineSince (Some 0);
                    set_offlineAccumulated (Some accumulated)]) cs2
        else cs2 in
      set_candidates cs3 db
  end.

(** `reportOffline(telemetryId, name, now)` *)
Definition reportOffline (telemetryId : Z) (name : string) (now dateNow : Z)
    (db : Db) : Db :=
  match findOne (byTelemetryId telemetryId) (candidateModel db) with
  | None => db
  | Some data =>
      let invalidityReasons := otherThan "ONLINE" (c_invalidity data) in
      if Z.ltb 1 (orZero (c_nodeRefs data)) then
        set_candidates
          (findOneAndUpdate (byTelemetryId telemetryId)
             (fun c =>
                patch [set_nodeRefs (Some (orZero (c_nodeRefs c) - 1));
                       set_invalidity
                         (invalidityReasons ++ [offlineEntry data dateNow])]
                  c)
             (candidateModel db)) db
      else
        set_candidates
          (findOneAndUpdate (byTelemetryId telemetryId)
             (fun c =>
                patch [set_offlineSince (Some now); set_onlineSince (Some 0);
                       set_nodeRefs (Some (orZero (c_nodeRefs c) - 1));
                       set_invalidity
                         (invalidityReasons ++ [offlineEntry data dateNow])]
                  c)
             (candidateModel db)) db
  end.

(** *** The type-specific invalidity setters

    The twelve setters share one body: look the candidate up by stash,
    drop the entries of the setter's own type from the list that was
    read, append the new entry, and write the list back under the same
    stash.  [failure data] is the text stored when `validity` is false.
    The setters issue the update without awaiting it; here the update has
    landed when the method returns. *)
Definition writeInvalidity (ty : string) (failure : Candidate -> string)
    (address : string) (validity : bool) (dateNow : Z) (db : Db) : Db :=
  match findOne (byStash address) (candidateModel db) with
  | None => db
  | Some data =>
      let invalidityReasons := otherThan ty (c_invalidity data) in
      set_candidates
        (findOneAndUpdate (byStash address)
           (set_invalidity
              (invalidityReasons
                 ++ [mkInvalidity validity ty dateNow
                       (if validity then "" else failure data)]))
           (candidateModel db)) db
  end.

(** `details ? details : fallback` for the optional `details` argument. *)
Definition detailsOr (details : option string) (fallback : string)
  : string :=
  match details with
  | Some d => if truthyStr details then d else fallback
  | None => fallback
  end.

Definition setOnlineValidity :=
  writeInvalidity "ONLINE"
    (fun data => (c_name data ++ " offline. Offline since "
                    ++ showNum (c_offlineSince data) ++ ".")%string).

Definition setValidateIntentionValidity :=
  writeInvalidity "VALIDATE_INTENTION"
    (fun data =>
       (c_name data ++ " does not have a validate intention.")%string).

Definition setLatestClientReleaseValidity :=
  writeInvalidity "CLIENT_UPGRADE"
    (fun data =>
       (c_name data ++ " is not on the latest client version")%string).

Definition setConnectionTimeInvalidity :=
  writeInvalidity "CONNECTION_TIME"
    (fun data =>
       (c_name data
          ++ " has not been connected for minimum length")%string).

Definition setIdentityInvalidity (address : string) (validity : bool)
    (details : option string) :=
  writeInvalidity "IDENTITY"
    (fun data =>
       detailsOr details
         (c_name data ++ " has not properly set their identity")%string)
    address validity.

Definition setOfflineAccumulatedInvalidity :=
  writeInvalidity "ACCUMULATED_OFFLINE_TIME"
    (fun data =>
       (c_name data ++ " has been offline "
          ++ showMinutes (c_offlineAccumulated data)
          ++ " minutes this week.")%string).

Definition setRewardDestinationInvalidity :=
  writeInvalidity "REWARD_DESTINATION"
    (fun data =>
       (c_name data
          ++ " does not have reward destination as Staked")%string).

Definition setCommissionInvalidity (address : string) (validity : bool)
    (details : option string) :=
  writeInvalidity "COMMISION"
    (fun data =>
       detailsOr details
         (c_name data ++ " has not properly set their commission")%string)
    address validity.

Definition setSelfStakeInvalidity (address : string) (validity : bool)
    (details : option string) :=
  writeInvalidity "SELF_STAKE"
    (fun data =>
       detailsOr details
         (c_name data
            ++ " has not properly bonded enough self stake")%string)
    address validity.

Definition setUnclaimedInvalidity (address : string) (validity : bool)
    (details : option string) :=
  writeInvalidity "UNCLAIMED_REWARDS"
    (fun data =>
       detailsOr details
         (c_name data ++ " has not properly claimed era rewards")%string)
    address validity.

Definition setBlockedInvalidity (address : string) (validity : bool)
    (details : option string) :=
  writeInvalidity "BLOCKED"
    (fun data =>
       detailsOr details
         (c_name data ++ " blocks external nominations")%string)
    address validity.

Definition setKusamaRankInvalidity (address : string) (validity : bool)
    (details : option string) :=
  writeInvalidity "KUSAMA_RANK"
    (fun data =>
       detailsOr details
         (c_name data ++ " has not properly claimed era rewards")%string)
    address validity.

(** *** Updates issued without `await`

    Each setter ends with `this.candidateModel.findOneAndUpdate(...).exec()`
    and neither awaits nor returns that promise: when the setter's own
    promise resolves, the update has been handed to the driver and the
    store is still as the setter read it.  [callInvalidity] is a setter up
    to that moment: the store, and the update it has issued.
    [landInvalidity] is what the update does to the store it is applied
    to, and [writeInvalidity] above is the two in a row. *)
Record InvalidityUpdate := mkInvalidityUpdate {
  iu_stash : string;                 (* the filter `{ stash: address }` *)
  iu_invalidity : list Invalidity    (* the new value of `invalidity` *)
}.

Definition callInvalidity (ty : string) (failure : Candidate -> string)
    (address : string) (validity : bool) (dateNow : Z) (db : Db)
  : Db * option InvalidityUpdate :=
  match findOne (byStash address) (candidateModel db) with
  | None => (db, None)
  | Some data =>
      let invalidityReasons := otherThan ty (c_invalidity data) in
      (db,
       Some (mkInvalidityUpdate address
               (invalidityReasons
                  ++ [mkInvalidity validity ty dateNow
                        (if validity then "" else failure data)])))
  end.

Definition landInvalidity (u : InvalidityUpdate) (db : Db) : Db :=
  set_candidates
    (findOneAndUpdate (byStash (iu_stash u))
       (set_invalidity (iu_invalidity u)) (candidateModel db)) db.

(** `setIdentityInvalidity(address, validity, details)` up to the moment
    its promise resolves. *)
Definition callSetIdentityInvalidity (address : string) (validity : bool)
    (details : option string) :=
  callInvalidity "IDENTITY"
    (fun data =>
       detailsOr details
         (c_name data ++ " has not properly set their identity")%string)
    address validity.

(** *** Rank and fault events *)

(** `let already = false; for (const e of events) if (hit e) already = true` *)
Definition scanFor {A : Type} (hit : A -> bool) (events : list A) : bool :=
  fold_left (fun already e => if hit e then true else already) events false.

Definition pushRankEvent (stash : string) (startEra activeEra : Z)
    (dateNow : Z) (db : Db) : Db * bool :=
  match findOne (byStash stash) (candidateModel db) with
  | None => (db, false)
  | Some record =>
      let alreadyRank :=
        scanFor (fun rank => Z.eqb (re_startEra rank) startEra)
          (c_rankEvents record) in
      if alreadyRank then (db, false)
      else
        (set_candidates
           (findOneAndUpdate (byStash stash)
              (fun c =>
                 set_rankEvents
                   (c_rankEvents c
                      ++ [mkRankEvent dateNow startEra activeEra]) c)
              (candidateModel db)) db, true)
  end.

Definition pushFaultEvent (stash reason : string) (dateNow : Z) (db : Db)
  : Db * bool :=
  match findOne (byStash stash) (candidateModel db) with
  | None => (db, false)
  | Some record =>
      let alreadyFault :=
        scanFor (fun fault => String.eqb (fe_reason fault) reason)
          (c_faultEvents record) in
      if alreadyFault then (db, true)
      else
        (set_candidates
           (findOneAndUpdate (byStash stash)
              (fun c =>
                 set_faultEvents
                   (c_faultEvents c
                      ++ [mkFaultEvent dateNow reason (c_rank record)]) c)
              (candidateModel db)) db, false)
  end.

End Store.

(** ** Era points (`setEraPoints`, `setTotalEraPoints`, `eraPointsJob`)

    The job talks to the store and to the chain adapter.  Both are threaded
    through a small state-and-exception monad whose state also records,
    in program order, every store lookup, chain query and store write the
    code issues. *)

Inductive Event :=
| DbGetTotalEraPoints (era : Z)        (* `db.getTotalEraPoints(i)` *)
| ChainGetTotalEraPoints (era : Z)     (* `chaindata.getTotalEraPoints(i)` *)
| DbFindEraPoints (era : Z) (address : string)
| DbFindTotalEraPoints (era : Z)
| DbSaveEraPoints (era : Z) (address : string)
| DbUpdateEraPoints (era : Z) (address : string)
| DbSaveTotalEraPoints (era : Z)
| DbUpdateTotalEraPoints (era : Z).

Definition isWrite (e : Event) : bool :=
  match e with
  | DbSaveEraPoints _ _ | DbUpdateEraPoints _ _
  | DbSaveTotalEraPoints _ | DbUpdateTotalEraPoints _ => true
  | _ => false
  end.

(** The era index an event carries. *)
Definition eventEra (e : Event) : Z :=
  match e with
  | DbGetTotalEraPoints era | ChainGetTotalEraPoints era
  | DbFindEraPoints era _ | DbFindTotalEraPoints era
  | DbSaveEraPoints era _ | DbUpdateEraPoints era _
  | DbSaveTotalEraPoints era | DbUpdateTotalEraPoints era => era
  end.

Record World := mkWorld {
  w_db : Db;
  w_trace : list Event
}.

Inductive Res (A : Type) :=
| Ok (a : A)
| Throw (error : string).
Arguments Ok {A} a.
Arguments Throw {A} error.

Definition M (A : Type) : Type := World -> Res A * World.

Definition ret {A} (a : A) : M A := fun w => (Ok a, w).

Definition bind {A B} (m : M A) (k : A -> M B) : M B :=
  fun w =>
    match m w with
    | (Ok a, w') => k a w'
    | (Throw e, w') => (Throw e, w')
    end.

Definition throw {A} (e : string) : M A := fun w => (Throw e, w).

Definition emit (e : Event) : M unit :=
  fun w => (Ok tt, mkWorld (w_db w) (w_trace w ++ [e])).

Definition readDb {A} (f : Db -> A) : M A := fun w => (Ok (f (w_db w)), w).

Definition writeDb (f : Db -> Db) : M unit :=
  fun w => (Ok tt, mkWorld (f (w_db w)) (w_trace w)).

Declare Scope job_scope.
Delimit Scope job_scope with job.
Notation "x <- m ;; k" := (bind m (fun x => k))
  (at level 61, m at next level, right associativity) : job_scope.
Notation "m ;; k" := (bind m (fun _ => k))
  (at level 61, right associativity) : job_scope.

(** `for (const x of xs) { await body(x) }` *)
Fixpoint forEach {A} (xs : list A) (body : A -> M unit) : M unit :=
  match xs with
  | [] => ret tt
  | x :: rest => bind (body x) (fun _ => forEach rest body)
  end.

(** What the chain adapter answers to `getTotalEraPoints(era)`. *)
Record ChainEraPoints := mkChainEraPoints {
  ce_era : Z;
  ce_total : Z;
  ce_validators : list ValidatorPoints
}.

(** The chain state a job run observes. *)
Record ChainData := mkChainData {
  getActiveEraIndex : Z;
  getTotalEraPoints : Z -> ChainEraPoints
}.

Definition sameEraPointsKey (address : string) (era : Z) (r : EraPoints)
  : bool :=
  String.eqb (ep_address r) address && Z.eqb (ep_era r) era.

Definition sameEra (era : Z) (r : TotalEraPoints) : bool :=
  Z.eqb (tep_era r) era.

(** `setEraPoints(era, points, address)`.  The insert of a missing row is
    returned and so awaited.  The update of a row that holds other points
    is issued without `await`; the trace records it where it is issued and
    the store here shows it applied, that is the store once the update has
    landed. *)
Definition setEraPoints (era points : Z) (address : string) : M unit :=
  (_ <- emit (DbFindEraPoints era address) ;;
   data <- readDb (fun db =>
             findOne (sameEraPointsKey address era) (eraPointsModel db)) ;;
   match data with
   | Some d =>
       if Z.eqb (ep_eraPoints d) points then ret tt
       else
         emit (DbUpdateEraPoints era address) ;;
         writeDb (fun db =>
           set_eraPoints
             (findOneAndUpdate (sameEraPointsKey address era)
                (fun r => mkEraPoints (ep_address r) (ep_era r) points)
                (eraPointsModel db)) db)
   | None =>
       emit (DbSaveEraPoints era address) ;;
       writeDb (fun db =>
         set_eraPoints
           (save (mkEraPoints address era points) (eraPointsModel db)) db)
   end)%job.

(** `array.sort((a, b) => a - b)`: ascending numeric order. *)
Fixpoint insertAsc (x : Z) (l : list Z) : list Z :=
  match l with
  | [] => [x]
  | y :: rest => if Z.leb x y then x :: l else y :: insertAsc x rest
  end.

Fixpoint sortAsc (l : list Z) : list Z :=
  match l with
  | [] => []
  | x :: rest => insertAsc x (sortAsc rest)
  end.

(** `array[i]` on an array of numbers (only read inside its bounds). *)
Definition at_ (array : list Z) (i : nat) : Z := nth i array 0.

(** `getMedian`; [None] is `undefined`, the result of the branch that only
    prints an error. *)
Definition getMedian (array : list Z) : option Q :=
  if Nat.leb 1 (List.length array) then
    let array := sortAsc array in
    if Nat.eqb (List.length array mod 2) 0 then
      Some (inject_Z (at_ array (List.length array / 2 - 1)
                      + at_ array (List.length array / 2)) / 2)%Q
    else
      Some (inject_Z (at_ array ((List.length array - 1) / 2)))
  else None.

(** `list.reduce((prev, curr) => prev + curr) / list.length`; `reduce` with
    no initial value throws on the empty array.  The quotient is the exact
    rational here; the code keeps the nearest double. *)
Definition getAverage (list : list Z) : option Q :=
  match list with
  | [] => None
  | x :: rest =>
      Some (inject_Z (fold_left Z.add rest x)
            / inject_Z (Z.of_nat (List.length list)))%Q
  end.

(** `Math.max(...points)` and `Math.min(...points)`; [None] stands for the
    infinities they give on no argument. *)
Definition mathMax (points : list Z) : option Z :=
  match points with
  | [] => None
  | x :: rest => Some (fold_left Z.max rest x)
  end.

Definition mathMin (points : list Z) : option Z :=
  match points with
  | [] => None
  | x :: rest => Some (fold_left Z.min rest x)
  end.

(** `data.total`: the documents of this collection are written with the
    fields `era`, `totalEraPoints`, `validatorsEraPoints`, `median`,
    `average`, `max` and `min`; none of them is called `total`, so the
    property read is `undefined`. *)
Definition doc_total (data : TotalEraPoints) : option Z := None.

(** `x == total` for a number `total`. *)
Definition looseEqNum (x : option Z) (total : Z) : bool :=
  match x with Some v => Z.eqb v total | None => false end.

(** `setTotalEraPoints(era, total, validators)`.  As in `setEraPoints`,
    the insert of a missing row is awaited and the update of an existing
    one is issued without `await`: the trace records it where it is issued
    and the store here shows it applied. *)
Definition setTotalEraPoints (era total : Z)
    (validators : list ValidatorPoints) : M unit :=
  (forEach validators (fun validator =>
     setEraPoints era (vp_eraPoints validator) (vp_address validator)) ;;
   _ <- emit (DbFindTotalEraPoints era) ;;
   data <- readDb (fun db => findOne (sameEra era) (totalEraPointsModel db)) ;;
   let unchanged :=
     match data with
     | Some d => looseEqNum (doc_total d) total && truthyQ (tep_median d)
     | None => false
     end in
   if unchanged then ret tt
   else
     let points := map vp_eraPoints validators in
     let max := mathMax points in
     let min := mathMin points in
     match getAverage points with
     | None => throw "TypeError: Reduce of empty array with no initial value"
     | Some avg =>
         let median := getMedian points in
         match data with
         | None =>
             emit (DbSaveTotalEraPoints era) ;;
             writeDb (fun db =>
               set_totalEraPoints
                 (save (mkTotalEraPoints era total validators median
                          (Some avg) max min) (totalEraPointsModel db)) db)
         | Some _ =>
             emit (DbUpdateTotalEraPoints era) ;;
             writeDb (fun db =>
               set_totalEraPoints
                 (findOneAndUpdate (sameEra era)
                    (fun r => mkTotalEraPoints (tep_era r) total validators
                                median (Some avg) max min)
                    (totalEraPointsModel db)) db)
         end
     end)%job.

(** `db.getTotalEraPoints(era)` *)
Definition dbGetTotalEraPoints (era : Z) : M (option TotalEraPoints) :=
  (_ <- emit (DbGetTotalEraPoints era) ;;
   readDb (fun db => findOne (sameEra era) (totalEraPointsModel db)))%job.

(** `await chaindata.getTotalEraPoints(era)` *)
Definition chainGetTotalEraPoints (chaindata : ChainData) (era : Z)
  : M ChainEraPoints :=
  (_ <- emit (ChainGetTotalEraPoints era) ;;
   ret (getTotalEraPoints chaindata era))%job.

(** The body of the `for` loop of `eraPointsJob` at era [i]. *)
Definition eraPointsStep (chaindata : ChainData) (i : Z) : M unit :=
  (erapoints <- dbGetTotalEraPoints i ;;
   let filled :=
     match erapoints with
     | Some e => Z.leb 70000 (tep_totalEraPoints e) && truthyQ (tep_median e)
     | None => false
     end in
   if filled then ret tt
   else
     r <- chainGetTotalEraPoints chaindata i ;;
     setTotalEraPoints (ce_era r) (ce_total r) (ce_validators r))%job.

Definition inspect {A} (a : A) : {b : A | a = b} := exist _ a eq_refl.

(** `for (let i = ...; i > activeEra - 84 && i >= 0; i--) body(i)`, from
    the current value of `i`. *)
Equations? eraLoop (body : Z -> M unit) (activeEra i : Z) (w : World)
  : Res unit * World by wf (Z.to_nat (i + 1)) lt :=
  eraLoop body activeEra i w
    with inspect (Z.ltb (activeEra - 84) i && Z.leb 0 i) := {
    | exist _ true _ with body i w := {
        | (Ok _, w') => eraLoop body activeEra (i - 1) w'
        | (Throw e, w') => (Throw e, w') }
    | exist _ false _ => (Ok tt, w) }.
Proof. lia. Qed.

(** `eraPointsJob(db, chaindata)` *)
Definition eraPointsJob (chaindata : ChainData) : M unit :=
  let activeEra := getActiveEraIndex chaindata in
  (eraLoop (eraPointsStep chaindata) activeEra (activeEra - 1) ;;
   r <- chainGetTotalEraPoints chaindata activeEra ;;
   setTotalEraPoints (ce_era r) (ce_total r) (ce_validators r))%job.

(** ** The cron wrappers (`startValidatityJob`, `startEraPointsJob`, ...)

    Each `start...Job` hands `CronJob` one callback.  A callback is the
    list of its statements that matter to the scheduling discipline: the
    re-entrancy guard, the writes of the `running` flag that the enclosing
    function declares, and the suspension points (`await`).  A loop or a
    conditional whose body awaits is one suspension point, named after its
    first line.  JavaScript runs a callback without interruption up to its
    next `await`; the awaited promise then settles at some later event. *)

Inductive Stmt :=
| ReturnIfRunning               (* `if (running) { return; }` *)
| SetRunning (b : bool)         (* `running = b;` *)
| Log                           (* `logger.info(...)` *)
| Call (what : string)          (* a call whose promise is not awaited *)
| Await (what : string)         (* `await what` *)
| TryAwait (what : string).     (* `try { await what } catch (e) { log }` *)

Definition Callback := list Stmt.

Inductive JobName :=
| Monitor | ClearOffline | Validity | Score | EraStats | Execution
| RewardClaim | Cancel | Stale | EraPointsJob | ActiveValidator | Inclusion
| SessionKey | UnclaimedEras | ValidatorPref | ExtNominations.

Definition allJobs : list JobName :=
  [Monitor; ClearOffline; Validity; Score; EraStats; Execution; RewardClaim;
   Cancel; Stale; EraPointsJob; ActiveValidator; Inclusion; SessionKey;
   UnclaimedEras; ValidatorPref; ExtNominations].

(** The callback each `start...` function registers. *)
Definition cronCallback (j : JobName) : Callback :=
  match j with
  | Monitor => [Log; Await "monitorJob"]
  | ClearOffline => [Log; Call "db.clearAccumulated"]
  | Validity =>
      [ReturnIfRunning; SetRunning true; Await "db.allCandidates";
       Await "validityJob"; SetRunning false]
  | Score =>
      [ReturnIfRunning; SetRunning true; Await "scoreJob"; SetRunning false]
  | EraStats =>
      [ReturnIfRunning; SetRunning true; Await "db.allCandidates";
       Await "eraStatsJob"; SetRunning false]
  | Execution =>
      [Log; Await "handler.getApi"; Await "api.rpc.chain.getBlock";
       Await "db.getAllDelayedTxs"; Await "for (const data of allDelayed)"]
  | RewardClaim =>
      [Await "chaindata.getActiveEraIndex"; Log; Await "db.allCandidates";
       Await "claimer.claim"]
  | Cancel =>
      [Log; Await "chaindata.getLatestBlock";
       Await "for (const nomGroup of nominatorGroups)"]
  | Stale =>
      [Log; Await "api.query.staking.currentEra"; Await "db.allCandidates";
       Await "for (const nomGroup of nominatorGroups)"]
  | EraPointsJob =>
      [ReturnIfRunning; SetRunning true; Log; TryAwait "eraPointsJob";
       SetRunning false]
  | ActiveValidator =>
      [ReturnIfRunning; SetRunning true; Log; Await "db.allCandidates";
       Await "activeValidatorJob"; SetRunning false]
  | Inclusion =>
      [ReturnIfRunning; SetRunning true; Log; Await "db.allCandidates";
       Await "inclusionJob"; SetRunning false]
  | SessionKey =>
      [ReturnIfRunning; SetRunning true; Log; Await "db.allCandidates";
       Await "sessionKeyJob"; SetRunning false]
  | UnclaimedEras =>
      [ReturnIfRunning; SetRunning true; Log; Await "db.allCandidates";
       Await "unclaimedErasJob"; SetRunning false]
  | ValidatorPref =>
      [ReturnIfRunning; SetRunning true; Log; Await "db.allCandidates";
       Await "validatorPrefJob"; SetRunning false]
  | ExtNominations =>
      [ReturnIfRunning; SetRunning true; Log; Await "db.allCandidates";
       Await "extNominationsJob"; SetRunning false]
  end.

(** A job carries the latch when its callback opens with the guard and the
    raising of the flag. *)
Definition hasLatch (j : JobName) : bool :=
  match cronCallback j with
  | ReturnIfRunning :: SetRunning true :: _ => true
  | _ => false
  end.

(** The state of one registered job: the flag `running` of its closure,
    the invocations of the callback that are suspended at an await (each as
    the statements it still has to run, its pending await first), and the
    number of invocations that ended in a rejected promise. *)
Record Cron := mkCron {
  running : bool;
  suspended : list Callback;
  rejections : nat
}.

Definition initialCron : Cron := mkCron false [] 0.

(** Run the statements of one invocation up to its next await. *)
Fixpoint runSync (k : Callback) (st : Cron) : Cron :=
  match k with
  | [] => st
  | ReturnIfRunning :: k' => if running st then st else runSync k' st
  | SetRunning b :: k' =>
      runSync k' (mkCron b (suspended st) (rejections st))
  | Log :: k' => runSync k' st
  | Call _ :: k' => runSync k' st
  | Await _ :: _ | TryAwait _ :: _ =>
      mkCron (running st) (suspended st ++ [k]) (rejections st)
  end.

Inductive Outcome := Fulfilled | Rejected.

Inductive CronEvent :=
| Tick                                   (* the cron expression fires *)
| Settle (n : nat) (outcome : Outcome).  (* the await of the n-th suspended
                                            invocation settles *)

Fixpoint dropNth {A} (n : nat) (l : list A) : list A :=
  match n, l with
  | _, [] => []
  | O, _ :: rest => rest
  | S m, x :: rest => x :: dropNth m rest
  end.

Definition cronStep (cb : Callback) (st : Cron) (ev : CronEvent) : Cron :=
  match ev with
  | Tick => runSync cb st
  | Settle n outcome =>
      match nth_error (suspended st) n with
      | None => st
      | Some k =>
          let st' := mkCron (running st) (dropNth n (suspended st))
                       (rejections st) in
          match k, outcome with
          | Await _ :: k', Fulfilled => runSync k' st'
          | Await _ :: _, Rejected =>
              mkCron (running st') (suspended st') (S (rejections st'))
          | TryAwait _ :: k', _ => runSync k' st'
          | _, _ => st'
          end
      end
  end.

Definition cronRun (cb : Callback) (evs : list CronEvent) (st : Cron)
  : Cron :=
  fold_left (cronStep cb) evs st.

(** The state of job [j] after the events [evs], from registration. *)
Definition jobAfter (j : JobName) (evs : list CronEvent) : Cron :=
  cronRun (cronCallback j) evs initialCron.

(** A tick is dropped when it leaves the job as it found it: no new
    invocation is suspended, nothing is recorded for later. *)
Definition tickDropped (j : JobName) (st : Cron) : Prop :=
  cronStep (cronCallback j) st Tick = st.

(** [j] never overlaps itself: whenever an invocation is still in flight,
    a tick is dropped. *)
Definition nonReentrant (j : JobName) : Prop :=
  forall evs,
    suspended (jobAfter j evs) <> [] -> tickDropped j (jobAfter j evs).

(** [j] recovers from a failing body: after a tick whose first await
    rejects, the next tick starts an invocation. *)
Definition recoversFromFailure (j : JobName) : Prop :=
  suspended (jobAfter j [Tick; Settle 0 Rejected; Tick]) <> [].

(** ** Predicates the statements use *)

(** The closed set of invalidity types. *)
Definition invalidityTypes : list string :=
  ["ONLINE"; "VALIDATE_INTENTION"; "CLIENT_UPGRADE"; "CONNECTION_TIME";
   "IDENTITY"; "ACCUMULATED_OFFLINE_TIME"; "REWARD_DESTINATION"; "COMMISION";
   "SELF_STAKE"; "UNCLAIMED_REWARDS"; "BLOCKED"; "KUSAMA_RANK"].

(** The entries of type [t] in an invalidity list. *)
Definition ofType (t : string) (l : list Invalidity) : list Invalidity :=
  filter (fun r => String.eqb (inv_type r) t) l.

Definition atMostOnePerType (l : list Invalidity) : Prop :=
  forall t, In t invalidityTypes -> (List.length (ofType t l) <= 1)%nat.

(** The invariant of the candidate collection. *)
Definition invalidityInvariant (db : Db) : Prop :=
  Forall (fun c => atMostOnePerType (c_invalidity c)) (candidateModel db).

(** The rows of the DelayedTx collection under one key. *)
Definition delayedRows (number : Z) (controller : string) (db : Db)
  : list DelayedTx :=
  filter (sameDelayedKey number controller) (delayedTxModel db).

(** The eras `hi, hi - 1, ..., lo`, in this order. *)
Definition erasDownTo (hi lo : Z) : list Z :=
  map (fun k => hi - Z.of_nat k) (seq 0 (Z.to_nat (hi - lo + 1))).

(** The eras `eraPointsJob` asks the store about, in program order. *)
Definition storeReads (tr : list Event) : list Z :=
  flat_map (fun e => match e with
                     | DbGetTotalEraPoints era => [era]
                     | _ => []
                     end) tr.

(** ** Sample data *)

(** Spec scenario 2: ONLINE valid, IDENTITY invalid. *)
Definition sampleCandidate : Candidate :=
  mkCandidate "alice" (Some "StashA") None None None (Some 7) (Some 1)
    (Some "0.9.13") (Some 1000) (Some 1000) (Some 0) (Some 0) (Some 3)
    [mkInvalidity true "ONLINE" 1000 "";
     mkInvalidity false "IDENTITY" 1000
       "alice has not properly set their identity"]
    [mkRankEvent 900 10 12]
    [mkFaultEvent 950 "offline" (Some 4)].

Definition sampleDb : Db :=
  mkDb [sampleCandidate] [] [mkChainMetadata "Kusama" 12] [] [].

(** [sampleDb] after telemetry has reported a node "bob" and
    `addCandidate` has registered that name. *)
Definition sampleDbWithBob : Db :=
  mkDb [sampleCandidate;
        mkCandidate "bob" (Some "StashB") (Some "KsmB") (Some false)
          (Some "") (Some 9) (Some 1) (Some "0.9.13") (Some 5000)
          (Some 5000) (Some 0) None None [] [] []]
    [] [mkChainMetadata "Kusama" 12] [] [].

Definition sampleNumberToString (q : Q) : string := "0".

Definition sampleEncodeAddress (stash : string) (prefix : Z) : option string :=
  Some stash.

(** The chain adapter answers for the era it is asked about, with at least
    one validator. *)
Definition chainWellFormed (chaindata : ChainData) : Prop :=
  forall era,
    ce_era (getTotalEraPoints chaindata era) = era
    /\ ce_validators (getTotalEraPoints chaindata era) <> [].

(** The events of one run of `eraPointsJob` over the store [db]. *)
Definition jobTrace (chaindata : ChainData) (db : Db) : list Event :=
  w_trace (snd (eraPointsJob chaindata (mkWorld db []))).

(** The store after one run of `eraPointsJob` over [db]. *)
Definition jobStore (chaindata : ChainData) (db : Db) : Db :=
  w_db (snd (eraPointsJob chaindata (mkWorld db []))).

(** The reading of C6 as it is worded: the loop asks the store about the 84
    eras before the active one, down to era 0 at most. *)
Definition visitsPrior84Eras (chaindata : ChainData) (db : Db) : Prop :=
  let activeEra := getActiveEraIndex chaindata in
  storeReads (jobTrace chaindata db)
  = erasDownTo (activeEra - 1) (Z.max 0 (activeEra - 84)).

(** Events that all carry era [era] and are no `db.getTotalEraPoints`. *)
Definition quiet (era : Z) (evs : list Event) : Prop :=
  Forall (fun e => eventEra e = era) evs /\ storeReads evs = [].

(** What the loop needs of its body. *)
Definition stepSpec (body : Z -> M unit) : Prop :=
  forall j w, 0 <= j ->
    fst (body j w) = Ok tt
    /\ exists evs,
        w_trace (snd (body j w)) = w_trace w ++ DbGetTotalEraPoints j :: evs
        /\ quiet j evs.

(** The store holds, for era [era], a filled TotalEraPoints row and the
    chain's value for each of its validators. *)
Definition eraPopulated (chaindata : ChainData) (db : Db) (era : Z) : bool :=
  match findOne (sameEra era) (totalEraPointsModel db) with
  | Some row =>
      Z.leb 70000 (tep_totalEraPoints row) && truthyQ (tep_median row)
      && forallb
           (fun v =>
              match findOne (sameEraPointsKey (vp_address v) era)
                      (eraPointsModel db) with
              | Some r => Z.eqb (ep_eraPoints r) (vp_eraPoints v)
              | None => false
              end)
           (ce_validators (getTotalEraPoints chaindata era))
  | None => false
  end.

(** The 84-era window that ends at the active era is populated. *)
Definition windowPopulated (chaindata : ChainData) (db : Db) : bool :=
  let activeEra := getActiveEraIndex chaindata in
  forallb (eraPopulated chaindata db)
    (erasDownTo activeEra (Z.max 0 (activeEra - 83))).

(** A chain at active era [activeEra] whose every era has two validators
    and 80000 points in total. *)
Definition sampleChain (activeEra : Z) : ChainData :=
  mkChainData activeEra
    (fun era =>
       mkChainEraPoints era 80000
         [mkValidatorPoints "StashA" 30000; mkValidatorPoints "StashB" 50000]).

(** Statements that leave `running` alone. *)
Definition plainStmt (s : Stmt) : bool :=
  match s with
  | Log | Call _ | Await _ | TryAwait _ => true
  | ReturnIfRunning | SetRunning _ => false
  end.

(** What follows `running = true` in a latched callback: statements that
    leave the flag alone, then `running = false` as the last statement. *)
Fixpoint endsByClearing (k : Callback) : bool :=
  match k with
  | [] => false
  | s :: k' =>
      match s, k' with
      | SetRunning false, [] => true
      | _, _ => plainStmt s && endsByClearing k'
      end
  end.

(** The states a latched job can be in: nothing in flight, or the flag is
    up and exactly one invocation is suspended before its `running = false`. *)
Definition latchInvariant (st : Cron) : Prop :=
  suspended st = []
  \/ (running st = true
      /\ exists k, suspended st = [k] /\ endsByClearing k = true).

(** The jobs that carry the latch, the era points job apart. *)
Definition latchedWithoutCatch : list JobName :=
  [Validity; Score; EraStats; ActiveValidator; Inclusion; SessionKey;
   UnclaimedEras; ValidatorPref; ExtNominations].


(** ** Job bodies and the latch

    The functions of `jobs.ts` that the latched callbacks await, in the
    same statements as the callbacks.  A callback's `await job(...)` is
    settled when the job's function returns, so the latch covers the job's
    work only as far as that function awaits it. *)
Definition jobBody (j : JobName) : Callback :=
  match j with
  | Monitor => [Log; Await "monitor.getLatestTaggedRelease"; Log]
  | Validity => [Log; Await "for (const candidate of allCandidates)"; Log]
  | Score => [Log; Call "constraints.scoreAllCandidates"; Log]
  | EraStats =>
      [Log; Await "chaindata.getCurrentEra"; Await "db.setEraStats"; Log]
  | EraPointsJob =>
      [Log; Await "chaindata.getActiveEraIndex";
       Await "for (let i = activeEra - 1; ...)";
       Await "chaindata.getTotalEraPoints"; Await "db.setTotalEraPoints"; Log]
  | ValidatorPref => [Await "for (const candidate of candidates)"; Log]
  | UnclaimedEras => [Await "for (const candidate of candidates)"; Log]
  | SessionKey =>
      [Await "chaindata.getQueuedKeys";
       Await "for (const candidate of candidates)"; Log]
  | Inclusion =>
      [Await "chaindata.getActiveEraIndex";
       Await "for (const candidate of candidates)"; Log]
  | ActiveValidator =>
      [Await "chaindata.currentValidators";
       Await "for (const candidate of candidates)"; Log]
  | ExtNominations =>
      [Await "chaindata.getCurrentEra"; Await "db.allCandidates";
       Await "for (const candidate of allCandidates)"; Log]
  | ClearOffline | Execution | RewardClaim | Cancel | Stale =>
      []                 (* the body is written in the callback itself *)
  end.

(** The calls a body starts and does not await. *)
Definition detachedCalls (k : Callback) : list string :=
  flat_map (fun s => match s with Call what => [what] | _ => [] end) k.

(** The latch of [j] covers its body: the callback carries the latch and
    the job's function awaits all it starts. *)
Definition latchCoversBody (j : JobName) : bool :=
  hasLatch j
  && match detachedCalls (jobBody j) with [] => true | _ :: _ => false end.

(** The Score job with the scoring it starts.  `scoreJob` calls
    `constraints.scoreAllCandidates()` and drops the promise, so the scoring
    goes on after `scoreJob` has returned; it ends at an event of its own. *)
Inductive ScoreEvent :=
| ScoreCron (ev : CronEvent)    (* a tick, or the callback's await settles *)
| ScoringDone.                  (* one `scoreAllCandidates()` finishes *)

Record ScoreState := mkScoreState {
  sc_job : Cron;
  sc_scorings : nat             (* calls of `scoreAllCandidates` in progress *)
}.

(** A tick that passes the guard runs the callback up to
    `await scoreJob(constraints)`, and with it `scoreJob` to its end. *)
Definition scoreStep (st : ScoreState) (ev : ScoreEvent) : ScoreState :=
  match ev with
  | ScoreCron Tick =>
      mkScoreState (cronStep (cronCallback Score) (sc_job st) Tick)
        (if running (sc_job st) then sc_scorings st
         else (sc_scorings st
               + List.length (detachedCalls (jobBody Score)))%nat)
  | ScoreCron ev' =>
      mkScoreState (cronStep (cronCallback Score) (sc_job st) ev')
        (sc_scorings st)
  | ScoringDone => mkScoreState (sc_job st) (Nat.pred (sc_scorings st))
  end.

Definition scoreAfter (evs : list ScoreEvent) : ScoreState :=
  fold_left scoreStep evs (mkScoreState initialCron 0).

(** ** Predicates of the amended statements *)

(** [c] is the document the store finds under [address]: the first one
    that carries this stash, between the documents [before] and [after]. *)
Definition foundUnder (address : string) (before : list Candidate)
    (c : Candidate) (after : list Candidate) (db : Db) : Prop :=
  candidateModel db = before ++ c :: after
  /\ c_stash c = Some address
  /\ Forall (fun d => c_stash d <> Some address) before.

(** [c] has exactly one IDENTITY entry, and it says `valid = v`. *)
Definition identitySetTo (v : bool) (c : Candidate) : Prop :=
  exists e, ofType "IDENTITY" (c_invalidity c) = [e] /\ inv_valid e = v.

(** The reading of C5 as it is worded, of a store: every candidate under
    [address] satisfies [P]. *)
Definition everyCandidateUnder (address : string) (P : Candidate -> Prop)
    (db : Db) : Prop :=
  forall c, In c (candidateModel db) -> c_stash c = Some address -> P c.

(** The reading of C9 as it is worded, for `pushFaultEvent`: for every
    candidate of the store, the answer is true when the candidate has an
    event with this reason and false when it has none. *)
Definition faultConventionForEvery (db : Db) : Prop :=
  forall c stash reason dateNow,
    In c (candidateModel db) -> c_stash c = Some stash ->
    snd (pushFaultEvent stash reason dateNow db)
    = existsb (fun f => String.eqb (fe_reason f) reason) (c_faultEvents c).

(** DelayedTx rows are unique on (number, controller). *)
Definition delayedKey (d : DelayedTx) : Z * string :=
  (dt_number d, dt_controller d).

Definition delayedKeysUnique (db : Db) : Prop :=
  NoDup (map delayedKey (delayedTxModel db)).

(** [sampleDb] after `addCandidate("bob", "StashA", ...)`: two documents
    under one stash (`addCandidate` looks documents up by name only). *)
Definition twinsDb : Db :=
  mkDb [sampleCandidate;
        mkCandidate "bob" (Some "StashA") (Some "KsmB") (Some false)
          (Some "") None None None None None None None None [] [] []]
    [] [mkChainMetadata "Kusama" 12] [] [].

(** A chain at active era 3 whose era 2 reports no validator. *)
Definition gapChain : ChainData :=
  mkChainData 3
    (fun era =>
       mkChainEraPoints era 80000
         (if Z.eqb era 2 then []
          else [mkValidatorPoints "StashA" 30000;
                mkValidatorPoints "StashB" 50000])).

(** The eras of the backfill window below active era [activeEra]. *)
Definition backfillWindow (activeEra : Z) : list Z :=
  erasDownTo (activeEra - 1) (Z.max 0 (activeEra - 83)).

(** What the loop's reads need of its body: it asks the store about its
    own era first and about no other, whether it returns or throws. *)
Definition stepReads (body : Z -> M unit) : Prop :=
  forall j w,
    exists evs,
      w_trace (snd (body j w)) = w_trace w ++ DbGetTotalEraPoints j :: evs
      /\ storeReads evs = [].
(** ** More of the store: lookups, resets and chain metadata *)

(** `getCandidate(stashOrName)`: by stash first, by name otherwise. *)
Definition getCandidate (stashOrName : string) (db : Db) : option Candidate :=
  match findOne (byStash stashOrName) (candidateModel db) with
  | Some data => Some data
  | None => findOne (byName stashOrName) (candidateModel db)
  end.

(** `getNodeByName(name)` *)
Definition getNodeByName (name : string) (db : Db) : option Candidate :=
  findOne (byName name) (candidateModel db).

(** `clearAccumulated()`: the candidates are read once; each one read with
    `offlineAccumulated > 0` has the document of its name reset. *)
Definition clearAccumulated (db : Db) : Db :=
  let candidates := allCandidates db in
  fold_left
    (fun db candidate =>
       if Z.ltb 0 (orZero (c_offlineAccumulated candidate)) then
         set_candidates
           (findOneAndUpdate (byName (c_name candidate))
              (patch [set_offlineAccumulated (Some 0)]) (candidateModel db))
           db
       else db)
    candidates db.

(** `clearCandidates()`: `stash: null` unsets the stash of the document of
    each name read. *)
Definition clearCandidates (db : Db) : Db :=
  let candidates := allCandidates db in
  fold_left
    (fun db candidate =>
       set_candidates
         (findOneAndUpdate (byName (c_name candidate))
            (patch [set_stash None; set_offlineSince (Some 0);
                    set_offlineAccumulated (Some 0)])
            (candidateModel db))
         db)
    candidates db.

Definition set_chainMetadata (l : list ChainMetadata) (db : Db) : Db :=
  mkDb (candidateModel db) (delayedTxModel db) l (eraPointsModel db)
    (totalEraPointsModel db).

(** `setChainMetadata(networkPrefix, handler)`.  When a record exists the
    code builds a `findOneAndUpdate` query and drops it without running it. *)
Definition setChainMetadata (networkPrefix : Z) (db : Db) : Db :=
  let networkName :=
    if Z.eqb networkPrefix 2 then "Kusama"
    else if Z.eqb networkPrefix 0 then "Polkadot"
    else "Local Testnet" in
  let decimals :=
    if Z.eqb networkPrefix 2 then 12
    else if Z.eqb networkPrefix 0 then 10 else 12 in
  match findOne (fun _ => true) (chainMetadataModel db) with
  | None =>
      set_chainMetadata
        (save (mkChainMetadata networkName decimals) (chainMetadataModel db))
        db
  | Some _ => db
  end.

(** `getEraPoints(era, address)` *)
Definition getEraPoints (era : Z) (address : string) (db : Db)
  : option EraPoints :=
  findOne (sameEraPointsKey address era) (eraPointsModel db).

(** `getSpanEraPoints(address, currentEra)`: `era >= currentEra - 27`. *)
Definition getSpanEraPoints (address : string) (currentEra : Z) (db : Db)
  : list EraPoints :=
  findAll (fun r => String.eqb (ep_address r) address
                    && Z.leb (currentEra - 27) (ep_era r))
    (eraPointsModel db).

(** `getHistoryDepthEraPoints(address, currentEra)`: `era >= currentEra - 83`. *)
Definition getHistoryDepthEraPoints (address : string) (currentEra : Z)
    (db : Db) : list EraPoints :=
  findAll (fun r => String.eqb (ep_address r) address
                    && Z.leb (currentEra - 83) (ep_era r))
    (eraPointsModel db).

(** `getHistoryDepthTotalEraPoints(currentEra)` *)
Definition getHistoryDepthTotalEraPoints (currentEra : Z) (db : Db)
  : list TotalEraPoints :=
  findAll (fun r => Z.leb (currentEra - 83) (tep_era r))
    (totalEraPointsModel db).

(** The rows `inclusionJob` counts for one candidate: those with
    `eraPoints > 0` among the rows of the last 84 eras, and among the rows
    of the last 28.  The job stores the quotients
    `filteredEras.length / 84` and `filteredSpanEras.length / 28`. *)
Definition filteredEras (stash : string) (activeEra : Z) (db : Db)
  : list EraPoints :=
  let erasActive := getHistoryDepthEraPoints stash activeEra db in
  filter (fun era => Z.ltb 0 (ep_eraPoints era)) erasActive.

Definition filteredSpanEras (stash : string) (activeEra : Z) (db : Db)
  : list EraPoints :=
  let spanErasActive := getSpanEraPoints stash activeEra db in
  filter (fun era => Z.ltb 0 (ep_eraPoints era)) spanErasActive.

(** ** Predicates of the further statements *)

(** No two candidate documents share a name. *)
Definition namesUnique (db : Db) : Prop :=
  NoDup (map c_name (candidateModel db)).

(** Each candidate has at most one rank event per start era and at most one
    fault event per reason. *)
Definition eventsUnique (db : Db) : Prop :=
  Forall (fun c => NoDup (map re_startEra (c_rankEvents c))
                   /\ NoDup (map fe_reason (c_faultEvents c)))
    (candidateModel db).

(** EraPoints rows are unique on (era, address), TotalEraPoints rows on era. *)
Definition eraKey (r : EraPoints) : Z * string := (ep_era r, ep_address r).

Definition eraRowsUnique (db : Db) : Prop :=
  NoDup (map eraKey (eraPointsModel db))
  /\ NoDup (map tep_era (totalEraPointsModel db)).

(** What `clearAccumulated` does to one document. *)
Definition clearedAccumulated (c : Candidate) : Candidate :=
  if stashIsString c && Z.ltb 0 (orZero (c_offlineAccumulated c))
  then set_offlineAccumulated (Some 0) c else c.

(** What `clearCandidates` does to one document. *)
Definition clearedCandidate (c : Candidate) : Candidate :=
  if stashIsString c
  then set_offlineAccumulated (Some 0)
         (set_offlineSince (Some 0) (set_stash None c))
  else c.

(** The four writes `setEraPoints` and `setTotalEraPoints` issue. *)
Inductive rowWrite : Db -> Db -> Prop :=
| UpdateEraPoints db address era points :
    rowWrite db
      (set_eraPoints
         (findOneAndUpdate (sameEraPointsKey address era)
            (fun r => mkEraPoints (ep_address r) (ep_era r) points)
            (eraPointsModel db)) db)
| SaveEraPoints db address era points :
    findOne (sameEraPointsKey address era) (eraPointsModel db) = None ->
    rowWrite db
      (set_eraPoints
         (save (mkEraPoints address era points) (eraPointsModel db)) db)
| SaveTotalEraPoints db row :
    findOne (sameEra (tep_era row)) (totalEraPointsModel db) = None ->
    rowWrite db
      (set_totalEraPoints (save row (totalEraPointsModel db)) db)
| UpdateTotalEraPoints db era total validators median average max min :
    rowWrite db
      (set_totalEraPoints
         (findOneAndUpdate (sameEra era)
            (fun r => mkTotalEraPoints (tep_era r) total validators median
                        average max min)
            (totalEraPointsModel db)) db).

(** A sequence of such writes. *)
Inductive rowWrites : Db -> Db -> Prop :=
| NoWrite db : rowWrites db db
| ThenWrite db1 db2 db3 :
    rowWrites db1 db2 -> rowWrite db2 db3 -> rowWrites db1 db3.

(** The store has a TotalEraPoints row for era [era]. *)
Definition hasTotal (era : Z) (db : Db) : Prop :=
  findOne (sameEra era) (totalEraPointsModel db) <> None.

(** The store has an EraPoints row for ([era], [address]). *)
Definition hasPoints (era : Z) (address : string) (db : Db) : Prop :=
  findOne (sameEraPointsKey address era) (eraPointsModel db) <> None.

(** The TotalEraPoints row `setTotalEraPoints(era, total, validators)`
    writes. *)
Definition totalRow (era total : Z) (validators : list ValidatorPoints)
  : TotalEraPoints :=
  let points := map vp_eraPoints validators in
  mkTotalEraPoints era total validators (getMedian points)
    (getAverage points) (mathMax points) (mathMin points).

(** ** The cron wrappers: runs and failures *)

(** The number of suspension points of a callback. *)
Definition awaitCount (cb : Callback) : nat :=
  List.length
    (filter (fun s => match s with
                      | Await _ | TryAwait _ => true
                      | _ => false
                      end) cb).

(** One run of job [j] in which every awaited promise is fulfilled. *)
Definition successfulRun (j : JobName) : list CronEvent :=
  Tick :: repeat (Settle 0 Fulfilled) (awaitCount (cronCallback j)).

(** A callback tail with no `try`. *)
Definition noTry (k : Callback) : bool :=
  forallb (fun s => match s with TryAwait _ => false | _ => true end) k.

(** The latch is up and nothing is in flight: every tick is dropped. *)
Definition deadCron : Cron := mkCron true [] 1.

(** The states of a latched job that has not failed. *)
Definition neverFailed (st : Cron) : Prop :=
  rejections st = 0%nat
  /\ (suspended st = []
      \/ (running st = true
          /\ exists k, suspended st = [k] /\ endsByClearing k = true
                       /\ noTry k = true)).

(** The era points job while its body runs. *)
Definition eraPointsBusy : Cron :=
  mkCron true [[TryAwait "eraPointsJob"; SetRunning false]] 0.

(** ** The action jobs (`startExecutionJob`, `startCancelCron`,
       `startStaleNominationCron`)

    These callbacks act on the outside world through the nominator
    accounts.  The execution and the cancel callback are recorded by the
    calls they make on the accounts, in program order, beside the store;
    the stale callback, which only reports, by every line it logs and
    every message it sends to the bot. *)

(** A nominator account, as far as the action jobs read it. *)
Record Nominator := mkNominator {
  nom_address : string;
  nom_controller : string;
  nom_isProxy : bool
}.

(** A proxy announcement. *)
Record Announcement := mkAnnouncement {
  an_real : string;
  an_callHash : string;
  an_height : Z
}.

(** `api.query.staking.nominators(stash).toJSON()` *)
Record Nominations := mkNominations {
  nm_submittedIn : Z;
  nm_targets : list string
}.

Inductive Action :=
| SendStakingTx (nominator : string) (row : DelayedTx)
| CancelTx (nominator : string) (announcement : Announcement)
| LogInfo (message : string)            (* `logger.info(message)` *)
| BotSendMessage (message : string).    (* `bot.sendMessage(message)` *)

Record ActionWorld := mkActionWorld {
  a_db : Db;
  a_log : list Action
}.

Definition act (a : Action) (aw : ActionWorld) : ActionWorld :=
  mkActionWorld (a_db aw) (a_log aw ++ [a]).

Section Actions.

(** `nominator.sendStakingTx(tx, targets)`: whether the transaction went
    through. *)
Variable sendStakingTx : Nominator -> DelayedTx -> bool.

(** `chaindata.getProxyAnnouncements(address)` *)
Variable getProxyAnnouncements : string -> list Announcement.

(** `nom.stash()`; [None] for a missing stash. *)
Variable stashOf : Nominator -> option string.

(** `api.query.staking.nominators(stash).toJSON()`; [None] for `null`. *)
Variable nominatorsOf : string -> option Nominations.

(** Number to text, as in the store. *)
Variable numberToString : Q -> string.

(** `dataNum + Number(timeDelayBlocks) <= number.toNumber()` *)
Definition shouldExecute (timeDelayBlocks number : Z) (data : DelayedTx)
  : bool :=
  Z.leb (dt_number data + timeDelayBlocks) number.

(** `nominatorGroups.find((g) => !!g.find((nom) => nom.controller == c))` *)
Definition findGroup (nominatorGroups : list (list Nominator))
    (controller : string) : option (list Nominator) :=
  List.find
    (fun nomGroup =>
       match List.find (fun nom => String.eqb (nom_controller nom) controller)
               nomGroup with
       | Some _ => true
       | None => false
       end)
    nominatorGroups.

(** The loop of the execution callback over the rows read at its start.
    A missing nominator group, or a target that `getCandidate` does not
    find while the message is built, ends the callback with a TypeError. *)
Fixpoint executeDelayed (timeDelayBlocks number : Z)
    (nominatorGroups : list (list Nominator)) (allDelayed : list DelayedTx)
    (aw : ActionWorld) : Res unit * ActionWorld :=
  match allDelayed with
  | [] => (Ok tt, aw)
  | data :: rest =>
      if shouldExecute timeDelayBlocks number data then
        match findGroup nominatorGroups (dt_controller data) with
        | None => (Throw "TypeError: nomGroup is undefined", aw)
        | Some nomGroup =>
            match List.find
                    (fun nom =>
                       String.eqb (nom_controller nom) (dt_controller data))
                    nomGroup with
            | None => (Throw "TypeError: nominator is undefined", aw)
            | Some nominator =>
                let aw1 := act (SendStakingTx (nom_address nominator) data) aw in
                if sendStakingTx nominator data then
                  if forallb
                       (fun n => match getCandidate n (a_db aw1) with
                                 | Some _ => true
                                 | None => false
                                 end)
                       (dt_targets data)
                  then
                    executeDelayed timeDelayBlocks number nominatorGroups rest
                      (mkActionWorld
                         (deleteDelayedTx (dt_number data)
                            (dt_controller data) (a_db aw1))
                         (a_log aw1))
                  else (Throw "TypeError: name is null", aw1)
                else
                  executeDelayed timeDelayBlocks number nominatorGroups rest
                    aw1
            end
        end
      else executeDelayed timeDelayBlocks number nominatorGroups rest aw
  end.

(** The callback of `startExecutionJob` at chain head [number]. *)
Definition executionJob (timeDelayBlocks number : Z)
    (nominatorGroups : list (list Nominator)) (aw : ActionWorld)
  : Res unit * ActionWorld :=
  executeDelayed timeDelayBlocks number nominatorGroups
    (getAllDelayedTxs (a_db aw)) aw.

(** `latestBlock - 2 * config.proxy.timeDelayBlocks`: the cancel callback
    reads the option without a default, and arithmetic on `undefined` gives
    NaN, here [None]. *)
Definition cancelThreshold (latestBlock : Z) (timeDelayBlocks : option Z)
  : option Z :=
  match timeDelayBlocks with
  | Some d => Some (latestBlock - 2 * d)
  | None => None
  end.

(** `announcement.height < threshold`; a comparison with NaN is false. *)
Definition olderThan (threshold : option Z) (a : Announcement) : bool :=
  match threshold with
  | Some t => Z.ltb (an_height a) t
  | None => false
  end.

(** The loop over one nominator's announcements; `nom.cancelTx` is called
    on each one older than the threshold (its answer only decides what is
    logged). *)
Definition cancelAnnouncements (threshold : option Z) (nom : Nominator)
    (announcements : list Announcement) (aw : ActionWorld) : ActionWorld :=
  fold_left
    (fun aw announcement =>
       if olderThan threshold announcement
       then act (CancelTx (nom_address nom) announcement) aw
       else aw)
    announcements aw.

(** The callback of `startCancelCron`. *)
Definition cancelJob (latestBlock : Z) (timeDelayBlocks : option Z)
    (nominatorGroups : list (list Nominator)) (aw : ActionWorld)
  : ActionWorld :=
  let threshold := cancelThreshold latestBlock timeDelayBlocks in
  fold_left
    (fun aw nomGroup =>
       fold_left
         (fun aw nom =>
            if nom_isProxy nom then
              cancelAnnouncements threshold nom
                (getProxyAnnouncements (nom_address nom)) aw
            else aw)
         nomGroup aw)
    nominatorGroups aw.

(** An array is truthy, also when it is empty. *)
Definition truthyArray {A} (l : list A) : bool := true.

Definition notCandidateMessage (stash target : string) : string :=
  "Nominator " ++ stash ++ " is nominating " ++ target
    ++ ", which is not a 1kv candidate".

Definition staleMessage (stash : string) (submittedIn currentEra : Z)
  : string :=
  "Nominator " ++ stash
    ++ " has a stale nomination. Last nomination was in era "
    ++ numberToString (inject_Z submittedIn) ++ " (it is now era "
    ++ numberToString (inject_Z currentEra) ++ ")".

(** `logger.info(message); if (bot) { bot.sendMessage(message); }` *)
Definition report (bot : bool) (message : string) (aw : ActionWorld)
  : ActionWorld :=
  let aw1 := act (LogInfo message) aw in
  if bot then act (BotSendMessage message) aw1 else aw1.

(** What the stale callback does for one nominator account. *)
Definition staleCheck (bot : bool) (threshold currentEra : Z)
    (allCandidates : list Candidate) (nom : Nominator) (aw : ActionWorld)
  : ActionWorld :=
  match stashOf nom with
  | None => aw
  | Some stash =>
      if String.eqb stash "" || String.eqb stash "0x" then aw
      else
        match nominatorsOf stash with
        | None => aw
        | Some nominators =>
            let submittedIn := nm_submittedIn nominators in
            let targets := nm_targets nominators in
            let aw1 :=
              fold_left
                (fun aw target =>
                   let isCandidate :=
                     filter (fun candidate => byStash target candidate)
                       allCandidates in
                   if negb (truthyArray isCandidate)
                   then report bot (notCandidateMessage stash target) aw
                   else aw)
                targets aw in
            if Z.ltb submittedIn (currentEra - threshold)
            then report bot (staleMessage stash submittedIn currentEra) aw1
            else aw1
        end
  end.

(** The callback of `startStaleNominationCron`, with [bot] telling whether
    a bot was handed to it; the threshold is 8 eras on Kusama (network
    prefix 2) and 2 eras elsewhere. *)
Definition staleJob (bot : bool) (networkPrefix currentEra : Z)
    (nominatorGroups : list (list Nominator)) (aw : ActionWorld)
  : ActionWorld :=
  let threshold := if Z.eqb networkPrefix 2 then 8 else 2 in
  let aw0 := act (LogInfo "{cron::stale} running stale cron....") aw in
  let allCandidates := allCandidates (a_db aw0) in
  fold_left
    (fun aw nomGroup =>
       fold_left (fun aw nom => staleCheck bot threshold currentEra
                                  allCandidates nom aw)
         nomGroup aw)
    nominatorGroups aw0.

End Actions.

(** The nominators a stale run reports: those with a stash and nominations
    submitted before `currentEra - threshold`. *)
Definition staleNominators (stashOf : Nominator -> option string)
    (nominatorsOf : string -> option Nominations) (threshold currentEra : Z)
    (noms : list Nominator) : list (string * Z) :=
  flat_map
    (fun nom =>
       match stashOf nom with
       | None => []
       | Some stash =>
           if String.eqb stash "" || String.eqb stash "0x" then []
           else
             match nominatorsOf stash with
             | None => []
             | Some n =>
                 if Z.ltb (nm_submittedIn n) (currentEra - threshold)
                 then [(stash, nm_submittedIn n)] else []
             end
       end)
    noms.

(** The announcements a cancel run asks to cancel, with their owner. *)
Definition cancelCalls (log : list Action) : list (string * Announcement) :=
  flat_map (fun a => match a with
                     | CancelTx nominator announcement =>
                         [(nominator, announcement)]
                     | _ => []
                     end) log.

(** The rows an execution run sent a transaction for. *)
Definition sentRows (log : list Action) : list DelayedTx :=
  flat_map (fun a => match a with
                     | SendStakingTx _ row => [row]
                     | _ => []
                     end) log.

(** Spec scenario 3: one delayed transaction announced at block 100. *)
Definition sampleDelayedDb : Db :=
  mkDb [mkCandidate "tee" (Some "T") None None None None None None None None
          None None None [] [] []]
    [mkDelayedTx 100 "C" ["T"] "H"] [] [] [].

Definition sampleNominators : list (list Nominator) :=
  [[mkNominator "N1" "C" true]].


(** ** The nominator, accounting, era statistics and release collections

    These collections of class `Db` are independent of the ones above; each
    method below reads and writes its own collection only, so it is a
    function on that collection. *)

(** An entry of a nominator document's `current` array. *)
Record CurrentTarget := mkCurrentTarget {
  ct_name : string;
  ct_stash : option string
}.

Record NominatorDoc := mkNominatorDoc {
  nd_address : string;
  nd_stash : string;
  nd_proxy : string;
  nd_bonded : Z;
  nd_current : list CurrentTarget;
  nd_lastNomination : Z;
  nd_createdAt : Z
}.

Definition byAddress (address : string) (n : NominatorDoc) : bool :=
  String.eqb (nd_address n) address.

(** `{ address: /.*/ }`: every document whose address is a string. *)
Definition allNominators (nominatorModel : list NominatorDoc)
  : list NominatorDoc :=
  findAll (fun _ => true) nominatorModel.

(** `controllers.indexOf(address) === -1` *)
Definition notIn (address : string) (controllers : list string) : bool :=
  negb (existsb (String.eqb address) controllers).

Definition removeStaleNominators (controllers : list string)
    (nominatorModel : list NominatorDoc) : list NominatorDoc :=
  let nominators := allNominators nominatorModel in
  let addresses := map nd_address nominators in
  fold_left
    (fun model address =>
       if notIn address controllers
       then deleteOne (byAddress address) model
       else model)
    addresses nominatorModel.

Definition addNominator (address stash proxy : string) (bonded now : Z)
    (nominatorModel : list NominatorDoc) : list NominatorDoc :=
  match findOne (byAddress address) nominatorModel with
  | None =>
      save (mkNominatorDoc address stash proxy bonded [] 0 now) nominatorModel
  | Some _ =>
      findOneAndUpdate (byAddress address)
        (fun n =>
           mkNominatorDoc (nd_address n) stash proxy bonded (nd_current n)
             (nd_lastNomination n) now)
        nominatorModel
  end.

Record AccountingDoc := mkAccountingDoc {
  ac_stash : string;
  ac_controller : string;
  ac_total : string;
  ac_records : list (string * string)
}.

Definition byStashController (stash controller : string) (a : AccountingDoc)
  : bool :=
  String.eqb (ac_stash a) stash && String.eqb (ac_controller a) controller.

Definition newAccountingRecord (stash controller : string)
    (accountingModel : list AccountingDoc) : list AccountingDoc :=
  match findOne (byStashController stash controller) accountingModel with
  | None => save (mkAccountingDoc stash controller "0" []) accountingModel
  | Some _ => accountingModel
  end.

(** The answer is `false` when there is no record. *)
Definition updateAccountingRecord (controller stash era reward : string)
    (accountingModel : list AccountingDoc) : bool * list AccountingDoc :=
  match findOne (byStashController stash controller) accountingModel with
  | None => (false, accountingModel)
  | Some _ =>
      (true,
       findOneAndUpdate (byStashController stash controller)
         (fun a =>
            mkAccountingDoc (ac_stash a) (ac_controller a) (ac_total a)
              (ac_records a ++ [(era, reward)]))
         accountingModel)
  end.

Record EraStatsDoc := mkEraStatsDoc {
  es_era : Z;
  es_when : Z;
  es_totalNodes : Z;
  es_valid : Z;
  es_active : Z
}.

Definition byEra (era : Z) (s : EraStatsDoc) : bool := Z.eqb (es_era s) era.

(** The update `setEraStats` issues for an era whose document holds other
    numbers: `findOneAndUpdate({ era }, { when, totalNodes, valid, active })
    .exec()`, which the method neither awaits nor returns. *)
Record EraStatsUpdate := mkEraStatsUpdate {
  eu_era : Z;
  eu_when : Z;
  eu_totalNodes : Z;
  eu_valid : Z;
  eu_active : Z
}.

(** What such an update does to the collection it is applied to. *)
Definition landEraStats (u : EraStatsUpdate)
    (eraStatsModel : list EraStatsDoc) : list EraStatsDoc :=
  findOneAndUpdate (byEra (eu_era u))
    (fun s =>
       mkEraStatsDoc (es_era s) (eu_when u) (eu_totalNodes u) (eu_valid u)
         (eu_active u))
    eraStatsModel.

(** `setEraStats` up to the moment its promise resolves: the collection
    then, and the update it has issued without awaiting it, if any.  [now]
    is what `Date.now()` answers. *)
Definition setEraStats (era totalNodes valid active now : Z)
    (eraStatsModel : list EraStatsDoc)
  : list EraStatsDoc * option EraStatsUpdate :=
  match findOne (byEra era) eraStatsModel with
  | Some data =>
      if Z.eqb (es_totalNodes data) totalNodes
         && Z.eqb (es_valid data) valid
         && Z.eqb (es_active data) active
      then (eraStatsModel, None)
      else
        (eraStatsModel,
         Some (mkEraStatsUpdate era now totalNodes valid active))
  | None =>
      (save (mkEraStatsDoc era now totalNodes valid active) eraStatsModel,
       None)
  end.

(** The document of [data] holds the numbers of a call. *)
Definition holdsStats (totalNodes valid active : Z) (data : EraStatsDoc)
  : Prop :=
  es_totalNodes data = totalNodes /\ es_valid data = valid
  /\ es_active data = active.

(** `.sort("-field")`: descending by [key]; documents with equal keys keep
    their order. *)
Fixpoint insertDesc {A} (key : A -> Z) (d : A) (l : list A) : list A :=
  match l with
  | [] => [d]
  | x :: rest =>
      if Z.leb (key x) (key d) then d :: x :: rest
      else x :: insertDesc key d rest
  end.

Definition sortDesc {A} (key : A -> Z) (l : list A) : list A :=
  fold_right (insertDesc key) [] l.

(** `.limit(n)` *)
Definition limit {A} (n : nat) (l : list A) : list A := firstn n l.

Record ReleaseDoc := mkReleaseDoc {
  rl_name : string;
  rl_publishedAt : Z
}.

Definition releaseNamed (name : string) (r : ReleaseDoc) : bool :=
  String.eqb (rl_name r) name.

(** `setRelease` answers the document it found or saved. *)
Definition setRelease (name : string) (publishedAt : Z)
    (releaseModel : list ReleaseDoc) : ReleaseDoc * list ReleaseDoc :=
  match findOne (releaseNamed name) releaseModel with
  | None =>
      let data := mkReleaseDoc name publishedAt in
      (data, save data releaseModel)
  | Some data => (data, releaseModel)
  end.

(** `(await find({}).sort("-publishedAt").limit(1))[0]`; [None] is
    `undefined`. *)
Definition getLatestRelease (releaseModel : list ReleaseDoc)
  : option ReleaseDoc :=
  hd_error
    (limit 1 (sortDesc rl_publishedAt (findAll (fun _ => true) releaseModel))).

Definition sampleNominatorDocs : list NominatorDoc :=
  [mkNominatorDoc "A1" "S1" "P1" 10 [mkCurrentTarget "tee" (Some "T")] 7 1;
   mkNominatorDoc "A2" "S2" "P2" 20 [] 0 2].

(** A nominator whose nomination of era 3 is stale at era 20. *)
Definition sampleStash (nom : Nominator) : option string :=
  Some ("stash of " ++ nom_address nom)%string.

Definition sampleNominations (stash : string) : option Nominations :=
  Some (mkNominations 3 ["T"]).

Definition sampleEraStats : list EraStatsDoc := [mkEraStatsDoc 7 100 50 20 10].
(** *** Helper lemmas: collections *)

Section CollectionFacts.
Context {A : Type}.
Implicit Types (q : A -> bool) (u : A -> A) (coll : list A).

Lemma findOne_In q coll d : findOne q coll = Some d -> In d coll.
Proof. intros H. apply find_some in H. tauto. Qed.

Lemma findOne_holds q coll d : findOne q coll = Some d -> q d = true.
Proof. intros H. apply find_some in H. tauto. Qed.

Lemma findOne_Forall (P : A -> Prop) q coll d :
  Forall P coll -> findOne q coll = Some d -> P d.
Proof.
  intros Hall Hf. rewrite Forall_forall in Hall. apply Hall.
  eapply findOne_In, Hf.
Qed.

Lemma findOneAndUpdate_Forall (P : A -> Prop) q u coll :
  Forall P coll -> (forall d, P d -> P (u d)) ->
  Forall P (findOneAndUpdate q u coll).
Proof.
  intros Hall Hu. induction Hall as [|d rest Hd Hrest IH]; simpl.
  - constructor.
  - destruct (q d); constructor; auto.
Qed.

Lemma save_Forall (P : A -> Prop) d coll :
  Forall P coll -> P d -> Forall P (save d coll).
Proof.
  intros Hall Hd. unfold save. apply Forall_app. split; auto.
Qed.

Lemma findOne_after_update q u coll d :
  findOne q coll = Some d -> q (u d) = true ->
  findOne q (findOneAndUpdate q u coll) = Some (u d).
Proof.
  unfold findOne. induction coll as [|x rest IH]; simpl; [discriminate|].
  destruct (q x) eqn:Hx.
  - intros [= ->] Hq. simpl. now rewrite Hq.
  - intros Hf Hq. simpl. rewrite Hx. auto.
Qed.

Lemma findOneAndUpdate_none q u coll :
  findOne q coll = None -> findOneAndUpdate q u coll = coll.
Proof.
  unfold findOne. induction coll as [|x rest IH]; simpl; [reflexivity|].
  destruct (q x); [discriminate|]. intros H. now rewrite IH.
Qed.

Lemma findOne_save_miss q d coll :
  findOne q coll = None -> findOne q (save d coll) = findOne q [d].
Proof.
  unfold findOne, save. induction coll as [|x rest IH]; simpl; auto.
  destruct (q x); [discriminate | auto].
Qed.

Lemma filter_update_outside (p : A -> bool) q u coll :
  (forall d, p (u d) = p d) ->
  map p (findOneAndUpdate q u coll) = map p coll.
Proof.
  intros Hp. induction coll as [|x rest IH]; simpl; [reflexivity|].
  destruct (q x); simpl; [now rewrite Hp | now rewrite IH].
Qed.
End CollectionFacts.

(** *** Helper lemmas: invalidity lists *)

Lemma ofType_app t l1 l2 : ofType t (l1 ++ l2) = ofType t l1 ++ ofType t l2.
Proof. apply filter_app. Qed.

Lemma ofType_otherThan_same ty l : ofType ty (otherThan ty l) = [].
Proof.
  induction l as [|r l IH]; simpl; [reflexivity|].
  destruct (String.eqb (inv_type r) ty) eqn:E; simpl; [exact IH|].
  now rewrite E.
Qed.

Lemma ofType_otherThan_diff t ty l :
  t <> ty -> ofType t (otherThan ty l) = ofType t l.
Proof.
  intros Hne. induction l as [|r l IH]; simpl; [reflexivity|].
  destruct (String.eqb (inv_type r) ty) eqn:E; simpl.
  - apply String.eqb_eq in E.
    destruct (String.eqb (inv_type r) t) eqn:E'; [|exact IH].
    apply String.eqb_eq in E'. congruence.
  - now rewrite IH.
Qed.

Lemma otherThan_app ty l1 l2 :
  otherThan ty (l1 ++ l2) = otherThan ty l1 ++ otherThan ty l2.
Proof. apply filter_app. Qed.

Lemma otherThan_idem ty l : otherThan ty (otherThan ty l) = otherThan ty l.
Proof.
  induction l as [|r l IH]; simpl; [reflexivity|].
  destruct (String.eqb (inv_type r) ty) eqn:E; simpl; [exact IH|].
  now rewrite E, IH.
Qed.

(** Dropping the entries of a type and appending one entry of that type
    keeps every type at most once (and leaves that type exactly once). *)
Lemma replace_atMostOne ty v now details l :
  atMostOnePerType l ->
  atMostOnePerType (otherThan ty l ++ [mkInvalidity v ty now details]).
Proof.
  intros Hl t Ht. rewrite ofType_app.
  destruct (String.eqb ty t) eqn:E.
  - apply String.eqb_eq in E. subst t.
    rewrite ofType_otherThan_same. simpl. rewrite String.eqb_refl. simpl. lia.
  - assert (t <> ty) as Hne
        by (intros ->; rewrite String.eqb_refl in E; discriminate).
    rewrite ofType_otherThan_diff by exact Hne.
    simpl. rewrite E. rewrite app_nil_r. auto.
Qed.

Lemma atMostOne_nil : atMostOnePerType [].
Proof. intros t _. simpl. lia. Qed.

Lemma scanFor_existsb {A} (hit : A -> bool) events :
  scanFor hit events = existsb hit events.
Proof.
  unfold scanFor.
  assert (forall b, fold_left (fun already e => if hit e then true else already)
                      events b = (b || existsb hit events)%bool) as H.
  { induction events as [|e es IH]; intros b; simpl.
    - now rewrite orb_false_r.
    - rewrite IH. destruct (hit e), b; reflexivity. }
  now rewrite H.
Qed.

Lemma atMostOne_checked l :
  forallb (fun t => Nat.leb (List.length (ofType t l)) 1) invalidityTypes
    = true ->
  atMostOnePerType l.
Proof.
  intros H t Ht. rewrite forallb_forall in H.
  apply Nat.leb_le. now apply H.
Qed.

Lemma sampleDb_invariant : invalidityInvariant sampleDb.
Proof.
  constructor; [|constructor]. apply atMostOne_checked. reflexivity.
Defined.

(** *** Invalidity writes *)

Lemma writeInvalidity_invariant ty failure address validity dateNow db :
  invalidityInvariant db ->
  invalidityInvariant (writeInvalidity ty failure address validity dateNow db).
Proof.
  unfold invalidityInvariant, writeInvalidity. intros Hall.
  destruct (findOne (byStash address) (candidateModel db)) as [data|] eqn:Hf;
    [|exact Hall].
  cbn. apply findOneAndUpdate_Forall; [exact Hall|].
  intros d _. cbn. apply replace_atMostOne.
  exact (findOne_Forall _ _ _ _ Hall Hf).
Qed.

(** The setters read the list and write it back in two steps.  A write
    built from any list that satisfied the invariant keeps the invariant
    of whatever store it lands on. *)
Lemma late_invalidity_write_invariant ty v dateNow details snapshot
    (q : Candidate -> bool) db :
  atMostOnePerType snapshot ->
  invalidityInvariant db ->
  invalidityInvariant
    (set_candidates
       (findOneAndUpdate q
          (set_invalidity
             (otherThan ty snapshot ++ [mkInvalidity v ty dateNow details]))
          (candidateModel db)) db).
Proof.
  unfold invalidityInvariant. intros Hsnap Hall. cbn.
  apply findOneAndUpdate_Forall; [exact Hall|].
  intros d _. cbn. now apply replace_atMostOne.
Qed.

Lemma reportOnline_invariant telemetryId name version now t1 t2 db :
  invalidityInvariant db ->
  invalidityInvariant (reportOnline telemetryId name version now t1 t2 db).
Proof.
  unfold invalidityInvariant, reportOnline. intros Hall.
  destruct (findOne (byName name) (candidateModel db)) as [data|] eqn:Hf.
  - pose proof (findOne_Forall _ _ _ _ Hall Hf) as Hdata. cbn in Hdata.
    cbn.
    repeat match goal with
           | |- Forall _ (if ?b then _ else _) => destruct b
           | |- Forall _ (findOneAndUpdate _ _ _) =>
               apply findOneAndUpdate_Forall;
               [|intros d Hd; cbn; first [exact Hd | now apply replace_atMostOne]]
           end; exact Hall.
  - cbn. apply save_Forall; [exact Hall|]. cbn. apply atMostOne_nil.
Qed.

Lemma reportOffline_invariant numberToString telemetryId name now dateNow db :
  invalidityInvariant db ->
  invalidityInvariant
    (reportOffline numberToString telemetryId name now dateNow db).
Proof.
  unfold invalidityInvariant, reportOffline. intros Hall.
  destruct (findOne (byTelemetryId telemetryId) (candidateModel db))
    as [data|] eqn:Hf; [|exact Hall].
  pose proof (findOne_Forall _ _ _ _ Hall Hf) as Hdata. cbn in Hdata.
  destruct (Z.ltb 1 (orZero (c_nodeRefs data))); cbn;
    (apply findOneAndUpdate_Forall; [exact Hall|]);
    intros d _; cbn; now apply replace_atMostOne.
Qed.

Lemma reportBestBlock_invariant bareIdFilter telemetryId now dateNow db :
  invalidityInvariant db ->
  invalidityInvariant
    (fst (reportBestBlock bareIdFilter telemetryId now dateNow db)).
Proof.
  unfold invalidityInvariant, reportBestBlock. intros Hall.
  destruct (findOne (byTelemetryId telemetryId) (candidateModel db))
    as [data|] eqn:Hf; [|exact Hall].
  pose proof (findOne_Forall _ _ _ _ Hall Hf) as Hdata. cbn in Hdata.
  destruct (truthyNum (c_offlineSince data)); [|exact Hall].
  cbn. apply findOneAndUpdate_Forall; [exact Hall|].
  intros d _. cbn. now apply replace_atMostOne.
Qed.

(** C2.  Every store method that rewrites `invalidity` (the twelve
    type-specific setters, `reportOnline`, `reportOffline` and
    `reportBestBlock`) keeps the invariant of the candidate collection: each
    candidate's list holds at most one entry of each type of the closed
    set.  For `reportBestBlock` this holds whichever document the bare
    `telemetryId` filter selects. *)
Theorem invalidity_at_most_one_per_type_preserved :
  forall (numberToString : Q -> string)
         (bareIdFilter : Z -> Candidate -> bool) (db : Db),
    invalidityInvariant db ->
    (forall address validity details dateNow,
        invalidityInvariant
          (setOnlineValidity numberToString address validity dateNow db)
        /\ invalidityInvariant
             (setValidateIntentionValidity address validity dateNow db)
        /\ invalidityInvariant
             (setLatestClientReleaseValidity address validity dateNow db)
        /\ invalidityInvariant
             (setConnectionTimeInvalidity address validity dateNow db)
        /\ invalidityInvariant
             (setIdentityInvalidity address validity details dateNow db)
        /\ invalidityInvariant
             (setOfflineAccumulatedInvalidity numberToString address validity
                dateNow db)
        /\ invalidityInvariant
             (setRewardDestinationInvalidity address validity dateNow db)
        /\ invalidityInvariant
             (setCommissionInvalidity address validity details dateNow db)
        /\ invalidityInvariant
             (setSelfStakeInvalidity address validity details dateNow db)
        /\ invalidityInvariant
             (setUnclaimedInvalidity address validity details dateNow db)
        /\ invalidityInvariant
             (setBlockedInvalidity address validity details dateNow db)
        /\ invalidityInvariant
             (setKusamaRankInvalidity address validity details dateNow db))
    /\ (forall telemetryId name version now dateNow1 dateNow2,
           invalidityInvariant
             (reportOnline telemetryId name version now dateNow1 dateNow2 db))
    /\ (forall telemetryId name now dateNow,
           invalidityInvariant
             (reportOffline numberToString telemetryId name now dateNow db))
    /\ (forall telemetryId now dateNow,
           invalidityInvariant
             (fst (reportBestBlock bareIdFilter telemetryId now dateNow db))).
Proof.
  intros numberToString bareIdFilter db Hinv.
  split; [|split; [|split]].
  - intros address validity details dateNow.
    repeat split; apply writeInvalidity_invariant; exact Hinv.
  - intros. now apply reportOnline_invariant.
  - intros. now apply reportOffline_invariant.
  - intros. now apply reportBestBlock_invariant.
Qed.

(** The sample store satisfies the invariant, and keeps it under an
    identity write and an offline report. *)
Lemma invalidity_at_most_one_per_type_witness :
  invalidityInvariant sampleDb
  /\ invalidityInvariant (setIdentityInvalidity "StashA" true None 2000 sampleDb)
  /\ invalidityInvariant
       (reportOffline sampleNumberToString 7 "alice" 3000 3001 sampleDb).
Proof.
  pose proof (invalidity_at_most_one_per_type_preserved sampleNumberToString
                (fun _ _ => true) sampleDb sampleDb_invariant)
    as [Hset [_ [Hoff _]]].
  split; [exact sampleDb_invariant|]. split.
  - exact (proj1 (proj2 (proj2 (proj2 (proj2
             (Hset "StashA" true None 2000)))))).
  - exact (Hoff 7 "alice" 3000 3001).
Defined.

(** *** The document a lookup by stash finds *)

Lemma byStash_hit address c : c_stash c = Some address -> byStash address c = true.
Proof. unfold byStash. intros ->. apply String.eqb_refl. Qed.

Lemma byStash_miss address d :
  c_stash d <> Some address -> byStash address d = false.
Proof.
  unfold byStash. destruct (c_stash d) as [s|]; [|reflexivity].
  intros Hne. apply String.eqb_neq. congruence.
Qed.

Lemma findOne_first {A} (q : A -> bool) before c after :
  Forall (fun d => q d = false) before -> q c = true ->
  findOne q (before ++ c :: after) = Some c.
Proof.
  intros Hb Hc. unfold findOne.
  induction Hb as [|d before Hd _ IH]; cbn; [now rewrite Hc|].
  now rewrite Hd.
Qed.

Lemma findOneAndUpdate_first {A} (q : A -> bool) u before c after :
  Forall (fun d => q d = false) before -> q c = true ->
  findOneAndUpdate q u (before ++ c :: after) = before ++ u c :: after.
Proof.
  intros Hb Hc.
  induction Hb as [|d before Hd _ IH]; cbn; [now rewrite Hc|].
  now rewrite Hd, IH.
Qed.

Lemma findOne_absent {A} (q : A -> bool) coll :
  Forall (fun d => q d = false) coll -> findOne q coll = None.
Proof.
  intros H. unfold findOne.
  induction H as [|d coll Hd _ IH]; cbn; [reflexivity|]. now rewrite Hd.
Qed.

Lemma foundUnder_findOne address before c after db :
  foundUnder address before c after db ->
  findOne (byStash address) (candidateModel db) = Some c.
Proof.
  intros [-> [Hc Hb]]. apply findOne_first; [|now apply byStash_hit].
  eapply Forall_impl; [|exact Hb]. intros d. apply byStash_miss.
Qed.

Lemma foundUnder_update address u before c after db :
  foundUnder address before c after db ->
  findOneAndUpdate (byStash address) u (candidateModel db)
  = before ++ u c :: after.
Proof.
  intros [-> [Hc Hb]]. apply findOneAndUpdate_first; [|now apply byStash_hit].
  eapply Forall_impl; [|exact Hb]. intros d. apply byStash_miss.
Qed.

Lemma absent_findOne address db :
  Forall (fun d => c_stash d <> Some address) (candidateModel db) ->
  findOne (byStash address) (candidateModel db) = None.
Proof.
  intros H. apply findOne_absent.
  eapply Forall_impl; [|exact H]. intros d. apply byStash_miss.
Qed.

(** A setter of the atomic reading above is its call followed at once by
    the landing of the update it issued. *)
Lemma writeInvalidity_is_call_then_land ty failure address validity dateNow db :
  writeInvalidity ty failure address validity dateNow db
  = match snd (callInvalidity ty failure address validity dateNow db) with
    | Some u => landInvalidity u db
    | None => db
    end.
Proof.
  unfold writeInvalidity, callInvalidity, landInvalidity.
  now destruct (findOne (byStash address) (candidateModel db)).
Qed.

Lemma ofType_other_type t ty l :
  t <> ty -> ofType t (otherThan ty l) = ofType t l.
Proof.
  intros Hne. unfold ofType, otherThan.
  induction l as [|x l IH]; cbn; [reflexivity|].
  destruct (String.eqb (inv_type x) ty) eqn:E; cbn.
  - apply String.eqb_eq in E.
    replace (String.eqb (inv_type x) t) with false; [exact IH|].
    symmetry. apply String.eqb_neq. congruence.
  - now rewrite IH.
Qed.

Lemma ofType_same_type ty l : ofType ty (otherThan ty l) = [].
Proof.
  unfold ofType, otherThan. induction l as [|x l IH]; cbn; [reflexivity|].
  destruct (String.eqb (inv_type x) ty) eqn:E; cbn; [exact IH|].
  now rewrite E.
Qed.

Lemma twins_are_reachable :
  addCandidate sampleEncodeAddress "bob" "StashA" "KsmB" false "" sampleDb
  = Some twinsDb.
Proof. reflexivity. Qed.

(** C5, as stated, fails.  On the store with two documents under "StashA"
    (alice with IDENTITY invalid, bob with no entry), reached through
    `addCandidate`, `setIdentityInvalidity("StashA", true)` resolves with
    the store as it was, so alice's IDENTITY entry is still invalid then;
    and once the update it issued has been applied, bob, the second
    document under the stash, still has no IDENTITY entry. *)
Lemma setIdentityInvalidity_leaves_candidates_unset :
  exists u,
    callSetIdentityInvalidity "StashA" true None 2000 twinsDb
    = (twinsDb, Some u)
    /\ ~ everyCandidateUnder "StashA" (identitySetTo true) twinsDb
    /\ ~ everyCandidateUnder "StashA" (identitySetTo true)
           (landInvalidity u twinsDb).
Proof.
  eexists. split; [reflexivity|]. split.
  - intros H. destruct (H sampleCandidate) as [e [He Hv]];
      [now left | reflexivity |].
    cbn in He. injection He as <-. discriminate Hv.
  - intros H.
    match type of H with
    | everyCandidateUnder _ _ ?db =>
        assert (exists bob, In bob (candidateModel db)
                            /\ c_stash bob = Some "StashA"
                            /\ c_invalidity bob = []) as [bob [Hin [Hs Hi]]]
    end.
    { eexists. split; [right; left; reflexivity|]. split; reflexivity. }
    destruct (H bob Hin Hs) as [e [He _]]. rewrite Hi in He. discriminate He.
Qed.

(** C5, amended.  For the document the store finds under stash [address]
    (the first one carrying it), `setIdentityInvalidity(address, v)`
    resolves with the store untouched and one update issued.  Once that
    update has been applied to the store, that document, in its place and
    with its other fields as they were, has exactly one IDENTITY entry,
    with `valid = v`, and for every other type the entries it had.
    Whatever store the update lands on later, the document found there
    under the stash ends with exactly one IDENTITY entry with `valid = v`. *)
Theorem setIdentityInvalidity_first_document_once_landed :
  forall (address : string) (v : bool) (details : option string)
         (dateNow : Z) (db : Db) (before : list Candidate) (c : Candidate)
         (after : list Candidate),
    foundUnder address before c after db ->
    exists u c',
      callSetIdentityInvalidity address v details dateNow db = (db, Some u)
      /\ candidateModel (landInvalidity u db) = before ++ c' :: after
      /\ c' = set_invalidity (c_invalidity c') c
      /\ identitySetTo v c'
      /\ (forall t, t <> "IDENTITY" ->
                    ofType t (c_invalidity c') = ofType t (c_invalidity c))
      /\ (forall db2 before2 c2 after2,
             foundUnder address before2 c2 after2 db2 ->
             exists c2',
               candidateModel (landInvalidity u db2) = before2 ++ c2' :: after2
               /\ identitySetTo v c2').
Proof.
  intros address v details dateNow db before c after Hc.
  unfold callSetIdentityInvalidity, callInvalidity.
  rewrite (foundUnder_findOne _ _ _ _ _ Hc).
  eexists. eexists. split; [reflexivity|].
  unfold landInvalidity. cbn [iu_stash iu_invalidity candidateModel
                              set_candidates].
  rewrite (foundUnder_update _ _ _ _ _ _ Hc).
  split; [reflexivity|]. split; [reflexivity|].
  assert (forall l,
             identitySetTo v
               (set_invalidity
                  (otherThan "IDENTITY" (c_invalidity c)
                     ++ [mkInvalidity v "IDENTITY" dateNow l]) c)) as Hone.
  { intros l. eexists. cbn [c_invalidity set_invalidity].
    rewrite ofType_app, ofType_same_type. split; reflexivity. }
  split; [apply Hone|]. split.
  - intros t Ht. cbn [c_invalidity set_invalidity].
    rewrite ofType_app, ofType_other_type by exact Ht.
    assert (forall e, inv_type e = "IDENTITY" -> ofType t [e] = []) as Hnil.
    { intros e He. unfold ofType. cbn [filter]. rewrite He.
      replace (String.eqb "IDENTITY" t) with false; [reflexivity|].
      symmetry. apply String.eqb_neq. congruence. }
    rewrite Hnil by reflexivity. apply app_nil_r.
  - intros db2 before2 c2 after2 Hc2.
    rewrite (foundUnder_update _ _ _ _ _ _ Hc2).
    eexists. split; [reflexivity|].
    eexists. cbn [c_invalidity set_invalidity].
    rewrite ofType_app, ofType_same_type. split; reflexivity.
Qed.

(** Spec scenario 2 as an instance of the theorem: ONLINE valid and
    IDENTITY invalid before; after the update has landed, two entries,
    ONLINE untouched, IDENTITY valid. *)
Lemma setIdentityInvalidity_scenario_witness :
  foundUnder "StashA" [] sampleCandidate [] sampleDb
  /\ exists u,
      callSetIdentityInvalidity "StashA" true None 2000 sampleDb
      = (sampleDb, Some u)
      /\ map c_invalidity (candidateModel (landInvalidity u sampleDb))
         = [[mkInvalidity true "ONLINE" 1000 "";
             mkInvalidity true "IDENTITY" 2000 ""]].
Proof.
  assert (foundUnder "StashA" [] sampleCandidate [] sampleDb) as Hfound
      by (split; [reflexivity | split; [reflexivity | constructor]]).
  split; [exact Hfound|].
  destruct (setIdentityInvalidity_first_document_once_landed "StashA" true
              None 2000 sampleDb [] sampleCandidate [] Hfound)
    as [u [c' [Hcall _]]].
  exists u. split; [exact Hcall|].
  injection Hcall as <-. reflexivity.
Defined.

(** Spec scenario 2 in the atomic reading of the setter, that is with the
    update applied: two entries, ONLINE untouched, IDENTITY now valid. *)
Example setIdentityInvalidity_scenario :
  map c_invalidity
    (candidateModel (setIdentityInvalidity "StashA" true None 2000 sampleDb))
  = [[mkInvalidity true "ONLINE" 1000 "";
      mkInvalidity true "IDENTITY" 2000 ""]].
Proof. reflexivity. Qed.

(** *** Delayed transactions *)

(** What the code alone does: `addDelayedTx` never looks a row up.  Were
    no unique index declared, the second of two identical calls would add a
    second row under the same (number, controller). *)
Lemma addDelayedTx_twice_leaves_two_rows :
  let once := fst (addDelayedTx false 100 "C" ["T"] "H" emptyDb) in
  let twice := fst (addDelayedTx false 100 "C" ["T"] "H" once) in
  twice <> once
  /\ delayedRows 100 "C" once = [mkDelayedTx 100 "C" ["T"] "H"]
  /\ delayedRows 100 "C" twice
     = [mkDelayedTx 100 "C" ["T"] "H"; mkDelayedTx 100 "C" ["T"] "H"].
Proof.
  cbv zeta. split; [|split]; [|reflexivity|reflexivity].
  intros H. apply (f_equal (fun db => List.length (delayedTxModel db))) in H.
  vm_compute in H. discriminate.
Qed.

(** `addDelayedTx` under either reading of the schema: a plain insert
    without the index, a refused second insert with it. *)
Lemma addDelayedTx_is_plain_insert :
  forall (uniqueIndex : bool) (number : Z) (controller : string)
         (targets : list string) (callHash : string) (db : Db),
    let row := mkDelayedTx number controller targets callHash in
    let once := addDelayedTx uniqueIndex number controller targets callHash db in
    let twice :=
      addDelayedTx uniqueIndex number controller targets callHash (fst once) in
    if uniqueIndex then
      fst twice = fst once /\ snd twice = DuplicateKeyError
    else
      snd once = Saved /\ snd twice = Saved
      /\ delayedTxModel (fst twice) = delayedTxModel db ++ [row; row]
      /\ delayedRows number controller (fst twice)
         = delayedRows number controller db ++ [row; row].
Proof.
  intros uniqueIndex number controller targets callHash db row once twice.
  assert (sameDelayedKey number controller row = true) as Hkey.
  { unfold sameDelayedKey, row. cbn.
    now rewrite Z.eqb_refl, String.eqb_refl. }
  destruct uniqueIndex.
  - subst once twice. unfold addDelayedTx. cbn [andb].
    destruct (existsb (sameDelayedKey number controller) (delayedTxModel db))
      eqn:Hex; cbn [fst snd].
    + rewrite Hex. split; reflexivity.
    + cbn [set_delayedTxs delayedTxModel]. unfold save.
      rewrite existsb_app. cbn [existsb]. fold row. rewrite Hkey.
      rewrite orb_true_r. split; reflexivity.
  - subst once twice. unfold addDelayedTx, delayedRows, save. cbn.
    fold row. rewrite <- !app_assoc. cbn.
    repeat split; try reflexivity.
    rewrite filter_app. cbn. fold row. now rewrite Hkey.
Qed.

Lemma sameDelayedKey_iff number controller d :
  sameDelayedKey number controller d = true
  <-> delayedKey d = (number, controller).
Proof.
  unfold sameDelayedKey, delayedKey. rewrite andb_true_iff, Z.eqb_eq,
    String.eqb_eq. split; [intros [-> ->]; reflexivity|].
  intros [= -> ->]. split; reflexivity.
Qed.

Lemma rows_under_a_unique_key number controller rows :
  NoDup (map delayedKey rows) ->
  (List.length (filter (sameDelayedKey number controller) rows) <= 1)%nat.
Proof.
  induction rows as [|d rows IH]; cbn; [lia|].
  intros Hnd. inversion Hnd as [|k ks Hnotin Hnd']; subst.
  destruct (sameDelayedKey number controller d) eqn:Hd; [|now apply IH].
  cbn. apply sameDelayedKey_iff in Hd.
  assert (filter (sameDelayedKey number controller) rows = []) as ->; [|cbn; lia].
  destruct (filter (sameDelayedKey number controller) rows) as [|x l] eqn:Hf;
    [reflexivity|].
  exfalso. apply Hnotin.
  assert (In x (filter (sameDelayedKey number controller) rows)) as Hx
      by (rewrite Hf; now left).
  apply filter_In in Hx. destruct Hx as [Hin Hq].
  apply sameDelayedKey_iff in Hq. rewrite Hd, <- Hq. now apply in_map.
Qed.

Lemma existsb_filter_nonempty {A} (q : A -> bool) l :
  existsb q l = true -> (1 <= List.length (filter q l))%nat.
Proof.
  induction l as [|x l IH]; cbn; [discriminate|].
  destruct (q x); cbn; [lia | exact IH].
Qed.

Lemma existsb_false_filter {A} (q : A -> bool) l :
  existsb q l = false -> filter q l = [].
Proof.
  induction l as [|x l IH]; cbn; [reflexivity|].
  destruct (q x); cbn; [discriminate | exact IH].
Qed.

Lemma NoDup_app_one {A} (l : list A) (a : A) :
  ~ In a l -> NoDup l -> NoDup (l ++ [a]).
Proof.
  intros Hnot Hnd. induction Hnd as [|x l Hx Hnd IH]; cbn.
  - constructor; [intros [] | constructor].
  - constructor.
    + rewrite in_app_iff. intros [H|[H|[]]]; [now apply Hx|].
      subst. apply Hnot. now left.
    + apply IH. intros H. apply Hnot. now right.
Qed.

(** C8.  With the unique index on (number, controller) that the spec's
    data model declares, DelayedTx rows stay unique on that key, and a
    second `addDelayedTx` with the same arguments is refused by the
    duplicate-key check and leaves the store as the first call left it,
    with a single row under (number, controller). *)
Theorem addDelayedTx_twice_is_once :
  forall (number : Z) (controller : string) (targets : list string)
         (callHash : string) (db : Db),
    delayedKeysUnique db ->
    let once :=
      fst (addDelayedTx delayedTxUniqueIndex number controller targets
             callHash db) in
    let second :=
      addDelayedTx delayedTxUniqueIndex number controller targets callHash
        once in
    fst second = once
    /\ snd second = DuplicateKeyError
    /\ delayedKeysUnique once
    /\ List.length (delayedRows number controller once) = 1%nat
    /\ (delayedRows number controller db = [] ->
        delayedTxModel once
        = delayedTxModel db
            ++ [mkDelayedTx number controller targets callHash]).
Proof.
  intros number controller targets callHash db Hu. cbv zeta.
  pose proof (addDelayedTx_is_plain_insert true number controller targets
                callHash db) as Htwice. cbv zeta in Htwice.
  change true with delayedTxUniqueIndex in Htwice at 1 2 3 4.
  destruct Htwice as [H1 H2]. split; [exact H1|]. split; [exact H2|].
  unfold addDelayedTx, delayedTxUniqueIndex, delayedKeysUnique, delayedRows
    in *. cbn [andb].
  destruct (existsb (sameDelayedKey number controller) (delayedTxModel db))
    eqn:Hex; cbn [fst].
  - split; [exact Hu|]. split.
    + pose proof (rows_under_a_unique_key number controller _ Hu).
      pose proof (existsb_filter_nonempty _ _ Hex). lia.
    + intros Hnone. apply existsb_filter_nonempty in Hex.
      rewrite Hnone in Hex. cbn in Hex. lia.
  - cbn [set_delayedTxs delayedTxModel]. unfold save. split; [|split].
    + rewrite map_app. cbn. apply NoDup_app_one; [|exact Hu].
      intros Hin. apply in_map_iff in Hin. destruct Hin as [d [Hd Hin]].
      apply sameDelayedKey_iff in Hd.
      assert (existsb (sameDelayedKey number controller) (delayedTxModel db)
              = true) as Habs
          by (apply existsb_exists; exists d; now split).
      congruence.
    + rewrite filter_app, (existsb_false_filter _ _ Hex). cbn.
      unfold sameDelayedKey. cbn. now rewrite Z.eqb_refl, String.eqb_refl.
    + reflexivity.
Qed.

(** Two identical calls on the empty store leave one row. *)
Lemma addDelayedTx_twice_is_once_witness :
  delayedKeysUnique emptyDb
  /\ delayedTxModel
       (fst (addDelayedTx delayedTxUniqueIndex 100 "C" ["T"] "H"
               (fst (addDelayedTx delayedTxUniqueIndex 100 "C" ["T"] "H"
                       emptyDb))))
     = [mkDelayedTx 100 "C" ["T"] "H"].
Proof.
  assert (delayedKeysUnique emptyDb) as Hu by constructor.
  split; [exact Hu|].
  destruct (addDelayedTx_twice_is_once 100 "C" ["T"] "H" emptyDb Hu)
    as [Hsame _].
  cbv zeta in Hsame. rewrite Hsame. reflexivity.
Defined.

(** *** Rank and fault events *)

Lemma existsb_reason_In reason events :
  existsb (fun f => String.eqb (fe_reason f) reason) events = true
  <-> In reason (map fe_reason events).
Proof.
  rewrite existsb_exists, in_map_iff. split.
  - intros [f [Hin Hq]]. apply String.eqb_eq in Hq. now exists f.
  - intros [f [Hq Hin]]. exists f. split; [exact Hin|].
    now apply String.eqb_eq.
Qed.

Lemma existsb_startEra_In startEra events :
  existsb (fun r => Z.eqb (re_startEra r) startEra) events = true
  <-> In startEra (map re_startEra events).
Proof.
  rewrite existsb_exists, in_map_iff. split.
  - intros [r [Hin Hq]]. apply Z.eqb_eq in Hq. now exists r.
  - intros [r [Hq Hin]]. exists r. split; [exact Hin|]. now apply Z.eqb_eq.
Qed.

(** C9, as stated, fails.  On the store with two documents under "StashA",
    bob is a candidate present in the store with no fault event of reason
    "offline"; `pushFaultEvent("StashA", "offline")` looks at alice, the
    first document under the stash, which has one: it answers true and
    appends nothing. *)
Lemma pushFaultEvent_ignores_second_document :
  ~ faultConventionForEvery twinsDb
  /\ exists bob,
      In bob (candidateModel twinsDb)
      /\ c_stash bob = Some "StashA"
      /\ c_faultEvents bob = []
      /\ pushFaultEvent "StashA" "offline" 2000 twinsDb = (twinsDb, true).
Proof.
  assert (exists bob,
             In bob (candidateModel twinsDb)
             /\ c_stash bob = Some "StashA"
             /\ c_faultEvents bob = []
             /\ pushFaultEvent "StashA" "offline" 2000 twinsDb
                = (twinsDb, true)) as Hbob.
  { eexists. split; [right; left; reflexivity|].
    split; [reflexivity|]. split; reflexivity. }
  split; [|exact Hbob].
  destruct Hbob as [bob [Hin [Hs [He Hpush]]]].
  intros H. specialize (H bob "StashA" "offline" 2000 Hin Hs).
  rewrite Hpush, He in H. discriminate H.
Qed.

(** C9, amended.  For the document the store finds under the stash (the
    first one carrying it), `pushFaultEvent` answers true and leaves the
    store alone when the document has an event with this reason, and
    answers false after appending the event to that document otherwise;
    `pushRankEvent` has it the other way round: false on a start era the
    document already has, true after appending.  With no document under the
    stash both answer false and write nothing. *)
Theorem pushFaultEvent_pushRankEvent_first_document :
  forall (stash reason : string) (startEra activeEra dateNow : Z) (db : Db),
    (Forall (fun d => c_stash d <> Some stash) (candidateModel db) ->
     pushFaultEvent stash reason dateNow db = (db, false)
     /\ pushRankEvent stash startEra activeEra dateNow db = (db, false))
    /\ forall before c after,
        foundUnder stash before c after db ->
        (In reason (map fe_reason (c_faultEvents c)) ->
         pushFaultEvent stash reason dateNow db = (db, true))
        /\ (~ In reason (map fe_reason (c_faultEvents c)) ->
            pushFaultEvent stash reason dateNow db
            = (set_candidates
                 (before
                    ++ set_faultEvents
                         (c_faultEvents c
                            ++ [mkFaultEvent dateNow reason (c_rank c)]) c
                    :: after) db,
               false))
        /\ (In startEra (map re_startEra (c_rankEvents c)) ->
            pushRankEvent stash startEra activeEra dateNow db = (db, false))
        /\ (~ In startEra (map re_startEra (c_rankEvents c)) ->
            pushRankEvent stash startEra activeEra dateNow db
            = (set_candidates
                 (before
                    ++ set_rankEvents
                         (c_rankEvents c
                            ++ [mkRankEvent dateNow startEra activeEra]) c
                    :: after) db,
               true)).
Proof.
  intros stash reason startEra activeEra dateNow db. split.
  - intros Habsent. unfold pushFaultEvent, pushRankEvent.
    rewrite (absent_findOne _ _ Habsent). split; reflexivity.
  - intros before c after Hc. unfold pushFaultEvent, pushRankEvent.
    rewrite (foundUnder_findOne _ _ _ _ _ Hc), !scanFor_existsb.
    repeat split.
    + intros Hin. apply existsb_reason_In in Hin. now rewrite Hin.
    + intros Hnot.
      destruct (existsb _ (c_faultEvents c)) eqn:E;
        [apply existsb_reason_In in E; contradiction|].
      now rewrite (foundUnder_update _ _ _ _ _ _ Hc).
    + intros Hin. apply existsb_startEra_In in Hin. now rewrite Hin.
    + intros Hnot.
      destruct (existsb _ (c_rankEvents c)) eqn:E;
        [apply existsb_startEra_In in E; contradiction|].
      now rewrite (foundUnder_update _ _ _ _ _ _ Hc).
Qed.

(** On the sample store: alice has a fault event "offline" and a rank event
    for start era 10, and none for "unclaimed" or era 11. *)
Lemma pushFaultEvent_pushRankEvent_witness :
  foundUnder "StashA" [] sampleCandidate [] sampleDb
  /\ pushFaultEvent "StashA" "offline" 2000 sampleDb = (sampleDb, true)
  /\ snd (pushFaultEvent "StashA" "unclaimed" 2000 sampleDb) = false
  /\ pushRankEvent "StashA" 10 14 2000 sampleDb = (sampleDb, false)
  /\ snd (pushRankEvent "StashA" 11 14 2000 sampleDb) = true.
Proof.
  assert (foundUnder "StashA" [] sampleCandidate [] sampleDb) as Hfound
      by (split; [reflexivity | split; [reflexivity | constructor]]).
  split; [exact Hfound|].
  destruct (proj2 (pushFaultEvent_pushRankEvent_first_document
                     "StashA" "offline" 10 14 2000 sampleDb)
              [] sampleCandidate [] Hfound) as [Hdup [_ [Hrank _]]].
  destruct (proj2 (pushFaultEvent_pushRankEvent_first_document
                     "StashA" "unclaimed" 11 14 2000 sampleDb)
              [] sampleCandidate [] Hfound) as [_ [Hfresh [_ Hnew]]].
  split; [apply Hdup; cbn; now left|].
  split.
  - rewrite Hfresh; [reflexivity|]. cbn. intros [H|[]]. discriminate H.
  - split; [apply Hrank; cbn; now left|].
    rewrite Hnew; [reflexivity|]. cbn. intros [H|[]]. discriminate H.
Defined.

Example pushFaultEvent_duplicate :
  pushFaultEvent "StashA" "offline" 2000 sampleDb = (sampleDb, true).
Proof. reflexivity. Qed.

Example pushFaultEvent_fresh :
  snd (pushFaultEvent "StashA" "unclaimed" 2000 sampleDb) = false
  /\ map c_faultEvents
       (candidateModel (fst (pushFaultEvent "StashA" "unclaimed" 2000 sampleDb)))
     = [[mkFaultEvent 950 "offline" (Some 4);
         mkFaultEvent 2000 "unclaimed" (Some 3)]].
Proof. split; reflexivity. Qed.

Example pushRankEvent_duplicate_and_fresh :
  pushRankEvent "StashA" 10 14 2000 sampleDb = (sampleDb, false)
  /\ snd (pushRankEvent "StashA" 11 14 2000 sampleDb) = true.
Proof. split; reflexivity. Qed.

(** *** Telemetry-created candidates *)

Lemma allCandidates_have_stash db c :
  In c (allCandidates db) -> c_stash c <> None.
Proof.
  unfold allCandidates, findAll. intros H. apply filter_In in H.
  destruct H as [_ H]. unfold stashIsString in H.
  destruct (c_stash c); [discriminate | discriminate].
Qed.

(** C10.  `reportOnline` for a name the store does not know creates a
    document with no stash; `allCandidates` returns only documents whose
    stash is set, so it returns what it returned before and leaves the new
    document out; once `addCandidate` has run for that name, the document
    carries the encoded stash and `allCandidates` returns it. *)
Theorem telemetry_created_candidate_not_in_allCandidates :
  forall (encodeAddress : string -> Z -> option string)
         (telemetryId : Z) (name version : string) (now dateNow1 dateNow2 : Z)
         (db : Db),
    findOne (byName name) (candidateModel db) = None ->
    let db' := reportOnline telemetryId name version now dateNow1 dateNow2 db in
    (exists c,
        findOne (byName name) (candidateModel db') = Some c
        /\ c_stash c = None
        /\ ~ In c (allCandidates db'))
    /\ allCandidates db' = allCandidates db
    /\ (forall c, In c (allCandidates db') -> c_stash c <> None)
    /\ (forall stash kusamaStash skipSelfStake bio db'',
           addCandidate encodeAddress name stash kusamaStash skipSelfStake bio db'
           = Some db'' ->
           exists c',
             findOne (byName name) (candidateModel db'') = Some c'
             /\ c_stash c' <> None
             /\ In c' (allCandidates db'')).
Proof.
  intros encodeAddress telemetryId name version now dateNow1 dateNow2 db Hnone
         db'.
  set (fresh :=
         patch [set_telemetryId (Some telemetryId); set_nodeRefs (Some 1);
                set_version (Some version); set_discoveredAt (Some now);
                set_onlineSince (Some now); set_offlineSince (Some 0)]
           (newCandidate name)).
  assert (candidateModel db' = save fresh (candidateModel db)) as Hdb'.
  { subst db'. unfold reportOnline. rewrite Hnone. reflexivity. }
  assert (findOne (byName name) (candidateModel db') = Some fresh) as Hfind.
  { rewrite Hdb', (findOne_save_miss _ _ _ Hnone). unfold findOne. cbn.
    unfold byName. cbn. now rewrite String.eqb_refl. }
  split; [|split; [|split]].
  - exists fresh. split; [exact Hfind|]. split; [reflexivity|].
    intros Hin. now apply allCandidates_have_stash in Hin.
  - unfold allCandidates, findAll. rewrite Hdb'. unfold save.
    rewrite filter_app. cbn. apply app_nil_r.
  - intros c. apply allCandidates_have_stash.
  - intros stash kusamaStash skipSelfStake bio db'' Hadd.
    unfold addCandidate in Hadd.
    destruct (getChainMetadata db') as [metadata|]; [|discriminate].
    destruct (encodeAddress stash _) as [encoded|]; [|discriminate].
    rewrite Hfind in Hadd. injection Hadd as <-.
    cbn [candidateModel set_candidates].
    eexists. split; [|split].
    + apply findOne_after_update; [exact Hfind|].
      unfold byName. cbn. now rewrite String.eqb_refl.
    + cbn. discriminate.
    + unfold allCandidates, findAll. apply filter_In. split; [|reflexivity].
      cbn [candidateModel set_candidates].
      eapply findOne_In. apply findOne_after_update; [exact Hfind|].
      unfold byName. cbn. now rewrite String.eqb_refl.
Qed.

(** A node "bob" first seen by telemetry, then registered. *)
Lemma telemetry_created_candidate_witness :
  findOne (byName "bob") (candidateModel sampleDb) = None
  /\ allCandidates (reportOnline 9 "bob" "0.9.13" 5000 5001 5002 sampleDb)
     = allCandidates sampleDb
  /\ exists c',
      findOne (byName "bob")
        (candidateModel sampleDbWithBob)
      = Some c'
      /\ c_stash c' <> None.
Proof.
  pose proof (telemetry_created_candidate_not_in_allCandidates
                sampleEncodeAddress 9 "bob" "0.9.13" 5000 5001 5002 sampleDb
                eq_refl) as [_ [Hsame [_ Hadd]]].
  split; [reflexivity|]. split; [exact Hsame|].
  assert (addCandidate sampleEncodeAddress "bob" "StashB" "KsmB" false ""
            (reportOnline 9 "bob" "0.9.13" 5000 5001 5002 sampleDb)
          = Some sampleDbWithBob) as Hbob by (vm_compute; reflexivity).
  destruct (Hadd "StashB" "KsmB" false "" _ Hbob) as [c' [Hf [Hs _]]].
  exists c'. split; [exact Hf | exact Hs].
Defined.

(** *** The median *)

Lemma insertAsc_perm x l : Permutation (x :: l) (insertAsc x l).
Proof.
  induction l as [|y l IH]; simpl; [apply Permutation_refl|].
  destruct (Z.leb x y); [apply Permutation_refl|].
  eapply perm_trans; [apply perm_swap|]. now apply perm_skip.
Qed.

Lemma sortAsc_perm l : Permutation l (sortAsc l).
Proof.
  induction l as [|x l IH]; simpl; [constructor|].
  eapply perm_trans; [apply perm_skip, IH | apply insertAsc_perm].
Qed.

Lemma insertAsc_sorted x l :
  LocallySorted Z.le l -> LocallySorted Z.le (insertAsc x l).
Proof.
  induction 1 as [|y|y z l Hs IH Hyz]; simpl.
  - constructor.
  - destruct (Z.leb x y) eqn:E.
    + constructor; [constructor|]. now apply Z.leb_le.
    + constructor; [constructor|]. apply Z.leb_gt in E. lia.
  - destruct (Z.leb x y) eqn:E.
    + constructor; [now constructor|]. now apply Z.leb_le.
    + simpl in IH. destruct (Z.leb x z) eqn:E'.
      * constructor; [exact IH|]. apply Z.leb_gt in E. lia.
      * constructor; [exact IH | exact Hyz].
Qed.

Lemma sortAsc_sorted l : LocallySorted Z.le (sortAsc l).
Proof.
  induction l as [|x l IH]; simpl; [constructor|].
  now apply insertAsc_sorted.
Qed.

Lemma sortAsc_length l : List.length (sortAsc l) = List.length l.
Proof. symmetry. apply Permutation_length, sortAsc_perm. Qed.

(** C7.  `getMedian` is undefined on the empty array; on a non-empty array
    it sorts ascending and answers the middle element when the length is
    odd and the mean of the two middle elements when it is even.  It gives
    4 on [1,3,5,7] and 4 on [2,4,9]. *)
Theorem getMedian_is_the_median :
  getMedian [] = None
  /\ (exists m, getMedian [1; 3; 5; 7] = Some m /\ (m == 4)%Q)
  /\ (exists m, getMedian [2; 4; 9] = Some m /\ (m == 4)%Q)
  /\ forall (x : Z) (l : list Z),
      exists (s : list Z) (m : Q),
        Permutation (x :: l) s
        /\ LocallySorted Z.le s
        /\ getMedian (x :: l) = Some m
        /\ (m == if Nat.even (List.length s)
                 then (inject_Z (nth (List.length s / 2 - 1)%nat s 0%Z)
                       + inject_Z (nth (List.length s / 2)%nat s 0%Z)) / 2
                 else inject_Z (nth ((List.length s - 1) / 2)%nat s 0%Z))%Q.
Proof.
  split; [reflexivity|]. split; [|split].
  - eexists. split; [reflexivity|]. reflexivity.
  - eexists. split; [reflexivity|]. reflexivity.
  - intros x l. exists (sortAsc (x :: l)).
    unfold getMedian.
    replace (Nat.leb 1 (List.length (x :: l))) with true by reflexivity.
    cbv zeta. unfold at_.
    set (s := sortAsc (x :: l)).
    assert (Nat.eqb (List.length s mod 2) 0 = Nat.even (List.length s)) as Hpar.
    { generalize (List.length s). intros n.
      destruct (Nat.even n) eqn:E.
      - apply Nat.even_spec in E. destruct E as [k ->].
        rewrite Nat.mul_comm, Nat.Div0.mod_mul. reflexivity.
      - assert (Nat.odd n = true) as O
            by (rewrite <- Nat.negb_even, E; reflexivity).
        apply Nat.odd_spec in O. destruct O as [k ->].
        rewrite Nat.add_comm, Nat.mul_comm, Nat.Div0.mod_add. reflexivity. }
    rewrite Hpar.
    destruct (Nat.even (List.length s)); eexists;
      (split; [apply sortAsc_perm|]); (split; [apply sortAsc_sorted|]);
      (split; [reflexivity|]).
    + rewrite inject_Z_plus. reflexivity.
    + reflexivity.
Qed.

(** *** Era points: traces *)

Lemma storeReads_app a b : storeReads (a ++ b) = storeReads a ++ storeReads b.
Proof. apply flat_map_app. Qed.

Lemma quiet_nil era : quiet era [].
Proof. split; [constructor | reflexivity]. Qed.

Lemma quiet_app era a b : quiet era a -> quiet era b -> quiet era (a ++ b).
Proof.
  intros [Fa Ra] [Fb Rb]. split.
  - apply Forall_app. now split.
  - now rewrite storeReads_app, Ra, Rb.
Qed.

Lemma setEraPoints_spec era points address w :
  fst (setEraPoints era points address w) = Ok tt
  /\ exists evs,
      w_trace (snd (setEraPoints era points address w)) = w_trace w ++ evs
      /\ quiet era evs.
Proof.
  unfold setEraPoints, bind, emit, readDb, writeDb, ret. cbn.
  destruct (findOne (sameEraPointsKey address era) (eraPointsModel (w_db w)))
    as [d|]; [destruct (Z.eqb (ep_eraPoints d) points)|]; cbn;
    (split; [reflexivity|]); rewrite <- ?app_assoc; eexists;
    (split; [reflexivity|]); split; cbn;
    repeat constructor.
Qed.

Lemma forEach_setEraPoints_spec era validators w :
  let m := forEach validators (fun validator =>
             setEraPoints era (vp_eraPoints validator) (vp_address validator)) in
  fst (m w) = Ok tt
  /\ exists evs, w_trace (snd (m w)) = w_trace w ++ evs /\ quiet era evs.
Proof.
  cbv zeta. revert w.
  induction validators as [|v vs IH]; intros w; cbn [forEach].
  - cbn. split; [reflexivity|]. exists []. split; [now rewrite app_nil_r|].
    apply quiet_nil.
  - unfold bind.
    destruct (setEraPoints_spec era (vp_eraPoints v) (vp_address v) w)
      as [Hok [evs1 [Htr1 Hq1]]].
    destruct (setEraPoints era (vp_eraPoints v) (vp_address v) w)
      as [r w1]. cbn in Hok, Htr1. subst r.
    destruct (IH w1) as [Hok2 [evs2 [Htr2 Hq2]]].
    split; [exact Hok2|]. exists (evs1 ++ evs2). split.
    + now rewrite Htr2, Htr1, app_assoc.
    + now apply quiet_app.
Qed.

(** `setTotalEraPoints` never takes its early return: whenever it is given
    at least one validator it ends with a write of the TotalEraPoints row. *)
Lemma setTotalEraPoints_spec era total validators w :
  validators <> [] ->
  fst (setTotalEraPoints era total validators w) = Ok tt
  /\ exists evs e,
      w_trace (snd (setTotalEraPoints era total validators w))
      = w_trace w ++ evs ++ [e]
      /\ quiet era (evs ++ [e])
      /\ e = (match findOne (sameEra era)
                      (totalEraPointsModel
                         (w_db (snd (forEach validators (fun validator =>
                            setEraPoints era (vp_eraPoints validator)
                              (vp_address validator)) w)))) with
              | Some _ => DbUpdateTotalEraPoints era
              | None => DbSaveTotalEraPoints era
              end).
Proof.
  intros Hne. unfold setTotalEraPoints.
  destruct (forEach_setEraPoints_spec era validators w)
    as [Hok [evs1 [Htr1 Hq1]]].
  cbv zeta in Hok, Htr1. unfold bind.
  destruct (forEach validators _ w) as [r w1]. cbn in Hok, Htr1. subst r.
  unfold emit, readDb, writeDb, ret, throw. cbn.
  assert (exists avg, getAverage (map vp_eraPoints validators) = Some avg)
    as [avg Havg].
  { destruct validators as [|v vs]; [contradiction|]. cbn. eauto. }
  destruct (findOne (sameEra era) (totalEraPointsModel (w_db w1))) as [d|];
    cbn; rewrite Havg; cbn; (split; [reflexivity|]);
    rewrite Htr1, <- !app_assoc; cbn;
    eexists (evs1 ++ [DbFindTotalEraPoints era]), _;
    rewrite <- !app_assoc; cbn;
    (split; [reflexivity|]); (split; [|reflexivity]);
    apply (quiet_app era evs1 [_; _]); try exact Hq1;
    split; repeat constructor.
Qed.

Lemma eraPointsStep_spec chaindata :
  chainWellFormed chaindata -> stepSpec (eraPointsStep chaindata).
Proof.
  intros Hwf j w Hj. unfold eraPointsStep, dbGetTotalEraPoints,
    chainGetTotalEraPoints.
  unfold bind at 1 2, emit at 1, readDb at 1. cbn.
  destruct (match findOne (sameEra j) (totalEraPointsModel (w_db w)) with
            | Some e => _ | None => false end).
  - cbn. split; [reflexivity|]. exists []. split; [reflexivity|].
    apply quiet_nil.
  - unfold bind at 1 2, emit at 1, ret at 1. cbn.
    destruct (Hwf j) as [Hera Hvals]. rewrite Hera.
    match goal with
    | |- context [setTotalEraPoints j ?t ?vs ?w0] =>
        destruct (setTotalEraPoints_spec j t vs w0 Hvals)
          as [Hok [evs [e [Htr [Hq _]]]]]
    end.
    split; [exact Hok|]. rewrite Htr. cbn. rewrite <- !app_assoc. cbn.
    exists (ChainGetTotalEraPoints j :: evs ++ [e]). split; [reflexivity|].
    apply (quiet_app j [_] (evs ++ [e])); [|exact Hq].
    split; repeat constructor.
Qed.

Lemma erasDownTo_nil hi lo : hi < lo -> erasDownTo hi lo = [].
Proof.
  intros H. unfold erasDownTo.
  replace (Z.to_nat (hi - lo + 1)) with 0%nat by lia. reflexivity.
Qed.

Lemma erasDownTo_cons hi lo :
  lo <= hi -> erasDownTo hi lo = hi :: erasDownTo (hi - 1) lo.
Proof.
  intros H. unfold erasDownTo.
  replace (Z.to_nat (hi - lo + 1)) with (S (Z.to_nat (hi - 1 - lo + 1))) by lia.
  cbn [seq map]. f_equal; [lia|].
  rewrite <- seq_shift, map_map. apply map_ext. intros k. lia.
Qed.

Lemma erasDownTo_bounds hi lo e : In e (erasDownTo hi lo) -> lo <= e <= hi.
Proof.
  unfold erasDownTo. rewrite in_map_iff. intros [k [<- Hk]].
  apply in_seq in Hk. lia.
Qed.

Lemma quiet_nonneg era evs :
  0 <= era -> quiet era evs -> Forall (fun e => 0 <= eventEra e) evs.
Proof.
  intros Hera [Hall _]. eapply Forall_impl; [|exact Hall].
  cbn. intros e ->. exact Hera.
Qed.

(** The loop started at [i] asks the store about `i, i-1, ...` down to the
    larger of 0 and `activeEra - 83`, and no event carries a negative era. *)
Lemma eraLoop_spec body activeEra i w :
  stepSpec body ->
  fst (eraLoop body activeEra i w) = Ok tt
  /\ exists evs,
      w_trace (snd (eraLoop body activeEra i w)) = w_trace w ++ evs
      /\ storeReads evs = erasDownTo i (Z.max 0 (activeEra - 83))
      /\ Forall (fun e => 0 <= eventEra e) evs.
Proof.
  funelim (eraLoop body activeEra i w); intros Hbody.
  - (* the loop condition fails *)
    cbn. split; [reflexivity|]. exists []. rewrite app_nil_r.
    split; [reflexivity|]. split; [|constructor].
    symmetry. apply erasDownTo_nil.
    destruct (proj1 (andb_false_iff _ _) e) as [e'|e'].
    + apply Z.ltb_ge in e'. lia.
    + apply Z.leb_gt in e'. lia.
  - (* the body returned *)
    destruct (proj1 (andb_true_iff _ _) e) as [e1 e2].
    apply Z.ltb_lt in e1. apply Z.leb_le in e2.
    match goal with
    | IH : stepSpec _ -> _ |- _ => destruct (IH Hbody) as [Hok [evs [Htr [Hr Hf]]]]
    end.
    destruct (Hbody i w e2) as [_ [evs0 [Htr0 Hq0]]].
    match goal with
    | Hb : body i w = _ |- _ => rewrite Hb in Htr0
    end.
    cbn in Htr0.
    split; [exact Hok|].
    exists ((DbGetTotalEraPoints i :: evs0) ++ evs). split; [|split].
    + now rewrite Htr, Htr0, <- app_assoc.
    + change ((DbGetTotalEraPoints i :: evs0) ++ evs)
        with ([DbGetTotalEraPoints i] ++ evs0 ++ evs).
      rewrite !storeReads_app, (proj2 Hq0), Hr. cbn.
      symmetry. apply erasDownTo_cons. lia.
    + apply Forall_app. split; [|exact Hf].
      constructor; [exact e2|]. eapply quiet_nonneg; eauto.
  - (* the body threw: excluded by [stepSpec] *)
    destruct (proj1 (andb_true_iff _ _) e0) as [_ e2]. apply Z.leb_le in e2.
    destruct (Hbody i w e2) as [Hok _].
    match goal with
    | Hb : body i w = _ |- _ => rewrite Hb in Hok
    end.
    discriminate.
Qed.

Lemma sampleChain_wellFormed activeEra : chainWellFormed (sampleChain activeEra).
Proof. intros era. split; [reflexivity | discriminate]. Defined.

(** One run of the job: the loop, then the refresh of the active era, which
    ends with a write of the active era's TotalEraPoints row. *)
Lemma eraPointsJob_spec chaindata db :
  0 <= getActiveEraIndex chaindata ->
  chainWellFormed chaindata ->
  let activeEra := getActiveEraIndex chaindata in
  fst (eraPointsJob chaindata (mkWorld db [])) = Ok tt
  /\ exists evs e,
      jobTrace chaindata db = evs ++ [e]
      /\ storeReads (evs ++ [e])
         = erasDownTo (activeEra - 1) (Z.max 0 (activeEra - 83))
      /\ Forall (fun e => 0 <= eventEra e) (evs ++ [e])
      /\ isWrite e = true.
Proof.
  intros Hera Hwf activeEra. unfold jobTrace, eraPointsJob.
  fold activeEra. unfold bind.
  destruct (eraLoop_spec (eraPointsStep chaindata) activeEra (activeEra - 1)
              (mkWorld db []) (eraPointsStep_spec chaindata Hwf))
    as [Hok [evs1 [Htr1 [Hr1 Hf1]]]].
  destruct (eraLoop _ activeEra (activeEra - 1) (mkWorld db [])) as [r w1].
  cbn in Hok, Htr1. subst r.
  unfold chainGetTotalEraPoints, bind, emit, ret. cbn.
  destruct (Hwf activeEra) as [Hce Hvals]. rewrite Hce.
  match goal with
  | |- context [setTotalEraPoints activeEra ?t ?vs ?w0] =>
      destruct (setTotalEraPoints_spec activeEra t vs w0 Hvals)
        as [Hok2 [evs2 [e [Htr2 [Hq2 He]]]]]
  end.
  split; [exact Hok2|].
  exists (evs1 ++ ChainGetTotalEraPoints activeEra :: evs2), e.
  rewrite Htr2. cbn [w_trace]. rewrite Htr1, <- !app_assoc. cbn [app].
  split; [reflexivity|]. split; [|split].
  - rewrite storeReads_app, Hr1.
    change (storeReads (ChainGetTotalEraPoints activeEra :: evs2 ++ [e]))
      with (storeReads (evs2 ++ [e])).
    rewrite (proj2 Hq2). apply app_nil_r.
  - apply Forall_app. split; [exact Hf1|].
    constructor; [exact Hera|]. eapply quiet_nonneg; eauto.
  - rewrite He. now destruct (findOne _ _).
Qed.

(** *** The reads of the backfill loop, whatever the chain answers *)

Lemma setTotalEraPoints_reads era total validators w :
  exists evs,
    w_trace (snd (setTotalEraPoints era total validators w)) = w_trace w ++ evs
    /\ storeReads evs = [].
Proof.
  unfold setTotalEraPoints.
  destruct (forEach_setEraPoints_spec era validators w)
    as [Hok [evs1 [Htr1 [_ Hq1]]]].
  cbv zeta in Hok, Htr1. unfold bind.
  destruct (forEach validators _ w) as [r w1]. cbn in Hok, Htr1. subst r.
  unfold emit, readDb, writeDb, ret, throw. cbn.
  destruct (findOne (sameEra era) (totalEraPointsModel (w_db w1))) as [d|];
    cbn; destruct (getAverage (map vp_eraPoints validators)); cbn;
    rewrite Htr1, <- ?app_assoc; eexists; (split; [reflexivity|]);
    rewrite storeReads_app, Hq1; reflexivity.
Qed.

Lemma eraPointsStep_reads chaindata : stepReads (eraPointsStep chaindata).
Proof.
  intros j w. unfold eraPointsStep, dbGetTotalEraPoints,
    chainGetTotalEraPoints.
  unfold bind at 1 2, emit at 1, readDb at 1. cbn.
  destruct (match findOne (sameEra j) (totalEraPointsModel (w_db w)) with
            | Some e => _ | None => false end).
  - cbn. exists []. split; reflexivity.
  - unfold bind at 1 2, emit at 1, ret at 1. cbn.
    match goal with
    | |- context [setTotalEraPoints ?e ?t ?vs ?w0] =>
        destruct (setTotalEraPoints_reads e t vs w0) as [evs [Htr Hr]]
    end.
    rewrite Htr. cbn. rewrite <- !app_assoc. cbn.
    exists (ChainGetTotalEraPoints j :: evs). split; [reflexivity|].
    exact Hr.
Qed.

(** The loop started at [i] asks the store about `i, i-1, ...`, in this
    order, and never goes below the larger of 0 and `activeEra - 83`; when
    it returns it has asked about all of them. *)
Lemma eraLoop_reads body activeEra i w :
  stepReads body ->
  exists evs,
    w_trace (snd (eraLoop body activeEra i w)) = w_trace w ++ evs
    /\ (exists n,
           storeReads evs
           = firstn n (erasDownTo i (Z.max 0 (activeEra - 83))))
    /\ (fst (eraLoop body activeEra i w) = Ok tt ->
        storeReads evs = erasDownTo i (Z.max 0 (activeEra - 83))).
Proof.
  funelim (eraLoop body activeEra i w); intros Hbody.
  - (* the loop condition fails *)
    exists []. cbn. rewrite app_nil_r. split; [reflexivity|].
    assert (erasDownTo i (Z.max 0 (activeEra - 83)) = []) as ->.
    { apply erasDownTo_nil.
      destruct (proj1 (andb_false_iff _ _) e) as [e'|e'].
      - apply Z.ltb_ge in e'. lia.
      - apply Z.leb_gt in e'. lia. }
    split; [exists 0%nat|]; reflexivity.
  - (* the body returned *)
    destruct (proj1 (andb_true_iff _ _) e) as [e1 e2].
    apply Z.ltb_lt in e1. apply Z.leb_le in e2.
    match goal with
    | IH : stepReads _ -> _ |- _ =>
        destruct (IH Hbody) as [evs [Htr [[n Hn] Hall]]]
    end.
    destruct (Hbody i w) as [evs0 [Htr0 Hr0]].
    match goal with
    | Hb : body i w = _ |- _ => rewrite Hb in Htr0
    end.
    cbn in Htr0.
    exists ((DbGetTotalEraPoints i :: evs0) ++ evs).
    assert (storeReads ((DbGetTotalEraPoints i :: evs0) ++ evs)
            = i :: storeReads evs) as Hreads.
    { change ((DbGetTotalEraPoints i :: evs0) ++ evs)
        with ([DbGetTotalEraPoints i] ++ evs0 ++ evs).
      now rewrite !storeReads_app, Hr0. }
    rewrite Hreads, (erasDownTo_cons i) by lia.
    split; [now rewrite Htr, Htr0, <- app_assoc|]. split.
    + exists (S n). cbn. now rewrite Hn.
    + intros Hok. now rewrite (Hall Hok).
  - (* the body threw: the loop stops there *)
    destruct (proj1 (andb_true_iff _ _) e0) as [e1 e2].
    apply Z.ltb_lt in e1. apply Z.leb_le in e2.
    destruct (Hbody i w) as [evs0 [Htr0 Hr0]].
    match goal with
    | Hb : body i w = _ |- _ => rewrite Hb in Htr0
    end.
    cbn in Htr0. exists (DbGetTotalEraPoints i :: evs0).
    split; [exact Htr0|].
    assert (storeReads (DbGetTotalEraPoints i :: evs0) = [i]) as ->.
    { change (DbGetTotalEraPoints i :: evs0)
        with ([DbGetTotalEraPoints i] ++ evs0).
      now rewrite storeReads_app, Hr0. }
    split; [|discriminate].
    exists 1%nat. rewrite (erasDownTo_cons i) by lia. reflexivity.
Qed.

Lemma eraPointsJob_reads chaindata db :
  let activeEra := getActiveEraIndex chaindata in
  (exists n,
      storeReads (jobTrace chaindata db) = firstn n (backfillWindow activeEra))
  /\ (fst (eraPointsJob chaindata (mkWorld db [])) = Ok tt ->
      storeReads (jobTrace chaindata db) = backfillWindow activeEra).
Proof.
  cbv zeta. unfold jobTrace, eraPointsJob, backfillWindow.
  set (activeEra := getActiveEraIndex chaindata). unfold bind.
  destruct (eraLoop_reads (eraPointsStep chaindata) activeEra (activeEra - 1)
              (mkWorld db []) (eraPointsStep_reads chaindata))
    as [evs [Htr [Hn Hall]]].
  destruct (eraLoop _ activeEra (activeEra - 1) (mkWorld db [])) as [[[]|e] w1];
    cbn in Htr, Hall |- *.
  - unfold chainGetTotalEraPoints, bind, emit, ret. cbn.
    match goal with
    | |- context [setTotalEraPoints ?e ?t ?vs ?w0] =>
        destruct (setTotalEraPoints_reads e t vs w0) as [evs2 [Htr2 Hr2]]
    end.
    rewrite Htr2. cbn [w_trace]. rewrite Htr. cbn [app].
    rewrite !storeReads_app, Hr2. cbn. rewrite !app_nil_r.
    rewrite (Hall eq_refl). split; [|intros _; reflexivity].
    exists (List.length (erasDownTo (activeEra - 1)
                           (Z.max 0 (activeEra - 83)))).
    symmetry. apply firstn_all.
  - rewrite Htr. cbn [app]. split; [exact Hn | discriminate].
Qed.

Lemma firstn_In {A} n (l : list A) x : In x (firstn n l) -> In x l.
Proof.
  revert l. induction n as [|n IH]; intros [|y l]; cbn; try tauto.
  intros [->|H]; [now left | right; now apply IH].
Qed.

(** C6, as stated, fails: at active era 84 the "prior 84 eras" are 83 down
    to 0, but the loop stops after era 1. *)
Lemma eraPointsJob_does_not_visit_84_prior_eras :
  ~ visitsPrior84Eras (sampleChain 84) emptyDb
  /\ storeReads (jobTrace (sampleChain 84) emptyDb) = erasDownTo 83 1.
Proof.
  split.
  - unfold visitsPrior84Eras. intros H.
    apply (f_equal (@List.length Z)) in H. vm_compute in H. discriminate.
  - vm_compute. reflexivity.
Qed.

(** A run that throws stops visiting: on a chain at era 3 whose era 2
    reports no validator, the averaging of no points throws at era 2, and
    eras 1 and 0 are not visited. *)
Example eraPointsJob_stops_where_it_throws :
  fst (eraPointsJob gapChain (mkWorld emptyDb []))
  = Throw "TypeError: Reduce of empty array with no initial value"
  /\ storeReads (jobTrace gapChain emptyDb) = [2].
Proof. split; vm_compute; reflexivity. Qed.

(** C6, amended.  With active era `a`, whatever the chain answers and the
    store holds, the eras the backfill loop asks the store about are, in
    this order, `a-1, a-2, ...`, and none of them lies below the larger of
    0 and `a-83`: no negative era is read, and at most the 83 eras before
    the active one (which with the active era, refreshed after the loop,
    make the 84-era window).  A run that returns has asked about exactly
    all of `a-1 .. max(0, a-83)`, down to era 0 when `a < 84`; and a run
    returns whenever the chain answers each era with that era and at least
    one validator, in which case no lookup, query or write of the run
    carries a negative era. *)
Theorem eraPointsJob_backfill_window :
  forall (chaindata : ChainData) (db : Db),
    let activeEra := getActiveEraIndex chaindata in
    let reads := storeReads (jobTrace chaindata db) in
    (exists n, reads = firstn n (backfillWindow activeEra))
    /\ Forall (fun era => 0 <= era /\ activeEra - 83 <= era < activeEra) reads
    /\ (fst (eraPointsJob chaindata (mkWorld db [])) = Ok tt ->
        reads = backfillWindow activeEra)
    /\ (0 <= activeEra -> chainWellFormed chaindata ->
        fst (eraPointsJob chaindata (mkWorld db [])) = Ok tt
        /\ Forall (fun e => 0 <= eventEra e) (jobTrace chaindata db))
    /\ (activeEra < 84 ->
        backfillWindow activeEra = erasDownTo (activeEra - 1) 0).
Proof.
  intros chaindata db activeEra reads.
  destruct (eraPointsJob_reads chaindata db) as [[n Hn] Hall].
  fold activeEra reads in Hn, Hall.
  split; [exists n; exact Hn|]. split; [|split; [exact Hall|split]].
  - rewrite Hn. apply Forall_forall. intros era Hin.
    apply firstn_In in Hin. unfold backfillWindow in Hin.
    apply erasDownTo_bounds in Hin. lia.
  - intros Hera Hwf.
    destruct (eraPointsJob_spec chaindata db Hera Hwf)
      as [Hok [evs [e [Htr [_ [Hf _]]]]]].
    split; [exact Hok|]. now rewrite Htr.
  - intros Hlt. unfold backfillWindow. f_equal. lia.
Qed.

(** At active era 3 on the sample chain the run returns, having asked
    about eras 2, 1 and 0. *)
Lemma eraPointsJob_backfill_window_witness :
  0 <= getActiveEraIndex (sampleChain 3)
  /\ chainWellFormed (sampleChain 3)
  /\ storeReads (jobTrace (sampleChain 3) emptyDb) = [2; 1; 0].
Proof.
  assert (0 <= getActiveEraIndex (sampleChain 3)) as Hera by (cbn; lia).
  split; [exact Hera|]. split; [apply sampleChain_wellFormed|].
  destruct (eraPointsJob_backfill_window (sampleChain 3) emptyDb)
    as [_ [_ [Hall [Hwf _]]]].
  rewrite (Hall (proj1 (Hwf Hera (sampleChain_wellFormed 3)))).
  reflexivity.
Defined.

(** Whatever the store holds, a run of the job issues a write. *)
Lemma eraPointsJob_always_writes chaindata db :
  0 <= getActiveEraIndex chaindata ->
  chainWellFormed chaindata ->
  existsb isWrite (jobTrace chaindata db) = true.
Proof.
  intros Hera Hwf.
  destruct (eraPointsJob_spec chaindata db Hera Hwf)
    as [_ [evs [e [-> [_ [_ He]]]]]].
  rewrite existsb_app. cbn. rewrite He. now rewrite orb_true_r.
Qed.

(** C4, on the code.  Over the store that a first run has filled (every
    era of the window 17..100 holds a TotalEraPoints row with 80000 points
    and a median, and the chain's value for each validator), a second run
    with the same chain state leaves the store as it is, and yet it issues
    one write: the update of the active era's TotalEraPoints row. *)
Theorem eraPointsJob_second_run_still_writes :
  let chaindata := sampleChain 100 in
  let filled := jobStore chaindata emptyDb in
  windowPopulated chaindata filled = true
  /\ filter isWrite (jobTrace chaindata filled) = [DbUpdateTotalEraPoints 100]
  /\ jobStore chaindata filled = filled.
Proof.
  cbv zeta. split; [|split]; vm_compute; reflexivity.
Qed.

(** *** The cron wrappers *)

Lemma cronRun_app cb evs1 evs2 st :
  cronRun cb (evs1 ++ evs2) st = cronRun cb evs2 (cronRun cb evs1 st).
Proof. apply fold_left_app. Qed.

Lemma latched_shape j :
  hasLatch j = true ->
  exists body,
    cronCallback j = ReturnIfRunning :: SetRunning true :: body
    /\ endsByClearing body = true.
Proof.
  destruct j; cbn; intros H; try discriminate H;
    eexists; split; reflexivity.
Qed.

Lemma runSync_latched_tail k r :
  endsByClearing k = true -> latchInvariant (runSync k (mkCron true [] r)).
Proof.
  induction k as [|s k IH]; intros Hk; [discriminate|].
  destruct s as [|b| |what|what|what]; cbn in Hk.
  - destruct k; discriminate.
  - destruct b, k; try discriminate. left. reflexivity.
  - cbn. apply IH. now destruct k.
  - cbn. apply IH. now destruct k.
  - right. cbn. split; [reflexivity|]. eexists. split; [reflexivity|].
    cbn. exact Hk.
  - right. cbn. split; [reflexivity|]. eexists. split; [reflexivity|].
    cbn. exact Hk.
Qed.

Lemma endsByClearing_tail s k :
  plainStmt s = true -> endsByClearing (s :: k) = true ->
  endsByClearing k = true.
Proof.
  intros Hs H. cbn in H. destruct s; try discriminate Hs; now destruct k.
Qed.

Lemma cronStep_latchInvariant j st ev :
  hasLatch j = true ->
  latchInvariant st -> latchInvariant (cronStep (cronCallback j) st ev).
Proof.
  intros Hj Hinv. destruct (latched_shape j Hj) as [body [-> Hbody]].
  destruct st as [run susp rej]. destruct ev as [|n outcome].
  - (* a tick *)
    cbn. destruct run; [exact Hinv|].
    destruct Hinv as [Hs | [Hr _]]; [|discriminate Hr].
    cbn in Hs. subst susp. now apply runSync_latched_tail.
  - (* an await settles *)
    destruct Hinv as [Hs | [Hr [k [Hs Hk]]]]; cbn in *; subst.
    + destruct n; left; reflexivity.
    + destruct n as [|n]; cbn; [|destruct n; right; cbn; eauto].
      destruct k as [|s k']; [discriminate|].
      destruct s as [|b| |what|what|what]; try (left; reflexivity).
      * destruct outcome.
        -- apply runSync_latched_tail.
           now apply (endsByClearing_tail (Await what)).
        -- left. reflexivity.
      * apply runSync_latched_tail.
        now apply (endsByClearing_tail (TryAwait what)).
Qed.

Lemma jobAfter_latchInvariant j evs :
  hasLatch j = true -> latchInvariant (jobAfter j evs).
Proof.
  intros Hj. unfold jobAfter.
  induction evs as [|ev evs IH] using rev_ind.
  - left. reflexivity.
  - rewrite cronRun_app. cbn. now apply cronStep_latchInvariant.
Qed.

(** C1, as stated, fails: the Execution job has no latch, and a tick that
    fires while its body is suspended starts a second body. *)
Lemma execution_job_overlaps_itself :
  ~ (forall j, nonReentrant j)
  /\ ~ nonReentrant Execution
  /\ List.length (suspended (jobAfter Execution [Tick; Tick])) = 2%nat.
Proof.
  assert (~ nonReentrant Execution) as Hex.
  { intros H. specialize (H [Tick]).
    assert (suspended (jobAfter Execution [Tick]) <> [])
      as Hbusy by (vm_compute; discriminate).
    apply H in Hbusy. unfold tickDropped in Hbusy.
    apply (f_equal (fun st => List.length (suspended st))) in Hbusy.
    vm_compute in Hbusy. discriminate. }
  split; [|split].
  - intros H. apply Hex, H.
  - exact Hex.
  - reflexivity.
Qed.

(** At the level of the callback, every job that carries the latch has at
    most one invocation in flight and drops the ticks that fire meanwhile. *)
Lemma latched_callbacks_drop_ticks j :
  hasLatch j = true ->
  nonReentrant j
  /\ forall evs, (List.length (suspended (jobAfter j evs)) <= 1)%nat.
Proof.
  intros Hj. split.
  - intros evs Hbusy. unfold tickDropped.
    destruct (jobAfter_latchInvariant j evs Hj) as [Hs | [Hr _]];
      [contradiction|].
    destruct (latched_shape j Hj) as [body [-> _]].
    cbn. now rewrite Hr.
  - intros evs.
    destruct (jobAfter_latchInvariant j evs Hj) as [-> | [_ [k [-> _]]]];
      cbn; lia.
Qed.

(** The jobs whose latch covers the body: the latched ones but Score. *)
Example jobs_whose_latch_covers_the_body :
  filter latchCoversBody allJobs
  = [Validity; EraStats; EraPointsJob; ActiveValidator; Inclusion;
     SessionKey; UnclaimedEras; ValidatorPref; ExtNominations]
  /\ hasLatch Score = true
  /\ detachedCalls (jobBody Score) = ["constraints.scoreAllCandidates"].
Proof. repeat split. Qed.

(** The Score job is latched, and yet its scoring overlaps itself: the
    callback's await settles as soon as `scoreJob` has returned, the latch
    comes down, and the next tick starts a second scoring while the first
    is still in progress. *)
Lemma score_job_overlaps_its_scoring :
  scoreAfter [ScoreCron Tick; ScoreCron (Settle 0 Fulfilled)]
  = mkScoreState initialCron 1
  /\ sc_scorings
       (scoreAfter [ScoreCron Tick; ScoreCron (Settle 0 Fulfilled);
                    ScoreCron Tick])
     = 2%nat.
Proof. split; reflexivity. Qed.

(** C1, amended.  For each job whose callback carries the latch and whose
    function awaits all of its work (Validity, EraStats, EraPoints,
    ActiveValidator, Inclusion, SessionKey, UnclaimedEras, ValidatorPref,
    ExtNominations), after any sequence of ticks and settled awaits at most
    one invocation is in flight, and a tick that fires while one is in
    flight leaves the job exactly as it was: no second body starts and
    nothing is queued. *)
Theorem covered_jobs_drop_overlapping_ticks :
  forall j : JobName,
    latchCoversBody j = true ->
    detachedCalls (jobBody j) = []
    /\ nonReentrant j
    /\ forall evs, (List.length (suspended (jobAfter j evs)) <= 1)%nat.
Proof.
  intros j Hj. unfold latchCoversBody in Hj.
  apply andb_true_iff in Hj. destruct Hj as [Hlatch Hbody].
  split.
  - destruct (detachedCalls (jobBody j)); [reflexivity | discriminate].
  - now apply latched_callbacks_drop_ticks.
Qed.

(** The Validity job: a tick during its first await is dropped, and three
    ticks in a row leave one invocation in flight. *)
Lemma covered_jobs_drop_overlapping_ticks_witness :
  latchCoversBody Validity = true
  /\ tickDropped Validity (jobAfter Validity [Tick])
  /\ (List.length (suspended (jobAfter Validity [Tick; Tick; Tick])) <= 1)%nat.
Proof.
  destruct (covered_jobs_drop_overlapping_ticks Validity eq_refl)
    as [_ [Hdrop Hone]].
  split; [reflexivity|]. split.
  - apply (Hdrop [Tick]). vm_compute. discriminate.
  - apply (Hone [Tick; Tick; Tick]).
Defined.

(** The jobs without the latch. *)
Example unlatched_jobs :
  filter (fun j => negb (hasLatch j)) allJobs
  = [Monitor; ClearOffline; Execution; RewardClaim; Cancel; Stale].
Proof. reflexivity. Qed.

Lemma stuck_latch_ignores_ticks cb r n :
  cronRun (ReturnIfRunning :: cb) (repeat Tick n) (mkCron true [] r)
  = mkCron true [] r.
Proof.
  induction n as [|n IH]; [reflexivity|]. cbn. exact IH.
Qed.

(** C3, on the code.  In the Validity job a body that fails, at either of
    its awaits, leaves `running` set with nothing in flight, and every later
    tick is dropped: the job never runs again.  The same holds of the other
    latched jobs without a `try`; only the era points job, whose body runs
    inside `try`/`catch`, clears the flag and starts again at the next
    tick. *)
Theorem failing_body_leaves_latch_set :
  (forall n,
      jobAfter Validity ([Tick; Settle 0 Rejected] ++ repeat Tick n)
      = mkCron true [] 1
      /\ jobAfter Validity
           ([Tick; Settle 0 Fulfilled; Settle 0 Rejected] ++ repeat Tick n)
         = mkCron true [] 1)
  /\ Forall (fun j => ~ recoversFromFailure j) latchedWithoutCatch
  /\ recoversFromFailure EraPointsJob
  /\ jobAfter EraPointsJob [Tick; Settle 0 Rejected] = mkCron false [] 0.
Proof.
  split; [|split; [|split]].
  - intros n. unfold jobAfter. rewrite !cronRun_app. split.
    + change (cronRun (cronCallback Validity) [Tick; Settle 0 Rejected]
                initialCron) with (mkCron true [] 1).
      apply stuck_latch_ignores_ticks.
    + change (cronRun (cronCallback Validity)
                [Tick; Settle 0 Fulfilled; Settle 0 Rejected] initialCron)
        with (mkCron true [] 1).
      apply stuck_latch_ignores_ticks.
  - unfold latchedWithoutCatch.
    repeat constructor; intros H; apply H; reflexivity.
  - unfold recoversFromFailure. vm_compute. discriminate.
  - reflexivity.
Qed.

(** ** Further properties of the store *)

Section MoreCollectionFacts.
Context {A B : Type}.
Implicit Types (q : A -> bool) (u : A -> A) (f : A -> B) (coll : list A).

Lemma map_update_outside f q u coll :
  (forall d, f (u d) = f d) ->
  map f (findOneAndUpdate q u coll) = map f coll.
Proof.
  intros Hf. induction coll as [|x rest IH]; simpl; [reflexivity|].
  destruct (q x); simpl; [now rewrite Hf | now rewrite IH].
Qed.

Lemma NoDup_map_inj f coll a b :
  NoDup (map f coll) -> In a coll -> In b coll -> f a = f b -> a = b.
Proof.
  induction coll as [|x rest IH]; simpl; [tauto|].
  intros Hnd Ha Hb Hab. inversion Hnd as [|? ? Hnotin Hnd']; subst.
  destruct Ha as [->|Ha], Hb as [->|Hb]; auto.
  - exfalso. apply Hnotin. rewrite Hab. now apply in_map.
  - exfalso. apply Hnotin. rewrite <- Hab. now apply in_map.
Qed.

Lemma findOne_none_forall q coll :
  findOne q coll = None -> forall d, In d coll -> q d = false.
Proof. intros H d Hd. exact (find_none q coll H d Hd). Qed.

Lemma deleteOne_none q coll :
  findOne q coll = None -> deleteOne q coll = coll.
Proof.
  unfold findOne. induction coll as [|x rest IH]; simpl; [reflexivity|].
  destruct (q x); [discriminate|]. intros H. now rewrite IH.
Qed.

(** Two lookups that find the same document find it at the same place: an
    update addressed by one is seen by the other. *)
Lemma findOne_after_update_other (q1 q2 : A -> bool) u coll d :
  findOne q1 coll = Some d -> findOne q2 coll = Some d ->
  q2 (u d) = true ->
  findOne q2 (findOneAndUpdate q1 u coll) = Some (u d).
Proof.
  unfold findOne. induction coll as [|x rest IH]; simpl; [discriminate|].
  destruct (q1 x) eqn:H1, (q2 x) eqn:H2; simpl.
  - intros [= ->] _ Hq. now rewrite Hq.
  - intros [= ->] Hf2 _. apply find_some in Hf2. destruct Hf2 as [_ Hf2].
    congruence.
  - intros Hf1 [= ->] _. apply find_some in Hf1. destruct Hf1 as [_ Hf1].
    congruence.
  - rewrite H2. auto.
Qed.
End MoreCollectionFacts.

Lemma byName_miss_not_in name cands :
  findOne (byName name) cands = None -> ~ In name (map c_name cands).
Proof.
  intros Hnone Hin. apply in_map_iff in Hin. destruct Hin as [c [Hc Hin]].
  pose proof (findOne_none_forall _ _ Hnone c Hin) as Hq.
  unfold byName in Hq. rewrite Hc, String.eqb_refl in Hq. discriminate.
Qed.

Lemma update_keeps_names q u cands :
  (forall c, c_name (u c) = c_name c) ->
  NoDup (map c_name cands) ->
  NoDup (map c_name (findOneAndUpdate q u cands)).
Proof. intros Hu H. now rewrite map_update_outside. Qed.

Lemma save_keeps_names c cands :
  findOne (byName (c_name c)) cands = None ->
  NoDup (map c_name cands) ->
  NoDup (map c_name (save c cands)).
Proof.
  intros Hnone Hnd. unfold save. rewrite map_app. cbn.
  rewrite <- (rev_involutive (map c_name cands ++ [c_name c])).
  apply NoDup_rev. rewrite rev_app_distr. cbn. constructor.
  - rewrite <- in_rev. now apply byName_miss_not_in.
  - now apply NoDup_rev.
Qed.

(** With unique names, an update addressed by name rewrites the one
    document of that name. *)
Lemma update_by_name_map name u cands :
  NoDup (map c_name cands) ->
  findOneAndUpdate (byName name) u cands
  = map (fun c => if String.eqb (c_name c) name then u c else c) cands.
Proof.
  induction cands as [|x rest IH]; simpl; [reflexivity|].
  intros Hnd. inversion Hnd as [|? ? Hnotin Hnd']; subst.
  unfold byName at 1. destruct (String.eqb (c_name x) name) eqn:E.
  - f_equal. apply String.eqb_eq in E. subst name.
    symmetry. rewrite <- (map_id rest) at 2. apply map_ext_in.
    intros c Hc. destruct (String.eqb (c_name c) (c_name x)) eqn:E'; auto.
    apply String.eqb_eq in E'. exfalso. apply Hnotin. rewrite <- E'.
    now apply in_map.
  - f_equal. now apply IH.
Qed.

(** A loop that, for each document [s] of a snapshot passing [cond], runs an
    update by the name of [s], amounts to one pass over the collection. *)
Lemma update_loop_map (cond : Candidate -> bool) (u : Candidate -> Candidate)
    snapshot db :
  (forall c, c_name (u c) = c_name c) ->
  (forall c, u (u c) = u c) ->
  namesUnique db ->
  candidateModel
    (fold_left
       (fun db s =>
          if cond s then
            set_candidates
              (findOneAndUpdate (byName (c_name s)) u (candidateModel db)) db
          else db)
       snapshot db)
  = map (fun c =>
           if existsb (fun s => cond s && String.eqb (c_name c) (c_name s))
                snapshot
           then u c else c)
      (candidateModel db).
Proof.
  intros Hname Hidem. unfold namesUnique. revert db.
  induction snapshot as [|s rest IH]; intros db Hnd; cbn [fold_left existsb].
  - cbn. now rewrite map_id.
  - rewrite IH.
    + destruct (cond s) eqn:Hs; cbn [candidateModel set_candidates andb orb].
      * rewrite (update_by_name_map _ _ _ Hnd), map_map.
        apply map_ext. intros c.
        destruct (String.eqb (c_name c) (c_name s)) eqn:E; cbn [orb].
        -- rewrite Hname.
           destruct (existsb _ rest); [apply Hidem | reflexivity].
        -- reflexivity.
      * reflexivity.
    + destruct (cond s); cbn [candidateModel set_candidates]; [|exact Hnd].
      now apply update_keeps_names.
Qed.

Lemma snapshot_hits_itself (keep cond : Candidate -> bool) cands c :
  NoDup (map c_name cands) -> In c cands ->
  existsb (fun s => cond s && String.eqb (c_name c) (c_name s))
    (filter keep cands)
  = keep c && cond c.
Proof.
  intros Hnd Hc.
  destruct (existsb _ (filter keep cands)) eqn:E.
  - apply existsb_exists in E. destruct E as [s [Hs Hq]].
    apply filter_In in Hs. destruct Hs as [Hs Hk].
    apply andb_true_iff in Hq. destruct Hq as [Hcond Hn].
    apply String.eqb_eq in Hn.
    rewrite (NoDup_map_inj c_name cands c s Hnd Hc Hs Hn).
    now rewrite Hk, Hcond.
  - destruct (keep c) eqn:Hk; [|reflexivity].
    destruct (cond c) eqn:Hcond; [|reflexivity].
    exfalso. rewrite <- not_true_iff_false in E. apply E.
    apply existsb_exists. exists c. split.
    + apply filter_In. now split.
    + now rewrite Hcond, String.eqb_refl.
Qed.

Lemma fold_left_keeps {S T : Type} (P : S -> Prop) (f : S -> T -> S) l s :
  (forall s x, P s -> P (f s x)) -> P s -> P (fold_left f l s).
Proof.
  intros Hf. revert s. induction l as [|x l IH]; intros s Hs; cbn; auto.
Qed.

Lemma writeInvalidity_names ty failure address validity dateNow db :
  namesUnique db ->
  namesUnique (writeInvalidity ty failure address validity dateNow db).
Proof.
  unfold namesUnique, writeInvalidity. intros H.
  destruct (findOne _ _); [|exact H]. cbn.
  now apply update_keeps_names.
Qed.

Lemma reportOnline_names telemetryId name version now t1 t2 db :
  namesUnique db ->
  namesUnique (reportOnline telemetryId name version now t1 t2 db).
Proof.
  unfold namesUnique, reportOnline. intros H.
  destruct (findOne (byName name) (candidateModel db)) as [data|] eqn:Hf; cbn.
  - repeat match goal with
           | |- NoDup (map c_name (if ?b then _ else _)) => destruct b
           | |- NoDup (map c_name (findOneAndUpdate _ _ _)) =>
               apply update_keeps_names; [reflexivity|]
           end; exact H.
  - apply save_keeps_names; [exact Hf | exact H].
Qed.

Lemma addCandidate_names encodeAddress name stash kusamaStash skip bio db db' :
  namesUnique db ->
  addCandidate encodeAddress name stash kusamaStash skip bio db = Some db' ->
  namesUnique db'.
Proof.
  unfold namesUnique, addCandidate. intros H Hadd.
  destruct (getChainMetadata db); [|discriminate].
  destruct (encodeAddress stash _); [|discriminate].
  destruct (findOne (byName name) (candidateModel db)) eqn:Hf;
    injection Hadd as <-; cbn.
  - now apply update_keeps_names.
  - apply save_keeps_names; [exact Hf | exact H].
Qed.

(** X1.  No store method creates a second document under a name in use:
    `reportOnline`, `addCandidate`, `reportOffline`, `reportBestBlock`, the
    invalidity setters (through their shared body), `pushRankEvent`,
    `pushFaultEvent`, `clearAccumulated` and `clearCandidates` all keep the
    names of the candidate collection pairwise distinct. *)
Theorem candidate_names_stay_unique :
  forall (numberToString : Q -> string)
         (bareIdFilter : Z -> Candidate -> bool)
         (encodeAddress : string -> Z -> option string) (db : Db),
    namesUnique db ->
    (forall telemetryId name version now dateNow1 dateNow2,
        namesUnique
          (reportOnline telemetryId name version now dateNow1 dateNow2 db))
    /\ (forall name stash kusamaStash skipSelfStake bio db',
           addCandidate encodeAddress name stash kusamaStash skipSelfStake bio
             db = Some db' ->
           namesUnique db')
    /\ (forall telemetryId name now dateNow,
           namesUnique
             (reportOffline numberToString telemetryId name now dateNow db))
    /\ (forall telemetryId now dateNow,
           namesUnique
             (fst (reportBestBlock bareIdFilter telemetryId now dateNow db)))
    /\ (forall ty failure address validity dateNow,
           namesUnique
             (writeInvalidity ty failure address validity dateNow db))
    /\ (forall stash startEra activeEra dateNow,
           namesUnique
             (fst (pushRankEvent stash startEra activeEra dateNow db)))
    /\ (forall stash reason dateNow,
           namesUnique (fst (pushFaultEvent stash reason dateNow db)))
    /\ namesUnique (clearAccumulated db)
    /\ namesUnique (clearCandidates db).
Proof.
  intros numberToString bareIdFilter encodeAddress db H.
  repeat match goal with |- _ /\ _ => split end.
  - intros. now apply reportOnline_names.
  - intros. eapply addCandidate_names; eauto.
  - intros. unfold namesUnique, reportOffline.
    destruct (findOne _ _); [|exact H].
    destruct (Z.ltb _ _); cbn; now apply update_keeps_names.
  - intros. unfold namesUnique, reportBestBlock.
    destruct (findOne _ _); [|exact H].
    destruct (truthyNum _); [|exact H]. cbn. now apply update_keeps_names.
  - intros. now apply writeInvalidity_names.
  - intros. unfold namesUnique, pushRankEvent.
    destruct (findOne _ _); [|exact H].
    destruct (scanFor _ _); [exact H|]. cbn. now apply update_keeps_names.
  - intros. unfold namesUnique, pushFaultEvent.
    destruct (findOne _ _); [|exact H].
    destruct (scanFor _ _); [exact H|]. cbn. now apply update_keeps_names.
  - unfold clearAccumulated. apply fold_left_keeps; [|exact H].
    intros s x Hs. destruct (Z.ltb _ _); [|exact Hs].
    unfold namesUnique. cbn. now apply update_keeps_names.
  - unfold clearCandidates. apply fold_left_keeps; [|exact H].
    intros s x Hs. unfold namesUnique. cbn. now apply update_keeps_names.
Qed.

Lemma sampleDb_names : namesUnique sampleDb.
Proof. repeat constructor. intros []. Defined.

(** The sample store has distinct names, and keeps them when telemetry
    reports a new node and when that name is registered. *)
Lemma candidate_names_stay_unique_witness :
  namesUnique sampleDb
  /\ namesUnique (reportOnline 9 "bob" "0.9.13" 5000 5001 5002 sampleDb)
  /\ namesUnique sampleDbWithBob.
Proof.
  split; [exact sampleDb_names|].
  pose proof (candidate_names_stay_unique sampleNumberToString
                (fun _ _ => true) sampleEncodeAddress sampleDb sampleDb_names)
    as [Hon _].
  split; [exact (Hon 9 "bob" "0.9.13" 5000 5001 5002)|].
  pose proof (candidate_names_stay_unique sampleNumberToString
                (fun _ _ => true) sampleEncodeAddress
                (reportOnline 9 "bob" "0.9.13" 5000 5001 5002 sampleDb)
                (Hon 9 "bob" "0.9.13" 5000 5001 5002))
    as [_ [Hadd _]].
  apply (Hadd "bob" "StashB" "KsmB" false "").
  vm_compute. reflexivity.
Defined.

(** X2.  With distinct names, `clearAccumulated` is one pass over the
    collection: a document with a stash and a positive `offlineAccumulated`
    gets 0 there, every other document is left as it is.  Afterwards no
    document with a stash has a positive `offlineAccumulated`; documents
    without a stash (nodes only seen by telemetry) keep theirs. *)
Theorem clearAccumulated_resets_registered_candidates :
  forall db : Db,
    namesUnique db ->
    candidateModel (clearAccumulated db)
    = map clearedAccumulated (candidateModel db)
    /\ Forall (fun c => c_stash c <> None ->
                        orZero (c_offlineAccumulated c) <= 0)
         (candidateModel (clearAccumulated db))
    /\ findAll (fun c => negb (stashIsString c))
         (candidateModel (clearAccumulated db))
       = findAll (fun c => negb (stashIsString c)) (candidateModel db).
Proof.
  intros db Hnd.
  assert (candidateModel (clearAccumulated db)
          = map clearedAccumulated (candidateModel db)) as Heq.
  { unfold clearAccumulated.
    rewrite (update_loop_map
               (fun c => Z.ltb 0 (orZero (c_offlineAccumulated c)))
               (patch [set_offlineAccumulated (Some 0)])
               (allCandidates db) db) by (reflexivity || exact Hnd).
    apply map_ext_in. intros c Hc. unfold allCandidates, findAll.
    rewrite (snapshot_hits_itself stashIsString _ _ c Hnd Hc).
    reflexivity. }
  split; [exact Heq|]. rewrite Heq. split.
  - apply Forall_forall. intros c' Hc'. apply in_map_iff in Hc'.
    destruct Hc' as [c [<- _]]. unfold clearedAccumulated, stashIsString.
    destruct (c_stash c) eqn:Hs; cbn [andb].
    + destruct (Z.ltb 0 (orZero (c_offlineAccumulated c))) eqn:E; cbn.
      * intros _. lia.
      * intros _. apply Z.ltb_ge in E. exact E.
    + rewrite Hs. intros Hne. now contradiction Hne.
  - unfold findAll. clear Heq Hnd. generalize (candidateModel db) as l.
    induction l as [|c rest IH]; [reflexivity|].
    cbn [map filter]. rewrite IH. unfold clearedAccumulated at 1 2.
    unfold stashIsString.
    destruct (c_stash c) eqn:Hs; cbn [andb negb].
    + destruct (Z.ltb 0 _); cbn; rewrite Hs; reflexivity.
    + rewrite Hs. reflexivity.
Qed.

(** The sample store with 900 ms accumulated for "alice". *)
Lemma clearAccumulated_witness :
  namesUnique sampleDb
  /\ map c_offlineAccumulated
       (candidateModel
          (clearAccumulated
             (set_candidates [set_offlineAccumulated (Some 900) sampleCandidate]
                sampleDb)))
     = [Some 0].
Proof.
  split; [exact sampleDb_names|].
  assert (namesUnique
            (set_candidates [set_offlineAccumulated (Some 900) sampleCandidate]
               sampleDb)) as Hnd by exact sampleDb_names.
  destruct (clearAccumulated_resets_registered_candidates _ Hnd) as [-> _].
  reflexivity.
Defined.

(** X3.  With distinct names, `clearCandidates` unsets the stash of every
    document that had one (and zeroes its offline counters), so that
    `allCandidates` is empty afterwards; no document is removed. *)
Theorem clearCandidates_empties_allCandidates :
  forall db : Db,
    namesUnique db ->
    candidateModel (clearCandidates db)
    = map clearedCandidate (candidateModel db)
    /\ allCandidates (clearCandidates db) = []
    /\ map c_name (allNodes (clearCandidates db)) = map c_name (allNodes db).
Proof.
  intros db Hnd.
  assert (candidateModel (clearCandidates db)
          = map clearedCandidate (candidateModel db)) as Heq.
  { unfold clearCandidates.
    pose proof (update_loop_map (fun _ => true)
                  (patch [set_stash None; set_offlineSince (Some 0);
                          set_offlineAccumulated (Some 0)])
                  (allCandidates db) db) as H.
    cbv beta iota in H. rewrite H by (reflexivity || exact Hnd).
    apply map_ext_in. intros c Hc. unfold allCandidates, findAll.
    rewrite (snapshot_hits_itself stashIsString (fun _ => true) _ c Hnd Hc).
    rewrite andb_true_r. reflexivity. }
  split; [exact Heq|]. split.
  - unfold allCandidates, findAll. rewrite Heq.
    clear Heq Hnd. generalize (candidateModel db) as l.
    induction l as [|c rest IH]; [reflexivity|].
    cbn [map filter]. rewrite IH. unfold clearedCandidate, stashIsString.
    destruct (c_stash c) eqn:Hs; cbn; [reflexivity|]. now rewrite Hs.
  - unfold allNodes, findAll. rewrite Heq.
    clear Heq Hnd. generalize (candidateModel db) as l.
    induction l as [|c rest IH]; [reflexivity|].
    cbn [map filter]. rewrite IH. f_equal.
    unfold clearedCandidate. now destruct (stashIsString c).
Qed.

Lemma clearCandidates_witness :
  namesUnique sampleDbWithBob
  /\ allCandidates (clearCandidates sampleDbWithBob) = []
  /\ List.length (allNodes (clearCandidates sampleDbWithBob)) = 2%nat.
Proof.
  assert (namesUnique sampleDbWithBob) as Hnd.
  { repeat constructor; cbn; intuition discriminate. }
  split; [exact Hnd|].
  destruct (clearCandidates_empties_allCandidates _ Hnd) as [_ [Hall Hnodes]].
  split; [exact Hall|].
  rewrite <- (length_map c_name), Hnodes. reflexivity.
Defined.

Lemma findOne_exists {A} (q : A -> bool) coll d :
  In d coll -> q d = true -> exists d', findOne q coll = Some d' /\ q d' = true.
Proof.
  intros Hin Hq. destruct (findOne q coll) as [d'|] eqn:Hf.
  - exists d'. split; [reflexivity|]. eapply findOne_holds, Hf.
  - rewrite (findOne_none_forall _ _ Hf d Hin) in Hq. discriminate.
Qed.

Lemma byStash_holds stash c : byStash stash c = true -> c_stash c = Some stash.
Proof.
  unfold byStash. destruct (c_stash c); [|discriminate].
  intros H. apply String.eqb_eq in H. now subst.
Qed.

(** X4.  After a successful `addCandidate(name, stash, ...)` the name
    resolves (`getNodeByName`) to a document that carries the encoded stash
    and the given Kusama stash, and `getCandidate` called with the encoded
    stash returns a document with that stash. *)
Theorem addCandidate_then_lookup :
  forall (encodeAddress : string -> Z -> option string)
         (name stash kusamaStash : string) (skipSelfStake : bool)
         (bio : string) (db db' : Db),
    addCandidate encodeAddress name stash kusamaStash skipSelfStake bio db
    = Some db' ->
    exists encoded c byName,
      encodeAddress stash
        (match getChainMetadata db with
         | Some m => if String.eqb (cm_name m) "Kusama" then 2 else 0
         | None => 0
         end) = Some encoded
      /\ getNodeByName name db' = Some byName
      /\ c_name byName = name
      /\ c_stash byName = Some encoded
      /\ c_kusamaStash byName = Some kusamaStash
      /\ getCandidate encoded db' = Some c
      /\ c_stash c = Some encoded.
Proof.
  intros encodeAddress name stash kusamaStash skipSelfStake bio db db' Hadd.
  unfold addCandidate in Hadd.
  destruct (getChainMetadata db) as [m|]; [|discriminate].
  destruct (encodeAddress stash _) as [encoded|] eqn:Henc; [|discriminate].
  exists encoded.
  assert (exists d, getNodeByName name db' = Some d /\ c_name d = name
                    /\ c_stash d = Some encoded
                    /\ c_kusamaStash d = Some kusamaStash) as [d [Hd [Hn [Hs Hk]]]].
  { unfold getNodeByName.
    destruct (findOne (byName name) (candidateModel db)) as [old|] eqn:Hf;
      injection Hadd as <-; cbn [candidateModel set_candidates].
    - eexists. split.
      + apply findOne_after_update; [exact Hf|].
        apply findOne_holds in Hf. exact Hf.
      + cbn. apply findOne_holds in Hf. unfold byName in Hf.
        apply String.eqb_eq in Hf. auto.
    - eexists. split.
      + rewrite (findOne_save_miss _ _ _ Hf). unfold findOne. cbn.
        unfold byName. cbn. now rewrite String.eqb_refl.
      + cbn. auto. }
  assert (exists c, findOne (byStash encoded) (candidateModel db') = Some c
                    /\ byStash encoded c = true) as [c [Hc Hcs]].
  { apply (findOne_exists _ _ d).
    - eapply findOne_In. exact Hd.
    - unfold byStash. rewrite Hs. apply String.eqb_refl. }
  exists c, d. repeat split; auto.
  - unfold getCandidate. now rewrite Hc.
  - now apply byStash_holds.
Qed.

Lemma addCandidate_then_lookup_witness :
  exists c,
    getCandidate "StashB" sampleDbWithBob = Some c
    /\ c_stash c = Some "StashB".
Proof.
  assert (addCandidate sampleEncodeAddress "bob" "StashB" "KsmB" false ""
            (reportOnline 9 "bob" "0.9.13" 5000 5001 5002 sampleDb)
          = Some sampleDbWithBob) as Hbob by (vm_compute; reflexivity).
  destruct (addCandidate_then_lookup _ _ _ _ _ _ _ _ Hbob)
    as [encoded [c [d [Henc [_ [_ [_ [_ [Hc Hs]]]]]]]]].
  injection Henc as <-. exists c. split; [exact Hc | exact Hs].
Defined.

(** X5.  `setChainMetadata` writes the singleton only when there is none:
    the network prefix picks the name and the decimals (2: Kusama, 12;
    0: Polkadot, 10; otherwise Local Testnet, 12), and once a record exists
    a later call, whatever its prefix, leaves the store as it is. *)
Theorem setChainMetadata_first_write_wins :
  forall (networkPrefix other : Z) (db : Db),
    getChainMetadata (setChainMetadata networkPrefix db)
    = match getChainMetadata db with
      | Some m => Some m
      | None =>
          Some (if Z.eqb networkPrefix 2 then mkChainMetadata "Kusama" 12
                else if Z.eqb networkPrefix 0 then mkChainMetadata "Polkadot" 10
                else mkChainMetadata "Local Testnet" 12)
      end
    /\ setChainMetadata other (setChainMetadata networkPrefix db)
       = setChainMetadata networkPrefix db.
Proof.
  intros networkPrefix other db.
  unfold setChainMetadata, getChainMetadata, findOne.
  destruct (chainMetadataModel db) as [|m rest] eqn:Hm; cbn.
  - split.
    + destruct (Z.eqb networkPrefix 2); [reflexivity|].
      destruct (Z.eqb networkPrefix 0); reflexivity.
    + reflexivity.
  - rewrite Hm. cbn. split; reflexivity.
Qed.

(** *** Rank and fault events *)

Lemma findOneAndUpdate_Forall_found {A} (P : A -> Prop) (q : A -> bool) u
    coll d :
  Forall P coll -> findOne q coll = Some d -> P (u d) ->
  Forall P (findOneAndUpdate q u coll).
Proof.
  unfold findOne. intros Hall. induction Hall as [|x rest Hx Hrest IH]; cbn.
  - discriminate.
  - destruct (q x).
    + intros [= ->] Hu. now constructor.
    + intros Hf Hu. constructor; auto.
Qed.

Lemma NoDup_snoc {A} (l : list A) x : NoDup l -> ~ In x l -> NoDup (l ++ [x]).
Proof.
  intros Hnd Hx. rewrite <- (rev_involutive (l ++ [x])).
  apply NoDup_rev. rewrite rev_app_distr. cbn. constructor.
  - now rewrite <- in_rev.
  - now apply NoDup_rev.
Qed.

Lemma existsb_false_not_in {A B} (f : A -> B) (eqb : B -> B -> bool) l x :
  (forall a b, eqb a b = true <-> a = b) ->
  existsb (fun e => eqb (f e) x) l = false -> ~ In x (map f l).
Proof.
  intros Heq Hex Hin. apply in_map_iff in Hin. destruct Hin as [e [He Hin]].
  rewrite <- not_true_iff_false in Hex. apply Hex.
  apply existsb_exists. exists e. split; [exact Hin|]. now apply Heq.
Qed.

(** X6.  `pushRankEvent` and `pushFaultEvent` keep each candidate's
    histories free of duplicates: at most one rank event per start era and
    at most one fault event per reason. *)
Theorem event_histories_stay_duplicate_free :
  forall (stash reason : string) (startEra activeEra dateNow : Z) (db : Db),
    eventsUnique db ->
    eventsUnique (fst (pushRankEvent stash startEra activeEra dateNow db))
    /\ eventsUnique (fst (pushFaultEvent stash reason dateNow db)).
Proof.
  intros stash reason startEra activeEra dateNow db H.
  unfold eventsUnique, pushRankEvent, pushFaultEvent.
  destruct (findOne (byStash stash) (candidateModel db)) as [record|] eqn:Hf;
    [|split; exact H].
  pose proof (findOne_Forall _ _ _ _ H Hf) as [Hr Hfe]. cbn in Hr, Hfe.
  rewrite !scanFor_existsb. split.
  - destruct (existsb _ (c_rankEvents record)) eqn:E; [exact H|]. cbn.
    apply (findOneAndUpdate_Forall_found _ _ _ _ record H Hf). cbn.
    split; [|exact Hfe]. rewrite map_app. cbn. apply NoDup_snoc; [exact Hr|].
    apply (existsb_false_not_in re_startEra Z.eqb); [apply Z.eqb_eq | exact E].
  - destruct (existsb _ (c_faultEvents record)) eqn:E; [exact H|]. cbn.
    apply (findOneAndUpdate_Forall_found _ _ _ _ record H Hf). cbn.
    split; [exact Hr|]. rewrite map_app. cbn. apply NoDup_snoc; [exact Hfe|].
    apply (existsb_false_not_in fe_reason String.eqb);
      [apply String.eqb_eq | exact E].
Qed.

Lemma event_histories_witness :
  eventsUnique sampleDb
  /\ eventsUnique (fst (pushRankEvent "StashA" 11 14 2000 sampleDb))
  /\ eventsUnique (fst (pushFaultEvent "StashA" "offline" 2000 sampleDb)).
Proof.
  assert (eventsUnique sampleDb) as H.
  { repeat constructor; cbn; intuition discriminate. }
  split; [exact H|].
  exact (event_histories_stay_duplicate_free "StashA" "offline" 11 14 2000
           sampleDb H).
Defined.

(** *** Delayed transactions *)

Lemma deleteOne_filter_same {A} (q : A -> bool) coll :
  filter q (deleteOne q coll) = tl (filter q coll).
Proof.
  induction coll as [|x rest IH]; cbn; [reflexivity|].
  destruct (q x) eqn:E; cbn; [reflexivity|]. now rewrite E.
Qed.

Lemma deleteOne_filter_other {A} (q p : A -> bool) coll :
  (forall x, q x = true -> p x = false) ->
  filter p (deleteOne q coll) = filter p coll.
Proof.
  intros Hqp. induction coll as [|x rest IH]; cbn; [reflexivity|].
  destruct (q x) eqn:E; cbn.
  - now rewrite (Hqp x E).
  - now rewrite IH.
Qed.

Lemma deleteOne_save_fresh {A} (q : A -> bool) d coll :
  findOne q coll = None -> q d = true -> deleteOne q (save d coll) = coll.
Proof.
  unfold findOne, save. induction coll as [|x rest IH]; cbn.
  - intros _ ->. reflexivity.
  - destruct (q x); [discriminate|]. intros Hf Hq. now rewrite IH.
Qed.

(** X7.  `deleteDelayedTx(number, controller)` removes one row, the oldest
    one stored under that (number, controller), and no row under another
    key.  Adding a transaction under a key that has no row and deleting it
    again gives back the store. *)
Theorem deleteDelayedTx_removes_the_oldest_row :
  forall (number : Z) (controller : string) (db : Db),
    delayedRows number controller (deleteDelayedTx number controller db)
    = tl (delayedRows number controller db)
    /\ (forall number' controller',
           number' <> number \/ controller' <> controller ->
           delayedRows number' controller'
             (deleteDelayedTx number controller db)
           = delayedRows number' controller' db)
    /\ (forall targets callHash,
           delayedRows number controller db = [] ->
           deleteDelayedTx number controller
             (fst (addDelayedTx false number controller targets callHash db))
           = db).
Proof.
  intros number controller db. split; [|split].
  - unfold delayedRows, deleteDelayedTx. cbn. apply deleteOne_filter_same.
  - intros number' controller' Hne. unfold delayedRows, deleteDelayedTx. cbn.
    apply deleteOne_filter_other. intros x Hx.
    unfold sameDelayedKey in *.
    apply andb_true_iff in Hx. destruct Hx as [H1 H2].
    apply Z.eqb_eq in H1. apply String.eqb_eq in H2.
    rewrite H1, H2. apply andb_false_iff.
    destruct Hne as [Hne|Hne]; [left; apply Z.eqb_neq | right; apply String.eqb_neq];
      congruence.
  - intros targets callHash Hnone.
    unfold deleteDelayedTx, addDelayedTx. cbn.
    rewrite deleteOne_save_fresh.
    + now destruct db.
    + unfold delayedRows in Hnone. unfold findOne.
      destruct (find _ (delayedTxModel db)) as [d|] eqn:Hf; [|reflexivity].
      apply find_some in Hf. destruct Hf as [Hin Hq].
      assert (In d (filter (sameDelayedKey number controller)
                      (delayedTxModel db))) as Hd
          by (apply filter_In; now split).
      rewrite Hnone in Hd. destruct Hd.
    + unfold sameDelayedKey. cbn. now rewrite Z.eqb_refl, String.eqb_refl.
Qed.

(** Spec scenario 3's row: added to the empty store and deleted again. *)
Lemma deleteDelayedTx_witness :
  delayedRows 100 "C" emptyDb = []
  /\ deleteDelayedTx 100 "C" (fst (addDelayedTx false 100 "C" ["T"] "H" emptyDb))
     = emptyDb.
Proof.
  split; [reflexivity|].
  destruct (deleteDelayedTx_removes_the_oldest_row 100 "C" emptyDb)
    as [_ [_ Hback]].
  apply Hback. reflexivity.
Defined.

(** *** Offline accounting *)

Lemma findOne_after_update_name name u cands d :
  findOne (byName name) cands = Some d ->
  c_name (u d) = c_name d ->
  findOne (byName name) (findOneAndUpdate (byName name) u cands) = Some (u d).
Proof.
  intros Hf Hu. apply findOne_after_update; [exact Hf|].
  apply findOne_holds in Hf. unfold byName in *. now rewrite Hu.
Qed.

(** What `reportOnline` leaves of a document it found under the name. *)
Lemma reportOnline_found telemetryId name version now dateNow1 dateNow2 db
    data :
  findOne (byName name) (candidateModel db) = Some data ->
  exists c',
    findOne (byName name)
      (candidateModel
         (reportOnline telemetryId name version now dateNow1 dateNow2 db))
    = Some c'
    /\ c_onlineSince c' = Some now
    /\ c_nodeRefs c' = Some (orZero (c_nodeRefs data) + 1)
    /\ c_invalidity c'
       = otherThan "ONLINE" (c_invalidity data) ++ [onlineEntry dateNow2]
    /\ (truthyNum (c_offlineSince data) = true ->
        c_offlineSince c' = Some 0
        /\ c_offlineAccumulated c'
           = Some (orZero (c_offlineAccumulated data)
                   + (now - orZero (c_offlineSince data)))).
Proof.
  intros Hf. unfold reportOnline. rewrite Hf.
  cbn [candidateModel set_candidates].
  set (u1 := patch [set_telemetryId (Some telemetryId);
                    set_discoveredAt (Some now); set_onlineSince (Some now);
                    set_offlineSince (Some 0);
                    set_invalidity
                      (otherThan "ONLINE" (c_invalidity data)
                         ++ [onlineEntry dateNow1])]).
  set (cs1 := if negb (truthyNum (c_discoveredAt data))
              then findOneAndUpdate (byName name) u1 (candidateModel db)
              else candidateModel db).
  assert (exists d1, findOne (byName name) cs1 = Some d1
                     /\ c_nodeRefs d1 = c_nodeRefs data) as [d1 [Hd1 Hr1]].
  { subst cs1. destruct (negb (truthyNum (c_discoveredAt data))).
    - exists (u1 data). split; [|reflexivity].
      apply findOne_after_update_name; [exact Hf | reflexivity].
    - exists data. split; [exact Hf | reflexivity]. }
  clearbody cs1. clear u1.
  set (u2 := fun c : Candidate =>
               patch [set_telemetryId (Some telemetryId);
                      set_onlineSince (Some now); set_version (Some version);
                      set_invalidity
                        (otherThan "ONLINE" (c_invalidity data)
                           ++ [onlineEntry dateNow2]);
                      set_nodeRefs (Some (orZero (c_nodeRefs c) + 1))] c).
  pose proof (findOne_after_update_name name u2 cs1 d1 Hd1 eq_refl) as Hd2.
  assert (c_onlineSince (u2 d1) = Some now) as Ho2 by reflexivity.
  assert (c_nodeRefs (u2 d1) = Some (orZero (c_nodeRefs data) + 1)) as Hr2
      by (rewrite <- Hr1; reflexivity).
  assert (c_invalidity (u2 d1)
          = otherThan "ONLINE" (c_invalidity data) ++ [onlineEntry dateNow2])
    as Hi2 by reflexivity.
  set (d2 := u2 d1) in *. set (cs2 := findOneAndUpdate (byName name) u2 cs1) in *.
  clearbody d2 cs2. clear u2.
  destruct (truthyNum (c_offlineSince data)).
  - eexists. split.
    + apply findOne_after_update_name; [exact Hd2 | reflexivity].
    + cbn [patch fold_left]. 
      split; [exact Ho2|]. split; [exact Hr2|]. split; [exact Hi2|].
      intros _. split; reflexivity.
  - exists d2. split; [exact Hd2|]. split; [exact Ho2|]. split; [exact Hr2|].
    split; [exact Hi2|]. discriminate.
Qed.

(** X8.  A node with a single telemetry session that is reported offline at
    [t1] and online again at [t2] has exactly `t2 - t1` added to its
    `offlineAccumulated`; it is back with `offlineSince = 0`, its session
    count is what it was, and its one ONLINE entry is valid. *)
Theorem offline_interval_is_accumulated :
  forall (numberToString : Q -> string) (telemetryId telemetryId' : Z)
         (name version : string) (t1 t2 dateNow1 dateNow2 dateNow3 : Z)
         (db : Db) (c : Candidate),
    findOne (byTelemetryId telemetryId) (candidateModel db) = Some c ->
    findOne (byName (c_name c)) (candidateModel db) = Some c ->
    orZero (c_nodeRefs c) <= 1 ->
    t1 <> 0 ->
    let offline :=
      reportOffline numberToString telemetryId name t1 dateNow1 db in
    let online :=
      reportOnline telemetryId' (c_name c) version t2 dateNow2 dateNow3
        offline in
    exists c',
      findOne (byName (c_name c)) (candidateModel online) = Some c'
      /\ c_offlineAccumulated c'
         = Some (orZero (c_offlineAccumulated c) + (t2 - t1))
      /\ c_offlineSince c' = Some 0
      /\ c_onlineSince c' = Some t2
      /\ c_nodeRefs c' = Some (orZero (c_nodeRefs c))
      /\ ofType "ONLINE" (c_invalidity c') = [onlineEntry dateNow3].
Proof.
  intros numberToString telemetryId telemetryId' name version t1 t2
         dateNow1 dateNow2 dateNow3 db c Hc Hn Hrefs Ht1 offline online.
  assert (exists c1,
             findOne (byName (c_name c)) (candidateModel offline) = Some c1
             /\ c_offlineSince c1 = Some t1
             /\ c_offlineAccumulated c1 = c_offlineAccumulated c
             /\ c_nodeRefs c1 = Some (orZero (c_nodeRefs c) - 1))
    as [c1 [Hc1 [Hsince1 [Hacc1 Hrefs1]]]].
  { subst offline. unfold reportOffline. rewrite Hc.
    replace (Z.ltb 1 (orZero (c_nodeRefs c))) with false
      by (symmetry; apply Z.ltb_ge; exact Hrefs).
    cbn [candidateModel set_candidates].
    eexists. split.
    - apply (findOne_after_update_other _ _ _ _ c Hc Hn).
      apply findOne_holds in Hn. exact Hn.
    - split; [reflexivity|]. split; reflexivity. }
  clearbody offline.
  destruct (reportOnline_found telemetryId' (c_name c) version t2 dateNow2
              dateNow3 offline c1 Hc1)
    as [c' [Hc' [Hon [Hrefs' [Hinv Hback]]]]].
  exists c'. split; [exact Hc'|].
  destruct Hback as [Hsince' Hacc'].
  { rewrite Hsince1. cbn. now apply negb_true_iff, Z.eqb_neq. }
  rewrite Hacc', Hacc1, Hsince1, Hrefs', Hrefs1, Hinv.
  split; [reflexivity|]. split; [exact Hsince'|]. split; [exact Hon|].
  split; [cbn [orZero]; f_equal; lia|].
  now rewrite ofType_app, ofType_otherThan_same.
Qed.

Lemma offline_interval_witness :
  exists c',
    findOne (byName "alice")
      (candidateModel
         (reportOnline 7 "alice" "0.9.13" 9000 9001 9002
            (reportOffline sampleNumberToString 7 "alice" 8000 8001 sampleDb)))
    = Some c'
    /\ c_offlineAccumulated c' = Some 1000.
Proof.
  destruct (offline_interval_is_accumulated sampleNumberToString 7 7 "alice"
              "0.9.13" 8000 9000 8001 9001 9002 sampleDb sampleCandidate
              eq_refl eq_refl)
    as [c' [Hf [Hacc _]]].
  - cbn. lia.
  - lia.
  - exists c'. split; [exact Hf | exact Hacc].
Defined.

(** ** Further properties of the era statistics *)

Lemma sorted_head_least x l :
  LocallySorted Z.le (x :: l) -> forall y, In y l -> x <= y.
Proof.
  revert x. induction l as [|z l IH]; intros x Hs y Hy; [destruct Hy|].
  inversion Hs as [| |? ? ? Hs' Hxz]; subst.
  destruct Hy as [->|Hy]; [exact Hxz|].
  specialize (IH z Hs' y Hy). lia.
Qed.

Lemma sorted_tail x l : LocallySorted Z.le (x :: l) -> LocallySorted Z.le l.
Proof. intros H. inversion H; subst; [constructor | assumption]. Qed.

(** A list has one ascending arrangement. *)
Lemma sorted_perm_unique l1 l2 :
  LocallySorted Z.le l1 -> LocallySorted Z.le l2 -> Permutation l1 l2 ->
  l1 = l2.
Proof.
  revert l2. induction l1 as [|x l1 IH]; intros l2 H1 H2 Hp.
  - apply Permutation_nil in Hp. now subst.
  - destruct l2 as [|y l2].
    + apply Permutation_sym, Permutation_nil in Hp. discriminate.
    + assert (x = y) as ->.
      { assert (In x (y :: l2)) as Hx
            by (eapply Permutation_in; [exact Hp | now left]).
        assert (In y (x :: l1)) as Hy
            by (eapply Permutation_in;
                [apply Permutation_sym; exact Hp | now left]).
        destruct Hx as [Hx|Hx]; [now subst|].
        destruct Hy as [Hy|Hy]; [now subst|].
        pose proof (sorted_head_least _ _ H1 y Hy).
        pose proof (sorted_head_least _ _ H2 x Hx). lia. }
      f_equal. apply IH.
      * eapply sorted_tail; eauto.
      * eapply sorted_tail; eauto.
      * eapply Permutation_cons_inv; eauto.
Qed.

Lemma sortAsc_perm_eq l1 l2 : Permutation l1 l2 -> sortAsc l1 = sortAsc l2.
Proof.
  intros Hp. apply sorted_perm_unique; try apply sortAsc_sorted.
  eapply perm_trans; [apply Permutation_sym, sortAsc_perm|].
  eapply perm_trans; [exact Hp | apply sortAsc_perm].
Qed.

Lemma fold_max_bounds rest x :
  (forall y, In y (x :: rest) -> y <= fold_left Z.max rest x)
  /\ In (fold_left Z.max rest x) (x :: rest).
Proof.
  revert x. induction rest as [|z rest IH]; intros x; cbn [fold_left].
  - split; [intros y [->|[]]; lia | now left].
  - destruct (IH (Z.max x z)) as [Hub Hin]. split.
    + intros y [->|[->|Hy]].
      * specialize (Hub (Z.max y z) (or_introl eq_refl)). lia.
      * specialize (Hub (Z.max x y) (or_introl eq_refl)). lia.
      * apply Hub. now right.
    + destruct Hin as [Hin|Hin]; [|now right; right].
      rewrite <- Hin. destruct (Z.max_spec x z) as [[_ ->]|[_ ->]];
        [right; left | left]; reflexivity.
Qed.

Lemma fold_min_bounds rest x :
  (forall y, In y (x :: rest) -> fold_left Z.min rest x <= y)
  /\ In (fold_left Z.min rest x) (x :: rest).
Proof.
  revert x. induction rest as [|z rest IH]; intros x; cbn [fold_left].
  - split; [intros y [->|[]]; lia | now left].
  - destruct (IH (Z.min x z)) as [Hlb Hin]. split.
    + intros y [->|[->|Hy]].
      * specialize (Hlb (Z.min y z) (or_introl eq_refl)). lia.
      * specialize (Hlb (Z.min x y) (or_introl eq_refl)). lia.
      * apply Hlb. now right.
    + destruct Hin as [Hin|Hin]; [|now right; right].
      rewrite <- Hin. destruct (Z.min_spec x z) as [[_ ->]|[_ ->]];
        [left | right; left]; reflexivity.
Qed.

Lemma fold_add_bounds lo hi rest x :
  (forall y, In y (x :: rest) -> lo <= y <= hi) ->
  lo * Z.of_nat (S (List.length rest)) <= fold_left Z.add rest x
  <= hi * Z.of_nat (S (List.length rest)).
Proof.
  revert x.
  assert (forall acc k,
             (forall y, In y rest -> lo <= y <= hi) ->
             lo * k <= acc <= hi * k ->
             lo * (k + Z.of_nat (List.length rest))
             <= fold_left Z.add rest acc
             <= hi * (k + Z.of_nat (List.length rest))) as Hgen.
  { induction rest as [|z rest IH]; intros acc k Hall Hacc; cbn [fold_left].
    - cbn. rewrite Z.add_0_r. exact Hacc.
    - specialize (IH (acc + z) (k + 1)).
      replace (k + Z.of_nat (List.length (z :: rest)))
        with (k + 1 + Z.of_nat (List.length rest))
        by (cbn [List.length]; lia).
      apply IH.
      + intros y Hy. apply Hall. now right.
      + specialize (Hall z (or_introl eq_refl)). lia. }
  intros x Hall.
  replace (Z.of_nat (S (List.length rest)))
    with (1 + Z.of_nat (List.length rest)) by lia.
  apply Hgen.
  - intros y Hy. apply Hall. now right.
  - specialize (Hall x (or_introl eq_refl)). lia.
Qed.

Lemma nth_sortAsc_in l i :
  (i < List.length l)%nat -> In (nth i (sortAsc l) 0) l.
Proof.
  intros Hi. eapply Permutation_in; [apply Permutation_sym, sortAsc_perm|].
  apply nth_In. now rewrite sortAsc_length.
Qed.

(** X9.  The statistics `setTotalEraPoints` stores for a non-empty array of
    points are consistent: `min` and `max` are elements of the array and the
    median and the average both lie between them.  The median does not
    depend on the order in which the chain lists the validators. *)
Theorem era_statistics_are_consistent :
  forall (x : Z) (rest : list Z),
    let points := x :: rest in
    exists (lo hi : Z) (median avg : Q),
      mathMin points = Some lo /\ mathMax points = Some hi
      /\ getMedian points = Some median /\ getAverage points = Some avg
      /\ In lo points /\ In hi points
      /\ (inject_Z lo <= median <= inject_Z hi)%Q
      /\ (inject_Z lo <= avg <= inject_Z hi)%Q
      /\ forall points', Permutation points points' ->
                         getMedian points' = getMedian points.
Proof.
  intros x rest points.
  destruct (fold_min_bounds rest x) as [Hlo Hlo_in].
  destruct (fold_max_bounds rest x) as [Hhi Hhi_in].
  set (lo := fold_left Z.min rest x) in *.
  set (hi := fold_left Z.max rest x) in *.
  assert (forall y, In y points -> lo <= y <= hi) as Hbounds
      by (intros y Hy; split; [now apply Hlo | now apply Hhi]).
  exists lo, hi.
  assert (exists m, getMedian points = Some m
                    /\ (inject_Z lo <= m <= inject_Z hi)%Q) as [m [Hm Hmb]].
  { unfold getMedian, at_.
    replace (Nat.leb 1 (List.length points)) with true by reflexivity.
    cbv zeta. rewrite sortAsc_length.
    assert (0 < List.length points)%nat as Hpos by (cbn; lia).
    destruct (Nat.eqb (List.length points mod 2) 0) eqn:Hpar.
    - eexists. split; [reflexivity|].
      assert (List.length points / 2 < List.length points)%nat as H2
          by (apply Nat.div_lt; lia).
      assert (List.length points / 2 - 1 < List.length points)%nat as H1
          by (revert H2; generalize (List.length points / 2)%nat; lia).
      pose proof (Hbounds _ (nth_sortAsc_in points _ H1)) as Ha.
      pose proof (Hbounds _ (nth_sortAsc_in points _ H2)) as Hb.
      revert Ha Hb.
      generalize (nth (List.length points / 2 - 1) (sortAsc points) 0).
      generalize (nth (List.length points / 2) (sortAsc points) 0).
      intros b a Ha Hb.
      unfold Qle, Qdiv, Qmult, Qinv, inject_Z. cbn. lia.
    - eexists. split; [reflexivity|].
      assert ((List.length points - 1) / 2 < List.length points)%nat as H1.
      { apply Nat.Div0.div_lt_upper_bound.
        revert Hpos. generalize (List.length points). intros n Hn. lia. }
      pose proof (Hbounds _ (nth_sortAsc_in points _ H1)) as Ha.
      rewrite <- !Zle_Qle. exact Ha. }
  exists m. eexists. split; [reflexivity|]. split; [reflexivity|].
  split; [exact Hm|]. split; [reflexivity|].
  split; [exact Hlo_in|]. split; [exact Hhi_in|]. split; [exact Hmb|]. split.
  - pose proof (fold_add_bounds lo hi rest x Hbounds) as Hsum.
    cbn [List.length points].
    set (n := Z.of_nat (S (List.length rest))) in *.
    assert (0 < inject_Z n)%Q as Hn
        by (rewrite <- (Zlt_Qlt 0); subst n; lia).
    split.
    + apply Qle_shift_div_l; [exact Hn|].
      rewrite <- inject_Z_mult, <- Zle_Qle. lia.
    + apply Qle_shift_div_r; [exact Hn|].
      rewrite <- inject_Z_mult, <- Zle_Qle. lia.
  - intros points' Hp. unfold getMedian.
    rewrite <- (Permutation_length Hp), (sortAsc_perm_eq _ _ Hp).
    reflexivity.
Qed.

(** ** Further properties of the era points job *)

Lemma rowWrites_trans db1 db2 db3 :
  rowWrites db1 db2 -> rowWrites db2 db3 -> rowWrites db1 db3.
Proof.
  intros H12 H23. induction H23 as [|? ? ? _ IH Hw]; [exact H12|].
  eapply ThenWrite; [apply IH; exact H12 | exact Hw].
Qed.

Lemma rowWrites_one db1 db2 : rowWrite db1 db2 -> rowWrites db1 db2.
Proof. intros H. eapply ThenWrite; [apply NoWrite | exact H]. Qed.

Lemma rowWrites_keep (P : Db -> Prop) db1 db2 :
  (forall a b, rowWrite a b -> P a -> P b) ->
  rowWrites db1 db2 -> P db1 -> P db2.
Proof.
  intros Hstep H. induction H as [|? ? ? _ IH Hw]; [auto|].
  intros H1. eapply Hstep; [exact Hw | auto].
Qed.

Lemma setEraPoints_writes era points address w :
  rowWrites (w_db w) (w_db (snd (setEraPoints era points address w))).
Proof.
  unfold setEraPoints, bind, emit, readDb, writeDb, ret. cbn.
  destruct (findOne (sameEraPointsKey address era) (eraPointsModel (w_db w)))
    as [d|] eqn:Hf; [destruct (Z.eqb (ep_eraPoints d) points)|]; cbn.
  - apply NoWrite.
  - apply rowWrites_one, UpdateEraPoints.
  - apply rowWrites_one, SaveEraPoints. exact Hf.
Qed.

Lemma forEach_writes {A} (body : A -> M unit) xs w :
  (forall x w, rowWrites (w_db w) (w_db (snd (body x w)))) ->
  rowWrites (w_db w) (w_db (snd (forEach xs body w))).
Proof.
  intros Hbody. revert w. induction xs as [|x xs IH]; intros w; cbn.
  - apply NoWrite.
  - unfold bind. specialize (Hbody x w).
    destruct (body x w) as [[a|e] w1]; cbn in *; [|exact Hbody].
    eapply rowWrites_trans; [exact Hbody | apply IH].
Qed.

Lemma setTotalEraPoints_writes era total validators w :
  rowWrites (w_db w) (w_db (snd (setTotalEraPoints era total validators w))).
Proof.
  unfold setTotalEraPoints. unfold bind at 1.
  pose proof (forEach_writes
                (fun validator =>
                   setEraPoints era (vp_eraPoints validator)
                     (vp_address validator))
                validators w
                (fun x w => setEraPoints_writes era _ _ w)) as Hfe.
  destruct (forEach validators _ w) as [[a|e] w1]; cbn in Hfe |- *;
    [|exact Hfe].
  eapply rowWrites_trans; [exact Hfe|].
  unfold bind, emit, readDb, writeDb, ret, throw. cbn.
  destruct (findOne (sameEra era) (totalEraPointsModel (w_db w1)))
    as [d|] eqn:Hf; cbn;
    destruct (getAverage (map vp_eraPoints validators)); cbn;
    try apply NoWrite.
  - apply rowWrites_one, UpdateTotalEraPoints.
  - apply rowWrites_one.
    apply (SaveTotalEraPoints (w_db w1)
             (mkTotalEraPoints era total validators _ _ _ _)).
    exact Hf.
Qed.

Lemma eraPointsStep_writes chaindata i w :
  rowWrites (w_db w) (w_db (snd (eraPointsStep chaindata i w))).
Proof.
  unfold eraPointsStep, dbGetTotalEraPoints, chainGetTotalEraPoints.
  unfold bind at 1 2, emit at 1, readDb at 1. cbn.
  destruct (match findOne (sameEra i) (totalEraPointsModel (w_db w)) with
            | Some e => _ | None => false end).
  - cbn. apply NoWrite.
  - unfold bind at 1 2, emit at 1, ret at 1. cbn.
    match goal with
    | |- context [setTotalEraPoints ?e ?t ?vs ?w0] =>
        exact (setTotalEraPoints_writes e t vs w0)
    end.
Qed.

Lemma eraLoop_writes body activeEra i w :
  (forall j w, rowWrites (w_db w) (w_db (snd (body j w)))) ->
  rowWrites (w_db w) (w_db (snd (eraLoop body activeEra i w))).
Proof.
  funelim (eraLoop body activeEra i w); intros Hbody.
  - apply NoWrite.
  - match goal with
    | Hb : body i w = _ |- _ =>
        pose proof (Hbody i w) as H1; rewrite Hb in H1; cbn in H1
    end.
    eapply rowWrites_trans; [exact H1 | auto].
  - match goal with
    | Hb : body i w = _ |- _ =>
        pose proof (Hbody i w) as H1; rewrite Hb in H1; cbn in H1
    end.
    exact H1.
Qed.

Lemma eraPointsJob_writes chaindata db :
  rowWrites db (jobStore chaindata db).
Proof.
  unfold jobStore, eraPointsJob. unfold bind at 1.
  pose proof (eraLoop_writes (eraPointsStep chaindata)
                (getActiveEraIndex chaindata)
                (getActiveEraIndex chaindata - 1) (mkWorld db [])
                (eraPointsStep_writes chaindata)) as Hloop.
  destruct (eraLoop _ _ _ (mkWorld db [])) as [[a|e] w1]; cbn in Hloop |- *;
    [|exact Hloop].
  eapply rowWrites_trans; [exact Hloop|].
  unfold chainGetTotalEraPoints, bind, emit, ret. cbn.
  match goal with
  | |- context [setTotalEraPoints ?e ?t ?vs ?w0] =>
      exact (setTotalEraPoints_writes e t vs w0)
  end.
Qed.

Lemma sameEraPointsKey_spec address era r :
  sameEraPointsKey address era r = true <-> eraKey r = (era, address).
Proof.
  unfold sameEraPointsKey, eraKey. rewrite andb_true_iff, String.eqb_eq,
    Z.eqb_eq. split; [intros [-> ->]; reflexivity | intros [= -> ->]; auto].
Qed.

Lemma key_miss_not_in address era rows :
  findOne (sameEraPointsKey address era) rows = None ->
  ~ In (era, address) (map eraKey rows).
Proof.
  intros Hnone Hin. apply in_map_iff in Hin. destruct Hin as [r [Hr Hin]].
  pose proof (findOne_none_forall _ _ Hnone r Hin) as Hq.
  apply sameEraPointsKey_spec in Hr. congruence.
Qed.

Lemma era_miss_not_in era rows :
  findOne (sameEra era) rows = None -> ~ In era (map tep_era rows).
Proof.
  intros Hnone Hin. apply in_map_iff in Hin. destruct Hin as [r [Hr Hin]].
  pose proof (findOne_none_forall _ _ Hnone r Hin) as Hq.
  unfold sameEra in Hq. rewrite Hr, Z.eqb_refl in Hq. discriminate.
Qed.

Lemma rowWrite_unique a b : rowWrite a b -> eraRowsUnique a -> eraRowsUnique b.
Proof.
  intros Hw [Hp Ht]. destruct Hw; unfold eraRowsUnique; cbn; split; auto.
  - now rewrite map_update_outside.
  - unfold save. rewrite map_app. cbn. apply NoDup_snoc; [exact Hp|].
    now apply key_miss_not_in.
  - unfold save. rewrite map_app. cbn. apply NoDup_snoc; [exact Ht|].
    now apply era_miss_not_in.
  - now rewrite map_update_outside.
Qed.

Lemma rowWrite_other_collections a b :
  rowWrite a b ->
  candidateModel b = candidateModel a
  /\ delayedTxModel b = delayedTxModel a
  /\ chainMetadataModel b = chainMetadataModel a.
Proof. intros Hw. destruct Hw; cbn; auto. Qed.

Lemma findOne_update_monotone {A} (q q' : A -> bool) u coll :
  (forall d, q' (u d) = q' d) ->
  findOne q' coll <> None -> findOne q' (findOneAndUpdate q u coll) <> None.
Proof.
  intros Hu. unfold findOne. induction coll as [|x rest IH]; cbn; [auto|].
  destruct (q x) eqn:Hq; cbn.
  - rewrite Hu. destruct (q' x); [discriminate | auto].
  - destruct (q' x); [discriminate | auto].
Qed.

Lemma findOne_save_monotone {A} (q' : A -> bool) d coll :
  findOne q' coll <> None -> findOne q' (save d coll) <> None.
Proof.
  unfold findOne, save. induction coll as [|x rest IH]; cbn; [congruence|].
  destruct (q' x); [discriminate | auto].
Qed.

Lemma rowWrite_keeps_rows a b :
  rowWrite a b ->
  (forall era, hasTotal era a -> hasTotal era b)
  /\ (forall era address, hasPoints era address a -> hasPoints era address b).
Proof.
  intros Hw. unfold hasTotal, hasPoints. destruct Hw; cbn; split; auto.
  - intros e ad. now apply findOne_update_monotone.
  - intros e ad. apply findOne_save_monotone.
  - intros e. apply findOne_save_monotone.
  - intros e. now apply findOne_update_monotone.
Qed.

(** X10.  Whatever the chain answers, a run of `eraPointsJob` keeps the
    EraPoints rows unique on (era, address) and the TotalEraPoints rows
    unique on era, removes no row of either collection, and leaves the
    candidates, the delayed transactions and the chain metadata alone. *)
Theorem eraPointsJob_keeps_rows_unique :
  forall (chaindata : ChainData) (db : Db),
    eraRowsUnique db ->
    eraRowsUnique (jobStore chaindata db)
    /\ (forall era, hasTotal era db -> hasTotal era (jobStore chaindata db))
    /\ (forall era address,
           hasPoints era address db ->
           hasPoints era address (jobStore chaindata db))
    /\ candidateModel (jobStore chaindata db) = candidateModel db
    /\ delayedTxModel (jobStore chaindata db) = delayedTxModel db
    /\ chainMetadataModel (jobStore chaindata db) = chainMetadataModel db.
Proof.
  intros chaindata db Hu.
  pose proof (eraPointsJob_writes chaindata db) as Hw.
  split; [|split; [|split]].
  - exact (rowWrites_keep eraRowsUnique _ _ rowWrite_unique Hw Hu).
  - intros era.
    apply (rowWrites_keep (hasTotal era) _ _
             (fun a b H => proj1 (rowWrite_keeps_rows a b H) era) Hw).
  - intros era address.
    apply (rowWrites_keep (hasPoints era address) _ _
             (fun a b H => proj2 (rowWrite_keeps_rows a b H) era address) Hw).
  - apply (rowWrites_keep
             (fun b => candidateModel b = candidateModel db
                       /\ delayedTxModel b = delayedTxModel db
                       /\ chainMetadataModel b = chainMetadataModel db)
             _ _ (fun a b H Ha =>
                    match rowWrite_other_collections a b H, Ha with
                    | conj h1 (conj h2 h3), conj g1 (conj g2 g3) =>
                        conj (eq_trans h1 g1)
                          (conj (eq_trans h2 g2) (eq_trans h3 g3))
                    end) Hw).
    auto.
Qed.

Lemma eraPointsJob_keeps_rows_unique_witness :
  eraRowsUnique emptyDb
  /\ eraRowsUnique (jobStore (sampleChain 3) emptyDb)
  /\ eraRowsUnique (jobStore (sampleChain 4) (jobStore (sampleChain 3) emptyDb)).
Proof.
  assert (eraRowsUnique emptyDb) as H0 by (split; constructor).
  destruct (eraPointsJob_keeps_rows_unique (sampleChain 3) emptyDb H0)
    as [H1 _].
  destruct (eraPointsJob_keeps_rows_unique (sampleChain 4) _ H1) as [H2 _].
  split; [exact H0|]. split; [exact H1 | exact H2].
Defined.

Lemma findOne_update_other {A} (q q' : A -> bool) u coll :
  (forall d, q' (u d) = q' d) ->
  (forall d, q d = true -> q' d = false) ->
  findOne q' (findOneAndUpdate q u coll) = findOne q' coll.
Proof.
  intros Hu Hsep. unfold findOne. induction coll as [|x rest IH]; cbn; auto.
  destruct (q x) eqn:Hq; cbn.
  - now rewrite Hu, (Hsep x Hq).
  - now rewrite IH.
Qed.

Lemma findOne_save_other {A} (q' : A -> bool) d coll :
  q' d = false -> findOne q' (save d coll) = findOne q' coll.
Proof.
  intros Hd. unfold findOne, save. induction coll as [|x rest IH]; cbn.
  - now rewrite Hd.
  - now rewrite IH.
Qed.

Lemma sameEraPointsKey_sep address era address' era' r :
  era' <> era \/ address' <> address ->
  sameEraPointsKey address era r = true ->
  sameEraPointsKey address' era' r = false.
Proof.
  intros Hne Hq. unfold sameEraPointsKey in *.
  apply andb_true_iff in Hq. destruct Hq as [Ha He].
  apply String.eqb_eq in Ha. apply Z.eqb_eq in He. subst.
  apply andb_false_iff.
  destruct Hne as [Hne|Hne];
    [right; apply Z.eqb_neq | left; apply String.eqb_neq]; congruence.
Qed.

(** X11.  `setEraPoints(era, points, address)` on a store with no row under
    (era, address), or with a row that already holds these points, awaits
    all it does: afterwards the row `getEraPoints(era, address)` finds
    carries these points, the lookup of any other (era, address) answers
    what it answered before, and a second identical call only looks the row
    up and writes nothing.  When the row holds other points the method
    issues one update of it, without awaiting it, and adds or removes no
    row. *)
Theorem setEraPoints_then_getEraPoints :
  forall (era points : Z) (address : string) (w : World),
    let w1 := snd (setEraPoints era points address w) in
    ((forall r, getEraPoints era address (w_db w) = Some r ->
                ep_eraPoints r = points) ->
     (exists r,
         getEraPoints era address (w_db w1) = Some r
         /\ ep_era r = era /\ ep_address r = address
         /\ ep_eraPoints r = points)
     /\ (forall era' address',
            era' <> era \/ address' <> address ->
            getEraPoints era' address' (w_db w1)
            = getEraPoints era' address' (w_db w))
     /\ setEraPoints era points address w1
        = (Ok tt, mkWorld (w_db w1)
                    (w_trace w1 ++ [DbFindEraPoints era address])))
    /\ (forall r, getEraPoints era address (w_db w) = Some r ->
                  ep_eraPoints r <> points ->
                  w_trace w1
                  = w_trace w ++ [DbFindEraPoints era address;
                                  DbUpdateEraPoints era address]
                  /\ map eraKey (eraPointsModel (w_db w1))
                     = map eraKey (eraPointsModel (w_db w))).
Proof.
  intros era points address w w1. split.
  - intros Hsame.
    assert (exists r,
               getEraPoints era address (w_db w1) = Some r
               /\ ep_era r = era /\ ep_address r = address
               /\ ep_eraPoints r = points) as Hrow.
    { subst w1. unfold setEraPoints, bind, emit, readDb, writeDb, ret,
        getEraPoints in *. cbn.
      destruct (findOne (sameEraPointsKey address era)
                  (eraPointsModel (w_db w))) as [d|] eqn:Hf.
      - pose proof (findOne_holds _ _ _ Hf) as Hq.
        apply sameEraPointsKey_spec in Hq. injection Hq as He Ha.
        rewrite (Hsame d eq_refl), Z.eqb_refl. cbn.
        exists d. rewrite Hf. auto.
      - cbn. eexists. split.
        + rewrite (findOne_save_miss _ _ _ Hf). unfold findOne. cbn.
          unfold sameEraPointsKey. cbn.
          now rewrite String.eqb_refl, Z.eqb_refl.
        + cbn. auto. }
    split; [exact Hrow|]. split.
    + intros era' address' Hne. subst w1.
      unfold setEraPoints, bind, emit, readDb, writeDb, ret, getEraPoints in *.
      cbn.
      destruct (findOne (sameEraPointsKey address era)
                  (eraPointsModel (w_db w))) as [d|] eqn:Hf.
      * rewrite (Hsame d eq_refl), Z.eqb_refl. reflexivity.
      * cbn. apply findOne_save_other.
        apply (sameEraPointsKey_sep address era); [exact Hne|].
        unfold sameEraPointsKey. cbn.
        now rewrite String.eqb_refl, Z.eqb_refl.
    + destruct Hrow as [r [Hr [_ [_ Hp]]]]. unfold getEraPoints in Hr.
      unfold setEraPoints at 1, bind, emit, readDb, writeDb, ret. cbn.
      rewrite Hr, Hp, Z.eqb_refl. reflexivity.
  - intros r Hr Hne. subst w1.
    unfold setEraPoints, bind, emit, readDb, writeDb, ret, getEraPoints in *.
    cbn. rewrite Hr.
    replace (Z.eqb (ep_eraPoints r) points) with false
      by (symmetry; now apply Z.eqb_neq).
    cbn. rewrite <- app_assoc. split; [reflexivity|].
    now apply map_update_outside.
Qed.

(** A first call on the empty store saves the row; the second only looks
    it up. *)
Lemma setEraPoints_then_getEraPoints_witness :
  (forall r, getEraPoints 5 "StashA" emptyDb = Some r -> ep_eraPoints r = 70)
  /\ getEraPoints 5 "StashA"
       (w_db (snd (setEraPoints 5 70 "StashA" (mkWorld emptyDb []))))
     = Some (mkEraPoints "StashA" 5 70).
Proof.
  assert (forall r, getEraPoints 5 "StashA" emptyDb = Some r ->
                    ep_eraPoints r = 70) as Hnone by discriminate.
  split; [exact Hnone|].
  destruct (proj1 (setEraPoints_then_getEraPoints 5 70 "StashA"
                     (mkWorld emptyDb [])) Hnone)
    as [[r [Hr _]] _].
  rewrite Hr. vm_compute in Hr. symmetry. exact Hr.
Defined.

Lemma sameEra_holds era r : sameEra era r = true -> tep_era r = era.
Proof. unfold sameEra. apply Z.eqb_eq. Qed.

(** What `setTotalEraPoints` leaves in the TotalEraPoints collection. *)
Lemma setTotalEraPoints_row era total validators w :
  validators <> [] ->
  findOne (sameEra era)
    (totalEraPointsModel
       (w_db (snd (setTotalEraPoints era total validators w))))
  = Some (totalRow era total validators).
Proof.
  intros Hne. unfold setTotalEraPoints, totalRow. unfold bind.
  destruct (forEach_setEraPoints_spec era validators w) as [Hok _].
  cbv zeta in Hok.
  destruct (forEach validators _ w) as [r w1]. cbn in Hok. subst r.
  unfold emit, readDb, writeDb, ret, throw. cbn.
  assert (exists avg, getAverage (map vp_eraPoints validators) = Some avg)
    as [avg Havg].
  { destruct validators as [|v vs]; [contradiction|]. cbn. eauto. }
  destruct (findOne (sameEra era) (totalEraPointsModel (w_db w1)))
    as [d|] eqn:Hf; cbn; rewrite Havg; cbn.
  - rewrite (findOne_after_update _ _ _ _ Hf).
    + now rewrite (sameEra_holds _ _ (findOne_holds _ _ _ Hf)).
    + exact (findOne_holds _ _ _ Hf).
  - rewrite (findOne_save_miss _ _ _ Hf). unfold findOne, sameEra. cbn.
    now rewrite Z.eqb_refl.
Qed.

Lemma setTotalEraPoints_hasTotal era total validators w :
  validators <> [] ->
  hasTotal era (w_db (snd (setTotalEraPoints era total validators w))).
Proof.
  intros Hne. unfold hasTotal.
  now rewrite (setTotalEraPoints_row era total validators w Hne).
Qed.

Lemma rowWrites_hasTotal era db1 db2 :
  rowWrites db1 db2 -> hasTotal era db1 -> hasTotal era db2.
Proof.
  apply (rowWrites_keep (hasTotal era)).
  intros a b H. exact (proj1 (rowWrite_keeps_rows a b H) era).
Qed.

Lemma eraPointsStep_hasTotal chaindata i w :
  chainWellFormed chaindata ->
  hasTotal i (w_db (snd (eraPointsStep chaindata i w))).
Proof.
  intros Hwf. unfold eraPointsStep, dbGetTotalEraPoints,
    chainGetTotalEraPoints.
  unfold bind at 1 2, emit at 1, readDb at 1. cbn.
  destruct (findOne (sameEra i) (totalEraPointsModel (w_db w)))
    as [e|] eqn:Hf.
  - destruct (Z.leb 70000 (tep_totalEraPoints e) && truthyQ (tep_median e)).
    + cbn. unfold hasTotal. now rewrite Hf.
    + unfold bind at 1 2, emit at 1, ret at 1. cbn.
      destruct (Hwf i) as [-> Hvals].
      now apply setTotalEraPoints_hasTotal.
  - unfold bind at 1 2, emit at 1, ret at 1. cbn.
    destruct (Hwf i) as [-> Hvals].
    now apply setTotalEraPoints_hasTotal.
Qed.

Lemma eraLoop_hasTotal_gen body activeEra i w :
  (forall j w, rowWrites (w_db w) (w_db (snd (body j w)))) ->
  (forall j w, 0 <= j ->
               fst (body j w) = Ok tt
               /\ hasTotal j (w_db (snd (body j w)))) ->
  forall x, In x (erasDownTo i (Z.max 0 (activeEra - 83))) ->
            hasTotal x (w_db (snd (eraLoop body activeEra i w))).
Proof.
  funelim (eraLoop body activeEra i w); intros Hwrites Hbody x Hx.
  - rewrite erasDownTo_nil in Hx; [destruct Hx|].
    destruct (proj1 (andb_false_iff _ _) e) as [e'|e'].
    + apply Z.ltb_ge in e'. lia.
    + apply Z.leb_gt in e'. lia.
  - destruct (proj1 (andb_true_iff _ _) e) as [e1 e2].
    apply Z.ltb_lt in e1. apply Z.leb_le in e2.
    rewrite erasDownTo_cons in Hx by lia.
    destruct Hx as [<-|Hx].
    + eapply rowWrites_hasTotal; [now apply eraLoop_writes|].
      destruct (Hbody i w e2) as [_ Hrow].
      match goal with
      | Hb : body i w = _ |- _ => rewrite Hb in Hrow
      end.
      exact Hrow.
    + match goal with
      | IH : (forall j w, rowWrites _ _) -> _ |- _ =>
          apply (IH Hwrites Hbody x Hx)
      end.
  - exfalso.
    destruct (proj1 (andb_true_iff _ _) e0) as [_ e2]. apply Z.leb_le in e2.
    destruct (Hbody i w e2) as [Hok _].
    match goal with
    | Hb : body i w = _ |- _ => rewrite Hb in Hok
    end.
    discriminate.
Qed.

Lemma eraLoop_hasTotal chaindata activeEra i w :
  chainWellFormed chaindata ->
  forall e, In e (erasDownTo i (Z.max 0 (activeEra - 83))) ->
            hasTotal e
              (w_db (snd (eraLoop (eraPointsStep chaindata) activeEra i w))).
Proof.
  intros Hwf. apply eraLoop_hasTotal_gen.
  - apply eraPointsStep_writes.
  - intros j w0 Hj. split.
    + exact (proj1 (eraPointsStep_spec chaindata Hwf j w0 Hj)).
    + now apply eraPointsStep_hasTotal.
Qed.

(** X12.  A run of `eraPointsJob` against a chain that answers each era
    with that era and at least one validator, at active era `a >= 0`,
    returns, and after it every era of the window `max(0, a-83) .. a` has a
    TotalEraPoints row: a missing row is saved, which the job awaits, and
    no write of the job removes a row. *)
Theorem eraPointsJob_populates_window :
  forall (chaindata : ChainData) (db : Db),
    0 <= getActiveEraIndex chaindata ->
    chainWellFormed chaindata ->
    let activeEra := getActiveEraIndex chaindata in
    fst (eraPointsJob chaindata (mkWorld db [])) = Ok tt
    /\ forall era,
        In era (erasDownTo activeEra (Z.max 0 (activeEra - 83))) ->
        hasTotal era (jobStore chaindata db).
Proof.
  intros chaindata db Hera Hwf activeEra.
  split; [exact (proj1 (eraPointsJob_spec chaindata db Hera Hwf))|].
  unfold jobStore, eraPointsJob. fold activeEra. unfold bind.
  destruct (eraLoop_spec (eraPointsStep chaindata) activeEra (activeEra - 1)
              (mkWorld db []) (eraPointsStep_spec chaindata Hwf))
    as [Hok _].
  pose proof (eraLoop_hasTotal chaindata activeEra (activeEra - 1)
                (mkWorld db []) Hwf) as Hloop.
  destruct (eraLoop _ activeEra (activeEra - 1) (mkWorld db [])) as [r w1].
  cbn in Hok, Hloop. subst r.
  unfold chainGetTotalEraPoints, emit, ret. cbn.
  destruct (Hwf activeEra) as [Hce Hvals]. rewrite Hce.
  intros era Hin. rewrite erasDownTo_cons in Hin by lia.
  destruct Hin as [<-|Hin].
  - now apply setTotalEraPoints_hasTotal.
  - eapply rowWrites_hasTotal; [apply setTotalEraPoints_writes|].
    cbn. now apply Hloop.
Qed.

Lemma eraPointsJob_populates_window_witness :
  0 <= getActiveEraIndex (sampleChain 3)
  /\ chainWellFormed (sampleChain 3)
  /\ hasTotal 3 (jobStore (sampleChain 3) emptyDb)
  /\ hasTotal 0 (jobStore (sampleChain 3) emptyDb).
Proof.
  assert (0 <= getActiveEraIndex (sampleChain 3)) as Hera by (cbn; lia).
  destruct (eraPointsJob_populates_window (sampleChain 3) emptyDb Hera
              (sampleChain_wellFormed 3)) as [_ Hall].
  split; [exact Hera|]. split; [apply sampleChain_wellFormed|]. split.
  - apply Hall. vm_compute. left. reflexivity.
  - apply Hall. vm_compute. do 3 right. left. reflexivity.
Defined.

(** *** Inclusion *)

Lemma NoDup_map_filter {A B} (f : A -> B) (p : A -> bool) l :
  NoDup (map f l) -> NoDup (map f (filter p l)).
Proof.
  induction l as [|x l IH]; cbn; [auto|].
  intros Hnd. inversion Hnd as [|? ? Hnotin Hnd']; subst.
  destruct (p x); cbn; [|auto].
  constructor; [|auto].
  intros Hin. apply Hnotin. apply in_map_iff in Hin.
  destruct Hin as [y [Hy Hin]]. apply filter_In in Hin.
  rewrite <- Hy. apply in_map. tauto.
Qed.

Lemma filter_length_le {A} (p : A -> bool) l :
  (List.length (filter p l) <= List.length l)%nat.
Proof.
  induction l as [|x l IH]; cbn; [lia|]. destruct (p x); cbn; lia.
Qed.

Lemma erasDownTo_length hi lo :
  List.length (erasDownTo hi lo) = Z.to_nat (hi - lo + 1).
Proof. unfold erasDownTo. now rewrite length_map, length_seq. Qed.

Lemma erasDownTo_In hi lo e : lo <= e <= hi -> In e (erasDownTo hi lo).
Proof.
  intros H. unfold erasDownTo. apply in_map_iff.
  exists (Z.to_nat (hi - e)). split; [lia|]. apply in_seq. lia.
Qed.

Lemma same_address_eras_unique address l :
  (forall r, In r l -> ep_address r = address) ->
  NoDup (map eraKey l) -> NoDup (map ep_era l).
Proof.
  induction l as [|x l IH]; cbn; intros Ha Hn; [constructor|].
  inversion Hn as [|? ? Hnotin Hn']; subst. constructor.
  - intros Hin. apply Hnotin. apply in_map_iff in Hin.
    destruct Hin as [y [Hy Hin]]. apply in_map_iff. exists y.
    split; [|exact Hin]. unfold eraKey.
    rewrite Hy, (Ha y (or_intror Hin)), (Ha x (or_introl eq_refl)).
    reflexivity.
  - apply IH; auto.
Qed.

(** The rows of one address whose era lies in `lo .. hi`, in a collection
    unique on (era, address), are at most `hi - lo + 1`. *)
Lemma rows_in_window_bound address lo hi (p : EraPoints -> bool) rows :
  NoDup (map eraKey rows) ->
  (forall r, In r rows -> p r = true ->
             ep_address r = address /\ lo <= ep_era r <= hi) ->
  (List.length (filter p rows) <= Z.to_nat (hi - lo + 1))%nat.
Proof.
  intros Hnd Hp.
  rewrite <- (erasDownTo_length hi lo), <- (length_map ep_era).
  apply NoDup_incl_length.
  - apply (same_address_eras_unique address).
    + intros r Hr. apply filter_In in Hr. destruct Hr as [Hin Hq].
      now apply Hp.
    + now apply NoDup_map_filter.
  - intros e He. apply in_map_iff in He. destruct He as [r [<- Hr]].
    apply filter_In in Hr. destruct Hr as [Hin Hq].
    apply erasDownTo_In. now apply Hp.
Qed.

Lemma span_rows_within_history stash activeEra rows :
  (List.length
     (filter (fun era => Z.ltb 0 (ep_eraPoints era))
        (filter (fun r => String.eqb (ep_address r) stash
                          && Z.leb (activeEra - 27) (ep_era r)) rows))
   <= List.length
        (filter (fun era => Z.ltb 0 (ep_eraPoints era))
           (filter (fun r => String.eqb (ep_address r) stash
                             && Z.leb (activeEra - 83) (ep_era r)) rows)))%nat.
Proof.
  induction rows as [|x l IH]; cbn; [lia|].
  destruct (String.eqb (ep_address x) stash) eqn:Ha; cbn; [|exact IH].
  destruct (Z.leb (activeEra - 27) (ep_era x)) eqn:E27; cbn.
  - replace (Z.leb (activeEra - 83) (ep_era x)) with true
      by (symmetry; apply Z.leb_le; apply Z.leb_le in E27; lia).
    cbn. destruct (Z.ltb 0 (ep_eraPoints x)); cbn; lia.
  - destruct (Z.leb (activeEra - 83) (ep_era x)); cbn; [|exact IH].
    destruct (Z.ltb 0 (ep_eraPoints x)); cbn; lia.
Qed.

(** X13.  The rows `getSpanEraPoints` returns are among those
    `getHistoryDepthEraPoints` returns, so `inclusionJob` never counts more
    eras for the span inclusion than for the inclusion.  When the EraPoints
    rows are unique on (era, address) and none lies after the active era,
    it counts at most 84 rows for the inclusion and at most 28 for the span
    inclusion: each quotient it stores, `filteredEras.length / 84` and
    `filteredSpanEras.length / 28`, divides a count by a bound the count
    does not exceed. *)
Theorem inclusion_counts_are_bounded :
  forall (stash : string) (activeEra : Z) (db : Db),
    incl (getSpanEraPoints stash activeEra db)
      (getHistoryDepthEraPoints stash activeEra db)
    /\ (List.length (filteredSpanEras stash activeEra db)
        <= List.length (filteredEras stash activeEra db))%nat
    /\ (eraRowsUnique db ->
        (forall r, In r (eraPointsModel db) -> ep_era r <= activeEra) ->
        (List.length (filteredEras stash activeEra db) <= 84)%nat
        /\ (List.length (filteredSpanEras stash activeEra db) <= 28)%nat).
Proof.
  intros stash activeEra db. split; [|split].
  - intros r Hr. unfold getSpanEraPoints, getHistoryDepthEraPoints, findAll
      in *.
    apply filter_In in Hr. destruct Hr as [Hin Hq]. apply filter_In.
    split; [exact Hin|].
    apply andb_true_iff in Hq. destruct Hq as [Ha He].
    rewrite Ha. cbn. apply Z.leb_le in He. apply Z.leb_le. lia.
  - unfold filteredSpanEras, filteredEras, getSpanEraPoints,
      getHistoryDepthEraPoints, findAll. cbv zeta.
    apply span_rows_within_history.
  - intros [Hu _] Hpast.
    unfold filteredEras, filteredSpanEras, getHistoryDepthEraPoints,
      getSpanEraPoints, findAll. cbv zeta.
    split.
    + eapply Nat.le_trans; [apply filter_length_le|].
      eapply Nat.le_trans;
        [apply (rows_in_window_bound stash (activeEra - 83) activeEra _ _ Hu)
        | lia].
      intros r Hin Hq. apply andb_true_iff in Hq. destruct Hq as [Ha He].
      apply String.eqb_eq in Ha. apply Z.leb_le in He.
      specialize (Hpast r Hin). auto.
    + eapply Nat.le_trans; [apply filter_length_le|].
      eapply Nat.le_trans;
        [apply (rows_in_window_bound stash (activeEra - 27) activeEra _ _ Hu)
        | lia].
      intros r Hin Hq. apply andb_true_iff in Hq. destruct Hq as [Ha He].
      apply String.eqb_eq in Ha. apply Z.leb_le in He.
      specialize (Hpast r Hin). auto.
Qed.

(** After a run at active era 3 from the empty store, "StashA" is counted
    for the four eras 0..3. *)
Lemma inclusion_counts_witness :
  eraRowsUnique (jobStore (sampleChain 3) emptyDb)
  /\ (List.length (filteredEras "StashA" 3 (jobStore (sampleChain 3) emptyDb))
      <= 84)%nat
  /\ List.length (filteredEras "StashA" 3 (jobStore (sampleChain 3) emptyDb))
     = 4%nat.
Proof.
  assert (eraRowsUnique (jobStore (sampleChain 3) emptyDb)) as Hu.
  { apply (rowWrites_keep eraRowsUnique emptyDb _ rowWrite_unique
             (eraPointsJob_writes (sampleChain 3) emptyDb)).
    split; constructor. }
  split; [exact Hu|].
  destruct (inclusion_counts_are_bounded "StashA" 3
              (jobStore (sampleChain 3) emptyDb)) as [_ [_ Hb]].
  split.
  - apply Hb; [exact Hu|].
    intros r Hr. vm_compute in Hr.
    repeat (destruct Hr as [<-|Hr]; [cbn; lia|]). destruct Hr.
  - vm_compute. reflexivity.
Defined.

(** ** Further properties of the cron wrappers *)

Lemma successfulRun_returns j :
  cronRun (cronCallback j) (successfulRun j) initialCron = initialCron.
Proof. destruct j; reflexivity. Qed.

(** X14.  A run in which every awaited promise is fulfilled leaves a job as
    it was registered, with the latch down and nothing in flight; so does
    any number of such runs one after the other, for each of the sixteen
    jobs. *)
Theorem successful_runs_release_the_latch :
  forall (j : JobName) (n : nat),
    jobAfter j (List.concat (repeat (successfulRun j) n)) = initialCron.
Proof.
  intros j n. unfold jobAfter. induction n as [|n IH]; [reflexivity|].
  cbn [repeat List.concat]. rewrite cronRun_app, successfulRun_returns. exact IH.
Qed.

Lemma latchedWithoutCatch_shape j :
  In j latchedWithoutCatch ->
  exists body,
    cronCallback j = ReturnIfRunning :: SetRunning true :: body
    /\ endsByClearing body = true /\ noTry body = true.
Proof.
  unfold latchedWithoutCatch. cbn.
  intros H.
  repeat (destruct H as [<-|H];
          [eexists; split; [reflexivity|]; split; reflexivity|]).
  destruct H.
Qed.

Lemma runSync_neverFailed k :
  endsByClearing k = true -> noTry k = true ->
  neverFailed (runSync k (mkCron true [] 0)).
Proof.
  induction k as [|s k IH]; intros Hk Hn; [discriminate|].
  destruct s as [|b| |what|what|what]; cbn in Hk.
  - destruct k; discriminate.
  - destruct b, k; try discriminate. split; [reflexivity|]. now left.
  - cbn. apply IH; [now destruct k | exact Hn].
  - cbn. apply IH; [now destruct k | exact Hn].
  - split; [reflexivity|]. right. cbn. split; [reflexivity|].
    eexists. split; [reflexivity|]. split; [exact Hk | exact Hn].
  - discriminate Hn.
Qed.

Lemma cronStep_dead cb ev :
  cronStep (ReturnIfRunning :: cb) deadCron ev = deadCron.
Proof. destruct ev as [|n o]; [reflexivity|]. now destruct n. Qed.

Lemma cronRun_dead cb evs :
  cronRun (ReturnIfRunning :: cb) evs deadCron = deadCron.
Proof.
  induction evs as [|ev evs IH]; [reflexivity|].
  cbn [cronRun fold_left]. rewrite cronStep_dead. exact IH.
Qed.

Lemma cronStep_failure_is_final j st ev :
  In j latchedWithoutCatch ->
  neverFailed st \/ st = deadCron ->
  neverFailed (cronStep (cronCallback j) st ev)
  \/ cronStep (cronCallback j) st ev = deadCron.
Proof.
  intros Hj Hst. destruct (latchedWithoutCatch_shape j Hj)
    as [body [-> [Hbody Htry]]].
  destruct Hst as [[Hrej Hshape]| ->]; [|right; apply cronStep_dead].
  destruct st as [run susp rej]. cbn in Hrej. subst rej.
  destruct ev as [|n outcome].
  - cbn. destruct run; [left; split; [reflexivity | exact Hshape]|].
    destruct Hshape as [Hs | [Hr _]]; [|discriminate Hr].
    cbn in Hs. subst susp. left. now apply runSync_neverFailed.
  - destruct Hshape as [Hs | [Hr [k [Hs [Hk Hn]]]]]; cbn in *; subst.
    + left. destruct n; (split; [reflexivity | now left]).
    + destruct n as [|n]; cbn.
      * destruct k as [|s k']; [discriminate|].
        destruct s as [|b| |what|what|what];
          try (left; split; [reflexivity | now left]).
        -- destruct outcome.
           ++ left. apply runSync_neverFailed.
              ** now apply (endsByClearing_tail (Await what)).
              ** exact Hn.
           ++ right. reflexivity.
        -- discriminate Hn.
      * left. unfold neverFailed.
        destruct n; cbn; (split; [reflexivity|]); right;
          (split; [reflexivity|]); exists k; auto.
Qed.

Lemma jobAfter_failure_is_final j evs :
  In j latchedWithoutCatch ->
  neverFailed (jobAfter j evs) \/ jobAfter j evs = deadCron.
Proof.
  intros Hj. unfold jobAfter.
  induction evs as [|ev evs IH] using rev_ind.
  - left. split; [reflexivity | now left].
  - rewrite cronRun_app. cbn. now apply cronStep_failure_is_final.
Qed.

(** X15.  Each latched job without a `try` (Validity, Score, EraStats,
    ActiveValidator, Inclusion, SessionKey, UnclaimedEras, ValidatorPref,
    ExtNominations) fails at most once: after any events its callback has
    rejected at most once, and once it has, the latch is up with nothing in
    flight and no later event changes that. *)
Theorem failed_job_never_runs_again :
  forall (j : JobName) (evs : list CronEvent),
    In j latchedWithoutCatch ->
    (rejections (jobAfter j evs) <= 1)%nat
    /\ (rejections (jobAfter j evs) = 1%nat ->
        forall more, jobAfter j (evs ++ more) = deadCron).
Proof.
  intros j evs Hj.
  destruct (jobAfter_failure_is_final j evs Hj) as [[Hrej _]|Hdead].
  - rewrite Hrej. split; [lia | discriminate].
  - split; [rewrite Hdead; cbn; lia|].
    intros _ more. unfold jobAfter in *. rewrite cronRun_app, Hdead.
    destruct (latchedWithoutCatch_shape j Hj) as [body [-> _]].
    apply cronRun_dead.
Qed.

Lemma failed_job_witness :
  In Score latchedWithoutCatch
  /\ rejections (jobAfter Score [Tick; Settle 0 Rejected]) = 1%nat
  /\ jobAfter Score ([Tick; Settle 0 Rejected] ++ [Tick; Tick; Settle 0 Fulfilled])
     = deadCron.
Proof.
  assert (In Score latchedWithoutCatch) as Hj by (cbn; auto).
  split; [exact Hj|]. split; [reflexivity|].
  destruct (failed_job_never_runs_again Score [Tick; Settle 0 Rejected] Hj)
    as [_ Hdead].
  apply Hdead. reflexivity.
Defined.

Lemma eraPoints_states evs :
  jobAfter EraPointsJob evs = initialCron
  \/ jobAfter EraPointsJob evs = eraPointsBusy.
Proof.
  unfold jobAfter. induction evs as [|ev evs IH] using rev_ind;
    [now left|].
  rewrite cronRun_app. cbn [cronRun fold_left].
  destruct IH as [-> | ->]; destruct ev as [|[|n] [|]]; cbn; auto.
  all: destruct n; cbn; auto.
Qed.

(** X16.  The era points job, whose body runs inside `try`/`catch`, never
    gets stuck: after any events its callback has never rejected, and
    whenever nothing is in flight the latch is down, so that the next tick
    starts a body. *)
Theorem eraPoints_job_always_restarts :
  forall evs : list CronEvent,
    rejections (jobAfter EraPointsJob evs) = 0%nat
    /\ (suspended (jobAfter EraPointsJob evs) = [] ->
        running (jobAfter EraPointsJob evs) = false
        /\ jobAfter EraPointsJob (evs ++ [Tick]) = eraPointsBusy).
Proof.
  intros evs. unfold jobAfter at 4. rewrite cronRun_app.
  fold (jobAfter EraPointsJob evs).
  destruct (eraPoints_states evs) as [-> | ->]; cbn.
  - split; [reflexivity|]. intros _. split; reflexivity.
  - split; [reflexivity|]. discriminate.
Qed.

Lemma eraPoints_job_witness :
  suspended (jobAfter EraPointsJob [Tick; Settle 0 Rejected]) = []
  /\ jobAfter EraPointsJob ([Tick; Settle 0 Rejected] ++ [Tick])
     = eraPointsBusy.
Proof.
  split; [reflexivity|].
  exact (proj2 (proj2 (eraPoints_job_always_restarts
                         [Tick; Settle 0 Rejected]) eq_refl)).
Defined.

(** ** Properties of the action jobs *)

Lemma sentRows_app a b : sentRows (a ++ b) = sentRows a ++ sentRows b.
Proof. apply flat_map_app. Qed.

Lemma cancelCalls_app a b :
  cancelCalls (a ++ b) = cancelCalls a ++ cancelCalls b.
Proof. apply flat_map_app. Qed.

Lemma cancelCalls_map nominator l :
  cancelCalls (map (fun a => CancelTx nominator a) l)
  = map (fun a => (nominator, a)) l.
Proof. induction l as [|a l IH]; cbn; [reflexivity | now rewrite <- IH]. Qed.

Lemma map_of_flat_map {X Y Z'} (f : Y -> Z') (g : X -> list Y) l :
  map f (flat_map g l) = flat_map (fun x => map f (g x)) l.
Proof.
  induction l as [|x l IH]; cbn; [reflexivity | now rewrite map_app, IH].
Qed.

Lemma executeDelayed_spec sendStakingTx timeDelayBlocks number groups rows aw :
  let result :=
    executeDelayed sendStakingTx timeDelayBlocks number groups rows aw in
  let notDue := fun row => negb (shouldExecute timeDelayBlocks number row) in
  filter notDue (delayedTxModel (a_db (snd result)))
  = filter notDue (delayedTxModel (a_db aw))
  /\ candidateModel (a_db (snd result)) = candidateModel (a_db aw)
  /\ (exists evs,
         a_log (snd result) = a_log aw ++ evs
         /\ Forall (fun row => shouldExecute timeDelayBlocks number row = true
                               /\ In row rows) (sentRows evs))
  /\ (forallb notDue rows = true -> result = (Ok tt, aw)).
Proof.
  cbv zeta. revert aw. induction rows as [|data rest IH]; intros aw.
  - cbn. repeat split; auto. exists []. now rewrite app_nil_r.
  - cbn [executeDelayed forallb].
    assert (forall aw1 evs0,
               a_log aw1 = a_log aw ++ evs0 ->
               Forall (fun row =>
                         shouldExecute timeDelayBlocks number row = true
                         /\ In row (data :: rest)) (sentRows evs0) ->
               exists evs,
                 a_log (snd (executeDelayed sendStakingTx timeDelayBlocks
                               number groups rest aw1))
                 = a_log aw ++ evs
                 /\ Forall (fun row =>
                              shouldExecute timeDelayBlocks number row = true
                              /\ In row (data :: rest)) (sentRows evs))
      as Hlog.
    { intros aw1 evs0 Hl Hf.
      destruct (IH aw1) as [_ [_ [[evs [Hevs Hsent]] _]]].
      exists (evs0 ++ evs). split; [now rewrite Hevs, Hl, app_assoc|].
      rewrite sentRows_app. apply Forall_app. split; [exact Hf|].
      eapply Forall_impl; [|exact Hsent]. cbn. intros row [H1 H2].
      split; [exact H1 | now right]. }
    destruct (shouldExecute timeDelayBlocks number data) eqn:Hdue; cbn [negb andb].
    + assert (Forall (fun row =>
                        shouldExecute timeDelayBlocks number row = true
                        /\ In row (data :: rest))
                (sentRows [SendStakingTx "" data])) as Hone
          by (cbn; constructor; [split; [exact Hdue | now left] | constructor]).
      destruct (findGroup groups (dt_controller data)) as [nomGroup|];
        [|cbn; repeat split; auto; [exists []; now rewrite app_nil_r
                                   | discriminate]].
      destruct (find _ nomGroup) as [nominator|];
        [|cbn; repeat split; auto; [exists []; now rewrite app_nil_r
                                   | discriminate]].
      destruct (sendStakingTx nominator data).
      * destruct (forallb _ (dt_targets data)).
        -- match goal with
           | |- context [executeDelayed _ _ _ _ rest ?w] =>
               destruct (IH w) as [Hrows [Hcand _]];
               destruct (Hlog w [SendStakingTx (nom_address nominator) data]
                           eq_refl Hone) as [evs Hevs]
           end.
           split; [|split; [|split]].
           ++ rewrite Hrows. cbn.
              apply deleteOne_filter_other. intros x Hx.
              unfold sameDelayedKey in Hx. apply andb_true_iff in Hx.
              destruct Hx as [Hx _]. apply Z.eqb_eq in Hx.
              unfold shouldExecute in *. rewrite Hx, Hdue. reflexivity.
           ++ rewrite Hcand. reflexivity.
           ++ exists evs. exact Hevs.
           ++ discriminate.
        -- cbn. repeat split; auto; [|discriminate].
           exists [SendStakingTx (nom_address nominator) data].
           split; [reflexivity | exact Hone].
      * match goal with
        | |- context [executeDelayed _ _ _ _ rest ?w] =>
            destruct (IH w) as [Hrows [Hcand _]];
            destruct (Hlog w [SendStakingTx (nom_address nominator) data]
                        eq_refl Hone) as [evs Hevs]
        end.
        split; [exact Hrows|]. split; [exact Hcand|].
        split; [exists evs; exact Hevs | discriminate].
    + destruct (IH aw) as [Hrows [Hcand [_ Hnone]]].
      destruct (Hlog aw [] (eq_sym (app_nil_r _)) (Forall_nil _))
        as [evs Hevs].
      split; [exact Hrows|]. split; [exact Hcand|].
      split; [exists evs; exact Hevs | exact Hnone].
Qed.

(** X17.  The execution callback never touches a delayed transaction whose
    delay has not elapsed: whatever the nominators answer, and also when the
    callback ends with an exception, the rows with
    `number + timeDelayBlocks > head` are all still there in their order,
    every transaction sent is for a row that is due, and the candidates are
    left alone.  When no row is due the callback sends nothing and leaves
    the store as it is. *)
Theorem executionJob_leaves_undue_rows :
  forall (sendStakingTx : Nominator -> DelayedTx -> bool)
         (timeDelayBlocks number : Z)
         (nominatorGroups : list (list Nominator)) (aw : ActionWorld),
    let result :=
      executionJob sendStakingTx timeDelayBlocks number nominatorGroups aw in
    let notDue := fun row => negb (shouldExecute timeDelayBlocks number row) in
    filter notDue (delayedTxModel (a_db (snd result)))
    = filter notDue (delayedTxModel (a_db aw))
    /\ candidateModel (a_db (snd result)) = candidateModel (a_db aw)
    /\ (exists evs,
           a_log (snd result) = a_log aw ++ evs
           /\ Forall (fun row =>
                        shouldExecute timeDelayBlocks number row = true
                        /\ In row (delayedTxModel (a_db aw)))
                (sentRows evs))
    /\ (forallb notDue (delayedTxModel (a_db aw)) = true ->
        result = (Ok tt, aw)).
Proof.
  intros sendStakingTx timeDelayBlocks number nominatorGroups aw.
  unfold executionJob, getAllDelayedTxs, findAll.
  assert (filter (fun _ : DelayedTx => true) (delayedTxModel (a_db aw))
          = delayedTxModel (a_db aw)) as ->.
  { induction (delayedTxModel (a_db aw)) as [|x l IH]; cbn; congruence. }
  apply executeDelayed_spec.
Qed.

(** Spec scenario 3: with a delay of 10 blocks the row announced at block
    100 stays at head 109 and is executed and deleted at head 110. *)
Lemma executionJob_scenario_witness :
  executionJob (fun _ _ => true) 10 109 sampleNominators
    (mkActionWorld sampleDelayedDb [])
  = (Ok tt, mkActionWorld sampleDelayedDb [])
  /\ executionJob (fun _ _ => true) 10 110 sampleNominators
       (mkActionWorld sampleDelayedDb [])
     = (Ok tt,
        mkActionWorld (set_delayedTxs [] sampleDelayedDb)
          [SendStakingTx "N1" (mkDelayedTx 100 "C" ["T"] "H")]).
Proof.
  split; [|reflexivity].
  apply (executionJob_leaves_undue_rows (fun _ _ => true) 10 109
           sampleNominators (mkActionWorld sampleDelayedDb [])).
  reflexivity.
Defined.

Lemma fold_appends {X} (g : X -> list Action) (f : ActionWorld -> X -> ActionWorld)
    l aw :
  (forall aw x, f aw x = mkActionWorld (a_db aw) (a_log aw ++ g x)) ->
  fold_left f l aw = mkActionWorld (a_db aw) (a_log aw ++ flat_map g l).
Proof.
  intros Hf. revert aw. induction l as [|x l IH]; intros aw; cbn.
  - rewrite app_nil_r. now destruct aw.
  - rewrite IH, Hf. cbn. now rewrite <- app_assoc.
Qed.

Lemma fold_groups {X} (f : ActionWorld -> X -> ActionWorld)
    (groups : list (list X)) aw :
  fold_left (fun aw group => fold_left f group aw) groups aw
  = fold_left f (List.concat groups) aw.
Proof.
  revert aw. induction groups as [|g gs IH]; intros aw; cbn; [reflexivity|].
  now rewrite fold_left_app, IH.
Qed.

(** X18.  The cancel callback asks for the cancellation of exactly the
    announcements of the proxy nominators whose height is below
    `latestBlock - 2 * timeDelayBlocks`, in the order of the groups, and it
    leaves the store alone.  It reads `proxy.timeDelayBlocks` without a
    default: when the option is not set the threshold is not a number and
    nothing is ever cancelled. *)
Theorem cancelJob_cancels_only_old_announcements :
  forall (getProxyAnnouncements : string -> list Announcement)
         (latestBlock : Z) (timeDelayBlocks : option Z)
         (nominatorGroups : list (list Nominator)) (aw : ActionWorld),
    let after :=
      cancelJob getProxyAnnouncements latestBlock timeDelayBlocks
        nominatorGroups aw in
    a_db after = a_db aw
    /\ cancelCalls (a_log after)
       = cancelCalls (a_log aw)
         ++ flat_map
              (fun nom =>
                 if nom_isProxy nom then
                   map (fun a => (nom_address nom, a))
                     (filter
                        (fun a =>
                           match timeDelayBlocks with
                           | Some d => Z.ltb (an_height a) (latestBlock - 2 * d)
                           | None => false
                           end)
                        (getProxyAnnouncements (nom_address nom)))
                 else [])
              (List.concat nominatorGroups)
    /\ (timeDelayBlocks = None -> after = aw).
Proof.
  intros getProxyAnnouncements latestBlock timeDelayBlocks nominatorGroups aw.
  cbv zeta. unfold cancelJob. rewrite fold_groups.
  set (calls := fun nom : Nominator =>
                  if nom_isProxy nom then
                    map (fun a => CancelTx (nom_address nom) a)
                      (filter
                         (olderThan (cancelThreshold latestBlock timeDelayBlocks))
                         (getProxyAnnouncements (nom_address nom)))
                  else []).
  rewrite (fold_appends calls).
  - cbn [a_db a_log]. split; [reflexivity|]. split.
    + rewrite cancelCalls_app. f_equal.
      induction (List.concat nominatorGroups) as [|nom l IH]; [reflexivity|].
      cbn [flat_map]. rewrite cancelCalls_app, IH. f_equal.
      unfold calls. destruct (nom_isProxy nom); [|reflexivity].
      rewrite cancelCalls_map. f_equal. apply filter_ext. intros a.
      unfold olderThan, cancelThreshold.
      now destruct timeDelayBlocks.
    + intros ->.
      assert (flat_map calls (List.concat nominatorGroups) = []) as ->.
      { induction (List.concat nominatorGroups) as [|nom l IH]; [reflexivity|].
        cbn [flat_map]. rewrite IH, app_nil_r. unfold calls.
        destruct (nom_isProxy nom); [|reflexivity]. cbn.
        induction (getProxyAnnouncements (nom_address nom)); auto. }
      rewrite app_nil_r. now destruct aw.
  - intros aw0 nom. unfold calls.
    destruct (nom_isProxy nom); [|rewrite app_nil_r; now destruct aw0].
    unfold cancelAnnouncements.
    rewrite (fold_appends
               (fun a => if olderThan (cancelThreshold latestBlock
                                         timeDelayBlocks) a
                         then [CancelTx (nom_address nom) a] else [])).
    + f_equal. f_equal.
      induction (getProxyAnnouncements (nom_address nom)) as [|a l IH];
        [reflexivity|].
      cbn [flat_map filter]. destruct (olderThan _ a); cbn; now rewrite IH.
    + intros aw1 a. destruct (olderThan _ a); [reflexivity|].
      rewrite app_nil_r. now destruct aw1.
Qed.

Lemma cancelJob_witness :
  cancelJob (fun _ => [mkAnnouncement "R" "H" 50; mkAnnouncement "R" "G" 95])
    100 None sampleNominators (mkActionWorld emptyDb [])
  = mkActionWorld emptyDb []
  /\ a_log
       (cancelJob
          (fun _ => [mkAnnouncement "R" "H" 50; mkAnnouncement "R" "G" 95])
          100 (Some 10) sampleNominators (mkActionWorld emptyDb []))
     = [CancelTx "N1" (mkAnnouncement "R" "H" 50)].
Proof.
  split; [|reflexivity].
  apply (cancelJob_cancels_only_old_announcements
           (fun _ => [mkAnnouncement "R" "H" 50; mkAnnouncement "R" "G" 95])
           100 None sampleNominators (mkActionWorld emptyDb [])).
  reflexivity.
Defined.

Lemma flat_map_of_flat_map {X Y Z'} (f : Y -> list Z') (g : X -> list Y) l :
  flat_map f (flat_map g l) = flat_map (fun x => flat_map f (g x)) l.
Proof.
  induction l as [|x l IH]; cbn; [reflexivity|].
  now rewrite flat_map_app, IH.
Qed.

Lemma report_appends bot message aw :
  report bot message aw
  = mkActionWorld (a_db aw)
      (a_log aw
         ++ LogInfo message :: (if bot then [BotSendMessage message] else [])).
Proof.
  unfold report, act. destruct bot; cbn; [|reflexivity].
  now rewrite <- app_assoc.
Qed.

(** X19.  A run of the stale callback logs its opening line and then, for
    each nominator account that has a stash (not empty, not "0x"), has
    nominations on chain and submitted them before `currentEra - threshold`
    (8 eras when the network prefix is 2, otherwise 2), in the order of the
    groups, one stale-nomination line, which it also sends to the bot when
    there is one; it logs and sends nothing else and leaves the store
    alone.  Its test for a target that is not a candidate negates the array
    returned by `filter`, which is truthy even when empty, so the "not a
    1kv candidate" message is never logged or sent, whatever the targets
    are. *)
Theorem staleJob_reports_only_stale_nominations :
  forall (stashOf : Nominator -> option string)
         (nominatorsOf : string -> option Nominations)
         (numberToString : Q -> string) (bot : bool)
         (networkPrefix currentEra : Z)
         (nominatorGroups : list (list Nominator)) (aw : ActionWorld),
    staleJob stashOf nominatorsOf numberToString bot networkPrefix currentEra
      nominatorGroups aw
    = mkActionWorld (a_db aw)
        (a_log aw
           ++ LogInfo "{cron::stale} running stale cron...."
           :: flat_map
                (fun stale =>
                   let message :=
                     staleMessage numberToString (fst stale) (snd stale)
                       currentEra in
                   LogInfo message
                   :: (if bot then [BotSendMessage message] else []))
                (staleNominators stashOf nominatorsOf
                   (if Z.eqb networkPrefix 2 then 8 else 2) currentEra
                   (List.concat nominatorGroups))).
Proof.
  intros stashOf nominatorsOf numberToString bot networkPrefix currentEra
         nominatorGroups aw.
  unfold staleJob. cbv zeta. rewrite fold_groups.
  set (threshold := if Z.eqb networkPrefix 2 then 8 else 2).
  set (aw0 := act (LogInfo "{cron::stale} running stale cron....") aw).
  set (cands := allCandidates (a_db aw0)).
  set (lines := fun stale : string * Z =>
                  LogInfo (staleMessage numberToString (fst stale)
                             (snd stale) currentEra)
                  :: (if bot
                      then [BotSendMessage
                              (staleMessage numberToString (fst stale)
                                 (snd stale) currentEra)]
                      else [])).
  rewrite (fold_appends
             (fun nom =>
                flat_map lines
                  (staleNominators stashOf nominatorsOf threshold currentEra
                     [nom]))).
  - subst aw0. cbn [act a_db a_log]. f_equal. rewrite <- app_assoc. cbn [app].
    f_equal. f_equal. unfold staleNominators.
    rewrite flat_map_of_flat_map. apply flat_map_ext. intros nom.
    cbn [flat_map]. now rewrite app_nil_r.
  - intros aw1 nom. unfold staleCheck, staleNominators. cbn [flat_map].
    rewrite app_nil_r.
    destruct (stashOf nom) as [stash|];
      [|cbn; rewrite app_nil_r; now destruct aw1].
    destruct (String.eqb stash "" || String.eqb stash "0x");
      [cbn; rewrite app_nil_r; now destruct aw1|].
    destruct (nominatorsOf stash) as [n|];
      [|cbn; rewrite app_nil_r; now destruct aw1].
    assert (forall targets,
               fold_left
                 (fun aw target =>
                    if negb (truthyArray
                               (filter (fun candidate => byStash target candidate)
                                  cands))
                    then report bot (notCandidateMessage stash target) aw
                    else aw)
                 targets aw1 = aw1) as ->.
    { induction targets as [|t ts IH]; [reflexivity | exact IH]. }
    destruct (Z.ltb (nm_submittedIn n) (currentEra - threshold)).
    + rewrite report_appends. cbn [flat_map]. now rewrite app_nil_r.
    + cbn. rewrite app_nil_r. now destruct aw1.
Qed.

(** One stale nominator on Kusama at era 20, with a bot. *)
Lemma staleJob_witness :
  a_log
    (staleJob sampleStash sampleNominations sampleNumberToString true 2 20
       sampleNominators (mkActionWorld sampleDelayedDb []))
  = [LogInfo "{cron::stale} running stale cron....";
     LogInfo (staleMessage sampleNumberToString "stash of N1" 3 20);
     BotSendMessage (staleMessage sampleNumberToString "stash of N1" 3 20)].
Proof.
  rewrite (staleJob_reports_only_stale_nominations sampleStash
             sampleNominations sampleNumberToString true 2 20
             sampleNominators (mkActionWorld sampleDelayedDb [])).
  reflexivity.
Defined.

(** ** Properties of the nominator, accounting, statistics and release
    collections *)

Lemma findAll_everything {A} (l : list A) : findAll (fun _ => true) l = l.
Proof. unfold findAll. induction l; cbn; congruence. Qed.

Lemma deleteOne_skips_prefix {A} (q : A -> bool) k x rest :
  Forall (fun d => q d = false) k -> q x = true ->
  deleteOne q (k ++ x :: rest) = k ++ rest.
Proof.
  intros Hk Hx. induction Hk as [|d k Hd Hk IH]; cbn.
  - now rewrite Hx.
  - now rewrite Hd, IH.
Qed.

Lemma removeStale_loop controllers l k :
  Forall (fun n => notIn (nd_address n) controllers = false) k ->
  fold_left
    (fun model address =>
       if notIn address controllers
       then deleteOne (byAddress address) model
       else model)
    (map nd_address l) (k ++ l)
  = k ++ filter (fun n => negb (notIn (nd_address n) controllers)) l.
Proof.
  revert k. induction l as [|x l IH]; intros k Hk; [reflexivity|].
  cbn [map fold_left filter].
  destruct (notIn (nd_address x) controllers) eqn:Hx; cbn [negb].
  - rewrite deleteOne_skips_prefix.
    + now apply IH.
    + eapply Forall_impl; [|exact Hk]. cbn. intros n Hn.
      unfold byAddress. apply String.eqb_neq. intros Heq.
      rewrite Heq in Hn. congruence.
    + unfold byAddress. apply String.eqb_refl.
  - change (k ++ x :: l) with (k ++ [x] ++ l).
    change (k ++ x :: filter (fun n => negb (notIn (nd_address n) controllers)) l)
      with (k ++ [x] ++ filter (fun n => negb (notIn (nd_address n) controllers)) l).
    rewrite !app_assoc. apply IH.
    apply Forall_app. split; [exact Hk|]. constructor; [exact Hx | constructor].
Qed.

(** X20.  `removeStaleNominators(controllers)` keeps exactly the nominator
    documents whose address is among the controllers, in their order: every
    other document is deleted, also when several documents carry the same
    stale address (the loop runs once for each of them). *)
Theorem removeStaleNominators_is_a_filter :
  forall (controllers : list string) (nominatorModel : list NominatorDoc),
    removeStaleNominators controllers nominatorModel
    = filter (fun n => existsb (String.eqb (nd_address n)) controllers)
        nominatorModel.
Proof.
  intros controllers nominatorModel.
  unfold removeStaleNominators, allNominators. rewrite findAll_everything.
  pose proof (removeStale_loop controllers nominatorModel []
                (Forall_nil _)) as Hloop.
  cbn [app] in Hloop. rewrite Hloop. apply filter_ext. intros n. unfold notIn.
  apply negb_involutive.
Qed.

Lemma findOne_byAddress_update address u l :
  (forall n, nd_address (u n) = nd_address n) ->
  forall n0, findOne (byAddress address) l = Some n0 ->
  findOne (byAddress address) (findOneAndUpdate (byAddress address) u l)
  = Some (u n0).
Proof.
  intros Hu n0. unfold findOne. induction l as [|x l IH]; cbn; [discriminate|].
  destruct (byAddress address x) eqn:Hx.
  - intros [= <-]. cbn. unfold byAddress in *. now rewrite Hu, Hx.
  - intros H. cbn. rewrite Hx. now apply IH.
Qed.

Lemma findOne_byAddress_update_other address address' u l :
  (forall n, nd_address (u n) = nd_address n) ->
  address' <> address ->
  findOne (byAddress address') (findOneAndUpdate (byAddress address) u l)
  = findOne (byAddress address') l.
Proof.
  intros Hu Hne. unfold findOne. induction l as [|x l IH]; cbn; [reflexivity|].
  destruct (byAddress address x) eqn:Hx; cbn.
  - unfold byAddress in *. rewrite Hu. apply String.eqb_eq in Hx.
    rewrite Hx. apply String.eqb_neq in Hne. rewrite String.eqb_sym in Hne.
    now rewrite Hne.
  - now rewrite IH.
Qed.

Lemma find_app_miss {A} (q : A -> bool) l d :
  find q l = None -> find q (l ++ [d]) = if q d then Some d else None.
Proof.
  induction l as [|x l IH]; cbn; [reflexivity|].
  destruct (q x); [discriminate | exact IH].
Qed.

Lemma find_app_other {A} (q : A -> bool) l d :
  q d = false -> find q (l ++ [d]) = find q l.
Proof.
  intros Hd. induction l as [|x l IH]; cbn; [now rewrite Hd|].
  destruct (q x); [reflexivity | exact IH].
Qed.

Lemma NoDup_snoc_fresh {A} (l : list A) (a : A) :
  ~ In a l -> NoDup l -> NoDup (l ++ [a]).
Proof.
  intros Hnot Hnd. induction Hnd as [|x l Hx Hnd IH]; cbn.
  - constructor; [intros [] | constructor].
  - constructor.
    + rewrite in_app_iff. intros [H|[H|[]]]; [now apply Hx|].
      subst. apply Hnot. now left.
    + apply IH. intros H. apply Hnot. now right.
Qed.

(** X21.  `addNominator` keeps the addresses of the nominator documents
    distinct.  The document found under the address afterwards carries the
    stash, proxy, bonded amount and time of the call; when the address was
    already known its `current` targets and last nomination are kept, and
    otherwise they start empty and at 0.  Documents under any other address
    are found as before. *)
Theorem addNominator_upserts_by_address :
  forall (address stash proxy : string) (bonded now : Z)
         (nominatorModel : list NominatorDoc),
    NoDup (map nd_address nominatorModel) ->
    let after := addNominator address stash proxy bonded now nominatorModel in
    NoDup (map nd_address after)
    /\ findOne (byAddress address) after
       = Some (match findOne (byAddress address) nominatorModel with
               | Some n =>
                   mkNominatorDoc address stash proxy bonded (nd_current n)
                     (nd_lastNomination n) now
               | None => mkNominatorDoc address stash proxy bonded [] 0 now
               end)
    /\ forall address',
         address' <> address ->
         findOne (byAddress address') after
         = findOne (byAddress address') nominatorModel.
Proof.
  intros address stash proxy bonded now nominatorModel Hnd. cbv zeta.
  unfold addNominator.
  destruct (findOne (byAddress address) nominatorModel) as [n|] eqn:Hfind.
  - split; [|split].
    + rewrite map_update_outside; [exact Hnd | reflexivity].
    + erewrite findOne_byAddress_update; [|reflexivity|exact Hfind].
      f_equal. f_equal.
      apply find_some in Hfind. destruct Hfind as [_ Hq].
      now apply String.eqb_eq in Hq.
    + intros address' Hne.
      now apply findOne_byAddress_update_other.
  - split; [|split].
    + unfold save. rewrite map_app. cbn. apply NoDup_snoc_fresh; [|exact Hnd].
      intros Hin. apply in_map_iff in Hin. destruct Hin as [n [Hn Hin]].
      pose proof (find_none _ _ Hfind n Hin) as Hq.
      unfold byAddress in Hq. apply String.eqb_neq in Hq. congruence.
    + unfold save, findOne. rewrite find_app_miss; [|exact Hfind].
      unfold byAddress. cbn. now rewrite String.eqb_refl.
    + intros address' Hne. unfold save, findOne. apply find_app_other.
      unfold byAddress. cbn. apply String.eqb_neq. congruence.
Qed.

Lemma addNominator_witness :
  NoDup (map nd_address sampleNominatorDocs)
  /\ findOne (byAddress "A1")
       (addNominator "A1" "S9" "P9" 99 5 sampleNominatorDocs)
     = Some (mkNominatorDoc "A1" "S9" "P9" 99
               [mkCurrentTarget "tee" (Some "T")] 7 5).
Proof.
  assert (NoDup (map nd_address sampleNominatorDocs)) as Hnd.
  { cbn. constructor; [intros [H|[]]; discriminate|].
    constructor; [intros [] | constructor]. }
  split; [exact Hnd|].
  exact (proj1 (proj2 (addNominator_upserts_by_address "A1" "S9" "P9" 99 5
                         sampleNominatorDocs Hnd))).
Defined.

Lemma findOne_update_self {A} (q : A -> bool) u l d :
  (forall x, q (u x) = q x) ->
  findOne q l = Some d ->
  findOne q (findOneAndUpdate q u l) = Some (u d).
Proof.
  intros Hu. unfold findOne. induction l as [|x l IH]; cbn; [discriminate|].
  destruct (q x) eqn:Hx.
  - intros [= <-]. cbn. now rewrite Hu, Hx.
  - intros H. cbn. rewrite Hx. now apply IH.
Qed.

(** X22.  The accounting records only grow.  `updateAccountingRecord`
    answers `false` and writes nothing when there is no record for the
    (stash, controller) pair; after `newAccountingRecord` it answers `true`
    and appends the (era, reward) entry to the end of the record's list.
    No method ever changes `total`: it stays what it was, "0" for a record
    created by `newAccountingRecord`. *)
Theorem accounting_records_only_grow :
  forall (stash controller era reward : string)
         (accountingModel : list AccountingDoc),
    let key := byStashController stash controller in
    let created := newAccountingRecord stash controller accountingModel in
    let updated := updateAccountingRecord controller stash era reward created in
    (findOne key accountingModel = None ->
     updateAccountingRecord controller stash era reward accountingModel
     = (false, accountingModel))
    /\ fst updated = true
    /\ exists before,
         findOne key created = Some before
         /\ findOne key (snd updated)
            = Some (mkAccountingDoc stash controller (ac_total before)
                      (ac_records before ++ [(era, reward)]))
         /\ (findOne key accountingModel = None ->
             ac_total before = "0" /\ ac_records before = [])
         /\ map ac_total (snd updated) = map ac_total created.
Proof.
  intros stash controller era reward accountingModel. cbv zeta.
  split.
  { intros Hnone. unfold updateAccountingRecord. now rewrite Hnone. }
  assert (exists before,
             findOne (byStashController stash controller)
               (newAccountingRecord stash controller accountingModel)
             = Some before
             /\ (findOne (byStashController stash controller) accountingModel
                 = None ->
                 ac_total before = "0" /\ ac_records before = []))
    as [before [Hbefore Hfresh]].
  { unfold newAccountingRecord.
    destruct (findOne (byStashController stash controller) accountingModel)
      as [b|] eqn:Hfind.
    - exists b. split; [exact Hfind | discriminate].
    - exists (mkAccountingDoc stash controller "0" []). split; [|now split].
      unfold save, findOne. rewrite find_app_miss; [|exact Hfind].
      unfold byStashController. cbn. now rewrite !String.eqb_refl. }
  unfold updateAccountingRecord. rewrite Hbefore. cbn [fst snd].
  split; [reflexivity|]. exists before.
  split; [reflexivity|]. split; [|split; [exact Hfresh|]].
  - rewrite (findOne_update_self _ _ _ before); [|reflexivity|exact Hbefore].
    f_equal. apply find_some in Hbefore. destruct Hbefore as [_ Hq].
    unfold byStashController in Hq. apply andb_true_iff in Hq.
    destruct Hq as [H1 H2]. apply String.eqb_eq in H1, H2. now subst.
  - now apply map_update_outside.
Qed.

Lemma holdsStats_dec totalNodes valid active data :
  (Z.eqb (es_totalNodes data) totalNodes && Z.eqb (es_valid data) valid
   && Z.eqb (es_active data) active) = true
  <-> holdsStats totalNodes valid active data.
Proof.
  unfold holdsStats. rewrite !andb_true_iff, !Z.eqb_eq. tauto.
Qed.

(** X23.  `setEraStats(era, totalNodes, valid, active)` keeps one document
    per era: the eras of the collection are the ones it had, with the new
    era appended when it was missing.  For a missing era the document is
    saved before the method resolves; for a document that holds the numbers
    of the call nothing is written.  For a document that holds other
    numbers the method resolves with the collection as it was and one
    update issued, which it does not await: a repeat of the call before
    that update is applied issues the update again; once it is applied the
    document carries the numbers of the call and a repeat writes nothing,
    whatever `Date.now()` answers. *)
Theorem setEraStats_is_idempotent :
  forall (era totalNodes valid active now later : Z)
         (eraStatsModel : list EraStatsDoc),
    let call := setEraStats era totalNodes valid active now eraStatsModel in
    map es_era (fst call)
    = match findOne (byEra era) eraStatsModel with
      | Some _ => map es_era eraStatsModel
      | None => map es_era eraStatsModel ++ [era]
      end
    /\ (findOne (byEra era) eraStatsModel = None ->
        snd call = None
        /\ findOne (byEra era) (fst call)
           = Some (mkEraStatsDoc era now totalNodes valid active)
        /\ setEraStats era totalNodes valid active later (fst call)
           = (fst call, None))
    /\ forall data,
        findOne (byEra era) eraStatsModel = Some data ->
        fst call = eraStatsModel
        /\ (holdsStats totalNodes valid active data -> snd call = None)
        /\ (~ holdsStats totalNodes valid active data ->
            let u := mkEraStatsUpdate era now totalNodes valid active in
            snd call = Some u
            /\ setEraStats era totalNodes valid active later eraStatsModel
               = (eraStatsModel,
                  Some (mkEraStatsUpdate era later totalNodes valid active))
            /\ findOne (byEra era) (landEraStats u eraStatsModel)
               = Some (mkEraStatsDoc era now totalNodes valid active)
            /\ map es_era (landEraStats u eraStatsModel)
               = map es_era eraStatsModel
            /\ setEraStats era totalNodes valid active later
                 (landEraStats u eraStatsModel)
               = (landEraStats u eraStatsModel, None)).
Proof.
  intros era totalNodes valid active now later eraStatsModel. cbv zeta.
  destruct (findOne (byEra era) eraStatsModel) as [data|] eqn:Hfind.
  - pose proof (find_some _ _ Hfind) as [_ Hq].
    unfold byEra in Hq. apply Z.eqb_eq in Hq.
    destruct (Z.eqb (es_totalNodes data) totalNodes
              && Z.eqb (es_valid data) valid
              && Z.eqb (es_active data) active) eqn:Hsame.
    + assert (forall t, setEraStats era totalNodes valid active t
                          eraStatsModel = (eraStatsModel, None)) as Hcall
          by (intros t; unfold setEraStats; now rewrite Hfind, Hsame).
      rewrite !Hcall. cbn [fst snd].
      split; [reflexivity|]. split; [discriminate|].
      intros d [= <-]. split; [reflexivity|]. split; [reflexivity|].
      intros Hnot. exfalso. apply Hnot. now apply holdsStats_dec.
    + assert (forall t, setEraStats era totalNodes valid active t
                          eraStatsModel
                        = (eraStatsModel,
                           Some (mkEraStatsUpdate era t totalNodes valid
                                   active))) as Hcall
          by (intros t; unfold setEraStats; now rewrite Hfind, Hsame).
      rewrite !Hcall. cbn [fst snd].
      split; [reflexivity|]. split; [discriminate|].
      intros d [= <-]. split; [reflexivity|]. split.
      * intros Hholds. apply holdsStats_dec in Hholds. congruence.
      * intros _. split; [reflexivity|]. split; [reflexivity|].
        assert (findOne (byEra era)
                  (landEraStats
                     (mkEraStatsUpdate era now totalNodes valid active)
                     eraStatsModel)
                = Some (mkEraStatsDoc era now totalNodes valid active))
          as Hlanded.
        { unfold landEraStats. cbn [eu_era eu_when eu_totalNodes eu_valid
                                    eu_active].
          rewrite (findOne_update_self (byEra era)
                     (fun s => mkEraStatsDoc (es_era s) now totalNodes valid
                                 active) eraStatsModel data);
            [now rewrite Hq | reflexivity | exact Hfind]. }
        split; [exact Hlanded|]. split.
        { unfold landEraStats. now apply map_update_outside. }
        unfold setEraStats. rewrite Hlanded. cbn.
        now rewrite !Z.eqb_refl.
  - assert (setEraStats era totalNodes valid active now eraStatsModel
            = (save (mkEraStatsDoc era now totalNodes valid active)
                 eraStatsModel, None)) as Hcall
        by (unfold setEraStats; now rewrite Hfind).
    rewrite !Hcall. cbn [fst snd].
    split; [unfold save; now rewrite map_app|].
    split; [|discriminate]. intros _. split; [reflexivity|].
    assert (findOne (byEra era)
              (save (mkEraStatsDoc era now totalNodes valid active)
                 eraStatsModel)
            = Some (mkEraStatsDoc era now totalNodes valid active))
      as Hsaved.
    { unfold save, findOne. rewrite find_app_miss; [|exact Hfind].
      unfold byEra. cbn. now rewrite Z.eqb_refl. }
    split; [exact Hsaved|].
    unfold setEraStats. rewrite Hsaved. cbn. now rewrite !Z.eqb_refl.
Qed.

(** Era 7 is stored with (50, 20, 10); a call with (50, 21, 10) issues an
    update and leaves the collection as it is until the update lands. *)
Lemma setEraStats_witness :
  findOne (byEra 7) sampleEraStats = Some (mkEraStatsDoc 7 100 50 20 10)
  /\ ~ holdsStats 50 21 10 (mkEraStatsDoc 7 100 50 20 10)
  /\ setEraStats 7 50 21 10 200 sampleEraStats
     = (sampleEraStats, Some (mkEraStatsUpdate 7 200 50 21 10))
  /\ landEraStats (mkEraStatsUpdate 7 200 50 21 10) sampleEraStats
     = [mkEraStatsDoc 7 200 50 21 10].
Proof.
  assert (~ holdsStats 50 21 10 (mkEraStatsDoc 7 100 50 20 10)) as Hnot
      by (intros [_ [H _]]; discriminate H).
  split; [reflexivity|]. split; [exact Hnot|].
  destruct (proj2 (proj2 (setEraStats_is_idempotent 7 50 21 10 200 300
                            sampleEraStats))
              (mkEraStatsDoc 7 100 50 20 10) eq_refl)
    as [Hsame [_ Hother]].
  destruct (Hother Hnot) as [Hissued _].
  split; [|reflexivity].
  rewrite (surjective_pairing (setEraStats 7 50 21 10 200 sampleEraStats)).
  now rewrite Hsame, Hissued.
Defined.

Lemma insertDesc_in {A} (key : A -> Z) d l x :
  In x (insertDesc key d l) <-> x = d \/ In x l.
Proof.
  induction l as [|y l IH]; cbn; [intuition|].
  destruct (Z.leb (key y) (key d)); cbn; [intuition|].
  rewrite IH. intuition.
Qed.

Lemma sortDesc_in {A} (key : A -> Z) l x : In x (sortDesc key l) <-> In x l.
Proof.
  induction l as [|y l IH]; [cbn; tauto|].
  change (sortDesc key (y :: l)) with (insertDesc key y (sortDesc key l)).
  rewrite insertDesc_in, IH. cbn. intuition.
Qed.

Lemma insertDesc_head {A} (key : A -> Z) d l :
  (forall r, hd_error l = Some r -> forall x, In x l -> key x <= key r) ->
  exists r, hd_error (insertDesc key d l) = Some r
            /\ forall x, In x (insertDesc key d l) -> key x <= key r.
Proof.
  intros Hl. destruct l as [|y l]; cbn.
  - exists d. split; [reflexivity|]. intros x [<-|[]]. lia.
  - specialize (Hl y eq_refl).
    destruct (Z.leb (key y) (key d)) eqn:Hle.
    + exists d. split; [reflexivity|]. apply Z.leb_le in Hle.
      intros x [<-|Hx]; [lia|]. specialize (Hl x Hx). lia.
    + exists y. split; [reflexivity|]. apply Z.leb_gt in Hle.
      intros x [<-|Hx]; [lia|]. apply insertDesc_in in Hx.
      destruct Hx as [->|Hx]; [lia|]. apply Hl. now right.
Qed.

Lemma sortDesc_head {A} (key : A -> Z) l :
  forall r, hd_error (sortDesc key l) = Some r ->
            forall x, In x (sortDesc key l) -> key x <= key r.
Proof.
  induction l as [|y l IH]; [cbn; discriminate|].
  change (sortDesc key (y :: l)) with (insertDesc key y (sortDesc key l)).
  intros r Hr x Hx.
  destruct (insertDesc_head key y (sortDesc key l) IH) as [r' [Hr' Hmax]].
  rewrite Hr in Hr'. injection Hr' as <-. now apply Hmax.
Qed.

Lemma hd_limit_1 {A} (l : list A) : hd_error (limit 1 l) = hd_error l.
Proof. now destruct l. Qed.

(** X24.  A release is stored once: `setRelease` answers the document in the
    store under the name, and when the name is already known it keeps the
    stored publication time and writes nothing, even when the call brings
    another time.  After any `setRelease` the store is not empty and
    `getLatestRelease` answers one of its documents with the greatest
    publication time. *)
Theorem releases_are_stored_once :
  forall (name : string) (publishedAt : Z) (releaseModel : list ReleaseDoc),
    let answer := fst (setRelease name publishedAt releaseModel) in
    let after := snd (setRelease name publishedAt releaseModel) in
    findOne (releaseNamed name) after = Some answer
    /\ (forall known,
           findOne (releaseNamed name) releaseModel = Some known ->
           answer = known /\ after = releaseModel)
    /\ (findOne (releaseNamed name) releaseModel = None ->
        answer = mkReleaseDoc name publishedAt
        /\ after = releaseModel ++ [answer])
    /\ exists latest,
         getLatestRelease after = Some latest
         /\ In latest after
         /\ forall r, In r after -> rl_publishedAt r <= rl_publishedAt latest.
Proof.
  intros name publishedAt releaseModel. cbv zeta.
  assert (findOne (releaseNamed name)
            (snd (setRelease name publishedAt releaseModel))
          = Some (fst (setRelease name publishedAt releaseModel))) as Hfound.
  { unfold setRelease.
    destruct (findOne (releaseNamed name) releaseModel) as [data|] eqn:Hfind;
      cbn [fst snd]; [exact Hfind|].
    unfold save, findOne. rewrite find_app_miss; [|exact Hfind].
    unfold releaseNamed. cbn. now rewrite String.eqb_refl. }
  split; [exact Hfound|]. split; [|split].
  - intros known Hknown. unfold setRelease. rewrite Hknown. now split.
  - intros Hnone. unfold setRelease. rewrite Hnone. now split.
  - apply find_some in Hfound. destruct Hfound as [Hin _].
    set (after := snd (setRelease name publishedAt releaseModel)) in *.
    unfold getLatestRelease. rewrite hd_limit_1, findAll_everything.
    destruct (hd_error (sortDesc rl_publishedAt after)) as [latest|] eqn:Hhd.
    + exists latest. split; [reflexivity|]. split.
      * apply (sortDesc_in rl_publishedAt).
        destruct (sortDesc rl_publishedAt after); [discriminate|].
        injection Hhd as ->. now left.
      * intros r Hr. apply (sortDesc_head rl_publishedAt after latest Hhd).
        now apply sortDesc_in.
    + exfalso. apply (sortDesc_in rl_publishedAt) in Hin.
      destruct (sortDesc rl_publishedAt after); [exact Hin | discriminate].
Qed.
